(** * Key-level analytics engine (analytics_prototype_v4_comprehensive.py)

    A shallow embedding of the aggregation engine of
    [DeribitAnalyticsV4Comprehensive] and the properties of its
    specification.

    Conventions of the embedding.
    - A Python [float] is an exact rational ([Q]); equality of floats is
      [Qeq].  Rounding error is outside the model, and so are the
      infinities and NaN: a name whose strike [float] reads as one of them
      is marked by [float_of_string] and excluded where it matters.
    - A [str] is a sequence of code points below 256.
    - A Python [dict] is an association list in insertion order, compared
      on keys by the boolean equality of the key type.
    - A key that a record reads with [d.get(k, default)] and that is always
      numeric is stored as the number, the default standing for absence;
      keys whose absence matters ([trade_id], [expiry_date], [index_price])
      are options.
    - [datetime.now] is a clock that is read once per call: the sequence of
      its readings is a function of a tick counter, threaded through the
      code that reads it.
    - The network layer is outside the engine: what it fetches is an input,
      and so is the clock reading that only dates the requests. *)

From Stdlib Require Import ZArith QArith Qabs Qround Qminmax Lqa Lia.
From Stdlib Require Import List String Ascii Bool.
From Stdlib Require Import Sorting.Sorted Sorting.Permutation.
From Stdlib Require Import DecimalString DecimalN.
Import ListNotations.

Local Open Scope string_scope.
Local Open Scope list_scope.
Local Open Scope Q_scope.

(* ================================================================== *)
(** * Part I: the program                                              *)
(* ================================================================== *)

(** ** Python numbers *)

Module PyNum.

Definition Qlt_bool (x y : Q) : bool := negb (Qle_bool y x).

(** [max(a, b)]: the first argument unless the second is strictly
    greater. *)
Definition py_max (a b : Q) : Q := if Qlt_bool a b then b else a.

(** [min(a, b)]: the first argument unless the second is strictly
    smaller. *)
Definition py_min (a b : Q) : Q := if Qlt_bool b a then b else a.

(** [round(x)] with one argument: nearest integer, ties to even. *)
Definition py_round (x : Q) : Z :=
  let f := Qfloor x in
  let r := x - inject_Z f in
  if Qlt_bool r (1#2) then f
  else if Qlt_bool (1#2) r then (f + 1)%Z
  else if Z.even f then f else (f + 1)%Z.

(** [sum(l)] and [np.mean(l)]. *)
Definition py_sum (l : list Q) : Q := fold_left Qplus l 0.
Definition np_mean (l : list Q) : Q := py_sum l / inject_Z (Z.of_nat (List.length l)).

End PyNum.
Export PyNum.

(** ** Python dictionaries, in insertion order *)

Section Dict.
Context {K V : Type} (keq : K -> K -> bool).

Definition dict := list (K * V).

Fixpoint dict_get (d : dict) (k : K) : option V :=
  match d with
  | [] => None
  | (k', v) :: r => if keq k' k then Some v else dict_get r k
  end.

(** [k in d] *)
Definition dict_mem (d : dict) (k : K) : bool :=
  match dict_get d k with Some _ => true | None => false end.

(** [d.get(k, dflt)] *)
Definition dict_get_default (d : dict) (k : K) (dflt : V) : V :=
  match dict_get d k with Some v => v | None => dflt end.

(** [d[k] = v]: an existing key keeps its position (and its key object),
    a new key goes last. *)
Fixpoint dict_set (d : dict) (k : K) (v : V) : dict :=
  match d with
  | [] => [(k, v)]
  | (k', v') :: r =>
      if keq k' k then (k', v) :: r else (k', v') :: dict_set r k v
  end.

(** [d.update(items)] and [dict(items)] *)
Definition dict_update (d : dict) (items : list (K * V)) : dict :=
  fold_left (fun acc kv => dict_set acc (fst kv) (snd kv)) items d.

Definition dict_of_items (items : list (K * V)) : dict :=
  dict_update [] items.

Definition dict_keys (d : dict) : list K := map fst d.
Definition dict_values (d : dict) : list V := map snd d.

End Dict.

Arguments dict : clear implicits.

(** ** [list.sort(key=...)] and [max(..., key=...)] *)

Section SortMax.
Context {A : Type}.

(** Stable insertion: [x] stood before every element of [l] in the
    input, so it goes in front of the first element it does not
    exceed. *)
Fixpoint insert_by (leb : A -> A -> bool) (x : A) (l : list A) : list A :=
  match l with
  | [] => [x]
  | y :: r => if leb x y then x :: y :: r else y :: insert_by leb x r
  end.

Definition sort_by (leb : A -> A -> bool) (l : list A) : list A :=
  fold_right (insert_by leb) [] l.

(** [l.sort(key=key)] *)
Definition sort_key (key : A -> Q) : list A -> list A :=
  sort_by (fun x y => Qle_bool (key x) (key y)).

(** [l.sort(key=key, reverse=True)]: descending, equal keys in their
    original order. *)
Definition sort_key_rev (key : A -> Q) : list A -> list A :=
  sort_by (fun x y => Qle_bool (key y) (key x)).

(** [max(l, key=key)] on a non-empty list: the first element with the
    greatest key. *)
Definition max_from (key : A -> Q) (best : A) (l : list A) : A :=
  fold_left (fun b x => if Qlt_bool (key b) (key x) then x else b) l best.

Definition max_key (key : A -> Q) (l : list A) : option A :=
  match l with
  | [] => None
  | x :: r => Some (max_from key x r)
  end.

End SortMax.

(** ** Exceptions *)

Inductive exn :=
| ValueError (msg : string)
| ZeroDivisionError
| OverflowError
| OSError.

(** A computation that returns or raises. *)
Definition result (A : Type) : Type := (exn + A)%type.

Definition raise {A} (e : exn) : result A := inl e.
Definition ok {A} (x : A) : result A := inr x.

Definition bind_result {A B} (m : result A) (f : A -> result B) : result B :=
  match m with
  | inl e => inl e
  | inr x => f x
  end.

Notation "x <- m ;; k" := (bind_result m (fun x => k))
  (at level 61, m at next level, right associativity).

(** Float division [a / b]. *)
Definition py_div (a b : Q) : result Q :=
  if Qeq_bool b 0 then raise ZeroDivisionError else ok (a / b).

Fixpoint map_result {A B} (f : A -> result B) (l : list A) : result (list B) :=
  match l with
  | [] => ok []
  | x :: r => y <- f x ;; ys <- map_result f r ;; ok (y :: ys)
  end.

(** ** Key levels and their confidence (LevelComposer) *)

Record KeyLevel := mkKeyLevel {
  name : string;
  value : Q;
  distance_to_spot : Q;
  confidence : Q
}.

Definition calculate_distance_to_spot (level spot_price : Q) : result Q :=
  r <- py_div (level - spot_price) spot_price ;;
  ok (r * 100).

Definition calculate_confidence (base_confidence distance_pct : Q) : Q :=
  let distance_factor := py_max (1#10) (1 - Qabs distance_pct / 100) in
  py_min 1 (base_confidence * distance_factor).

Definition confidence_map : dict string Q :=
  [ ("1D Max", 8#10); ("1D Min", 7#10); ("HVL", 6#10);
    ("Call Resistance", 5#10); ("Put Support", 4#10);
    ("Call Resistance 0DTE", 7#10); ("Put Support 0DTE", 8#10);
    ("Call Resistance 1W", 5#10); ("Put Support 1W", 4#10);
    ("Call Resistance 1M", 4#10); ("Put Support 1M", 1#10);
    ("Gamma Wall (Short Gamma)", 6#10); ("Gamma Wall (Long Gamma)", 6#10);
    ("HVS", 5#10); ("Max Pain Flow", 4#10);
    ("Call Flow Resistance", 4#10); ("Put Flow Support", 4#10);
    ("VWAS", 3#10) ]%string.

(** The truth value of a float: [level_price and level_price > 0]. *)
Definition positive_level (p : Q) : bool :=
  negb (Qeq_bool p 0) && Qlt_bool 0 p.

Definition make_key_level (spot_price : Q) (entry : string * Q) : result KeyLevel :=
  let (level_name, level_price) := entry in
  distance <- calculate_distance_to_spot level_price spot_price ;;
  let base_conf := dict_get_default String.eqb confidence_map level_name (3#10) in
  let confidence := calculate_confidence base_conf distance in
  ok (mkKeyLevel level_name level_price distance confidence).

(** The last loop of [generate_key_levels] and the final sort. *)
Definition compose_key_levels (all_levels : dict string Q) (spot_price : Q)
  : result (list KeyLevel) :=
  key_levels <-
    map_result (make_key_level spot_price)
               (filter (fun e => positive_level (snd e)) all_levels) ;;
  ok (sort_key (fun x => Qabs (distance_to_spot x)) key_levels).

(** ** Dates and the clock *)

(** A UTC [datetime]: the calendar date and the microseconds elapsed since
    midnight (hour, minute, second and microsecond together). *)
Record datetime := mkDatetime {
  dt_year : Z;
  dt_month : Z;
  dt_day : Z;
  dt_tod : Z
}.

Module Calendar.
Local Open Scope Z_scope.

Definition is_leap (y : Z) : bool :=
  (y mod 4 =? 0) && (negb (y mod 100 =? 0) || (y mod 400 =? 0)).

Definition days_before_year (year : Z) : Z :=
  let y := year - 1 in
  y * 365 + y / 4 - y / 100 + y / 400.

Definition DAYS_IN_MONTH : list Z :=
  [-1; 31; 28; 31; 30; 31; 30; 31; 31; 30; 31; 30; 31].

Definition DAYS_BEFORE_MONTH : list Z :=
  [-1; 0; 31; 59; 90; 120; 151; 181; 212; 243; 273; 304; 334].

Definition days_in_month (year month : Z) : Z :=
  if (month =? 2) && is_leap year then 29
  else nth (Z.to_nat month) DAYS_IN_MONTH (-1).

Definition days_before_month (year month : Z) : Z :=
  nth (Z.to_nat month) DAYS_BEFORE_MONTH (-1)
  + (if (2 <? month) && is_leap year then 1 else 0).

(** Proleptic Gregorian ordinal: 1 January of year 1 is day 1. *)
Definition ymd2ord (year month day : Z) : Z :=
  days_before_year year + days_before_month year month + day.

Definition DI400Y : Z := 146097.
Definition DI100Y : Z := 36524.
Definition DI4Y : Z := 1461.

Definition ord2ymd (n0 : Z) : Z * Z * Z :=
  let n := n0 - 1 in
  let n400 := n / DI400Y in
  let n := n mod DI400Y in
  let year := n400 * 400 + 1 in
  let n100 := n / DI100Y in
  let n := n mod DI100Y in
  let n4 := n / DI4Y in
  let n := n mod DI4Y in
  let n1 := n / 365 in
  let n := n mod 365 in
  let year := year + n100 * 100 + n4 * 4 + n1 in
  if (n1 =? 4) || (n100 =? 4) then (year - 1, 12, 31)
  else
    let leapyear := (n1 =? 3) && (negb (n4 =? 24) || (n100 =? 3)) in
    let month := Z.shiftr (n + 50) 5 in
    let preceding :=
      nth (Z.to_nat month) DAYS_BEFORE_MONTH (-1)
      + (if (2 <? month) && leapyear then 1 else 0) in
    if n <? preceding then
      let month := month - 1 in
      let preceding :=
        preceding - (nth (Z.to_nat month) DAYS_IN_MONTH (-1)
                     + (if (month =? 2) && leapyear then 1 else 0)) in
      (year, month, n - preceding + 1)
    else (year, month, n - preceding + 1).

Definition US_PER_DAY : Z := 86400 * 1000000.

Definition toordinal (d : datetime) : Z :=
  ymd2ord (dt_year d) (dt_month d) (dt_day d).

(** [d.weekday()]: Monday is 0. *)
Definition weekday (d : datetime) : Z := (toordinal d + 6) mod 7.

(** [d.date()] *)
Definition date (d : datetime) : Z * Z * Z :=
  (dt_year d, dt_month d, dt_day d).

(** [d + timedelta(days=k)] *)
Definition add_days (d : datetime) (k : Z) : datetime :=
  let '(y, m, dd) := ord2ymd (toordinal d + k) in
  mkDatetime y m dd (dt_tod d).

(** [d.replace(hour=h, minute=0, second=0, microsecond=0)] *)
Definition replace_hour (d : datetime) (h : Z) : datetime :=
  mkDatetime (dt_year d) (dt_month d) (dt_day d) (h * 3600 * 1000000).

(** [a - b] for two UTC datetimes, as a whole number of microseconds. *)
Definition sub_us (a b : datetime) : Z :=
  (toordinal a - toordinal b) * US_PER_DAY + (dt_tod a - dt_tod b).

(** [(a - b).days]: a [timedelta] is normalised with its seconds and
    microseconds non-negative, so the days are the floor. *)
Definition sub_days (a b : datetime) : Z := sub_us a b / US_PER_DAY.

Definition date_eqb (a b : Z * Z * Z) : bool :=
  let '(y1, m1, d1) := a in
  let '(y2, m2, d2) := b in
  (y1 =? y2) && (m1 =? m2) && (d1 =? d2).

Definition epoch : datetime := mkDatetime 1970 1 1 0.

Definition string_of_Z (z : Z) : string := NilEmpty.string_of_int (Z.to_int z).

(** [datetime.fromtimestamp(seconds, tz=timezone.utc)].  The seconds are
    rounded to the microsecond, ties to even.  It raises [OverflowError]
    when the whole seconds are beyond a 64-bit [time_t], [OSError] when the
    years since 1900 do not fit the C [int] of [gmtime], and [ValueError]
    when the year, held in a C [int], is not one of 1 to 9999. *)
Definition fromtimestamp (seconds : Q) : result datetime :=
  let us := py_round (seconds * 1000000)%Q in
  let whole := us / 1000000 in
  if (whole <? - 2 ^ 63) || (2 ^ 63 <? whole) then raise OverflowError
  else
    let '(y, m, d) := ord2ymd (toordinal epoch + us / US_PER_DAY) in
    if (y - 1900 <? - 2 ^ 31) || (2 ^ 31 <=? y - 1900) then raise OSError
    else
      let year := if 2 ^ 31 <=? y then y - 2 ^ 32 else y in
      if (year <? 1) || (9999 <? year) then
        raise (ValueError ("year " ++ string_of_Z year ++ " is out of range")%string)
      else ok (mkDatetime year m d (us mod US_PER_DAY)).

End Calendar.

(** [d.timestamp() * 1000]: milliseconds since the epoch. *)
Definition timestamp_ms (d : datetime) : Q :=
  inject_Z (Calendar.sub_us d Calendar.epoch) / 1000.

(** A computation that may read the clock: it receives the clock and the
    number of readings made so far and returns the new count. *)
Definition Clocked (A : Type) : Type := (nat -> datetime) -> nat -> A * nat.

Definition ret {A} (x : A) : Clocked A := fun _ t => (x, t).

Definition bind {A B} (m : Clocked A) (f : A -> Clocked B) : Clocked B :=
  fun clock t => let (x, t') := m clock t in f x clock t'.

(** [datetime.now(timezone.utc)] *)
Definition now : Clocked datetime := fun clock t => (clock t, S t).

Notation "x <~ m ;; k" := (bind m (fun x => k))
  (at level 61, m at next level, right associativity).

Fixpoint foldM {A S} (f : S -> A -> Clocked S) (l : list A) (s : S) : Clocked S :=
  match l with
  | [] => ret s
  | x :: r => s' <~ f s x ;; foldM f r s'
  end.

(** ** Strings: [str.split], [float] and [datetime.strptime] *)

Module PyStr.
Local Open Scope string_scope.

(** [s.split(sep)] for a one-character separator. *)
Fixpoint split_on (sep : ascii) (s : string) : list string :=
  match s with
  | EmptyString => [EmptyString]
  | String c r =>
      if Ascii.eqb c sep then EmptyString :: split_on sep r
      else match split_on sep r with
           | [] => [String c EmptyString]
           | p :: ps => String c p :: ps
           end
  end.

Definition is_digit (c : ascii) : bool :=
  let n := N_of_ascii c in (48 <=? n)%N && (n <=? 57)%N.

Definition digit_val (c : ascii) : Z := Z.of_N (N_of_ascii c) - 48.

(** The value of a string of ASCII digits ([None] on any other
    character); the empty string counts 0. *)
Definition digits_N (s : string) : option N :=
  option_map N.of_uint (NilEmpty.uint_of_string s).

Definition lower (c : ascii) : ascii :=
  let n := N_of_ascii c in
  if (65 <=? n)%N && (n <=? 90)%N then ascii_of_N (n + 32) else c.

Fixpoint map_string (f : ascii -> ascii) (s : string) : string :=
  match s with
  | EmptyString => EmptyString
  | String c r => String (f c) (map_string f r)
  end.

(** The white space that [float] strips at both ends. *)
Definition is_space (c : ascii) : bool :=
  let n := N_of_ascii c in (n =? 32)%N || ((9 <=? n)%N && (n <=? 13)%N).

(** What [float] makes of a code point before it reads the number: a code
    point below 127 stays, the two others that [str] counts as white space
    (133 and 160) become a blank, and any other becomes a question mark,
    which no number has. *)
Definition to_ascii (c : ascii) : ascii :=
  let n := N_of_ascii c in
  if (n <? 127)%N then c
  else if (n =? 133)%N || (n =? 160)%N then " "%char else "?"%char.

(** An underscore is accepted between two digits only, and is dropped. *)
Fixpoint drop_underscores (prev : ascii) (s : string) : option string :=
  match s with
  | EmptyString => if Ascii.eqb prev "_" then None else Some EmptyString
  | String c r =>
      if Ascii.eqb c "_" then
        if is_digit prev then drop_underscores c r else None
      else if Ascii.eqb prev "_" && negb (is_digit c) then None
      else option_map (String c) (drop_underscores c r)
  end.

Fixpoint lstrip (s : string) : string :=
  match s with
  | EmptyString => EmptyString
  | String c r => if is_space c then lstrip r else s
  end.

Fixpoint rstrip (s : string) : string :=
  match s with
  | EmptyString => EmptyString
  | String c r =>
      match rstrip r with
      | EmptyString => if is_space c then EmptyString else String c EmptyString
      | r' => String c r'
      end
  end.

(** An optional sign: [true] for a minus. *)
Definition split_sign (s : string) : bool * string :=
  match s with
  | String "-" r => (true, r)
  | String "+" r => (false, r)
  | _ => (false, s)
  end.

(** The mantissa: digits with an optional point, and a digit on one side
    of it at least. *)
Definition unsigned_float (s : string) : option Q :=
  match split_on "." s with
  | [i] =>
      if (String.length i =? 0)%nat then None
      else option_map (fun n => inject_Z (Z.of_N n)) (digits_N i)
  | [i; f] =>
      if ((String.length i =? 0) && (String.length f =? 0))%nat then None
      else
        match digits_N i, digits_N f with
        | Some a, Some b =>
            Some (inject_Z (Z.of_N a)
                  + inject_Z (Z.of_N b) / inject_Z (10 ^ Z.of_nat (String.length f)))
        | _, _ => None
        end
  | _ => None
  end.

(** The literal up to its first [e] or [E], and what follows it. *)
Fixpoint split_exponent (s : string) : string * option string :=
  match s with
  | EmptyString => (EmptyString, None)
  | String c r =>
      if Ascii.eqb c "e" || Ascii.eqb c "E" then (EmptyString, Some r)
      else let (m, e) := split_exponent r in (String c m, e)
  end.

(** The exponent: an optional sign and one digit at least. *)
Definition exponent_of (s : string) : option Z :=
  let (neg, digits) := split_sign s in
  if (String.length digits =? 0)%nat then None
  else option_map (fun n => if neg then (- Z.of_N n)%Z else Z.of_N n)
                  (digits_N digits).

Definition scale (m : Q) (e : Z) : Q :=
  if (0 <=? e)%Z then m * inject_Z (10 ^ e) else m / inject_Z (10 ^ (- e)).

(** A literal of this size or more rounds to an infinity, and one of that
    size or less to 0. *)
Definition FLOAT_OVERFLOW : Q := inject_Z (2 ^ 1024 - 2 ^ 970).
Definition FLOAT_UNDERFLOW : Q := 1 / inject_Z (2 ^ 1075).

(** What [float] returns: a number, or an infinity or NaN. *)
Inductive float_value :=
| Finite (q : Q)
| NonFinite.

Definition in_float_range (v : Q) : float_value :=
  if Qle_bool FLOAT_OVERFLOW (Qabs v) then NonFinite
  else if Qle_bool (Qabs v) FLOAT_UNDERFLOW then Finite 0
  else Finite v.

(** [float(s)]; [None] is its [ValueError].  After the underscores and the
    surrounding white space, the literal is a sign and then [inf],
    [infinity] or [nan] in any case, or digits with an optional point and
    an optional exponent. *)
Definition float_of_string (s : string) : option float_value :=
  match drop_underscores zero (map_string to_ascii s) with
  | None => None
  | Some s =>
      let (neg, body) := split_sign (rstrip (lstrip s)) in
      let name := map_string lower body in
      if (name =? "inf") || (name =? "infinity") || (name =? "nan")
      then Some NonFinite
      else
        let (mantissa, exponent) := split_exponent body in
        match unsigned_float mantissa with
        | None => None
        | Some m =>
            match exponent with
            | None => Some (in_float_range (if neg then - m else m))
            | Some e =>
                option_map
                  (fun e => in_float_range
                              (if neg then - scale m e else scale m e))
                  (exponent_of e)
            end
        end
  end.

(** [float(s)] where it is a number or an error.  An infinity or NaN has
    no rational: such a literal is read here like an error, and the
    properties that depend on a name being skipped assume that its strike
    is not one ([finite_literal]). *)
Definition py_float (s : string) : option Q :=
  match float_of_string s with
  | Some (Finite q) => Some q
  | _ => None
  end.

Definition finite_literal (s : string) : bool :=
  match float_of_string s with
  | Some NonFinite => false
  | _ => true
  end.

(** [%b], matched without regard to case. *)
Definition month_of_abbrev (a b c : ascii) : option Z :=
  let s := String (lower a) (String (lower b) (String (lower c) EmptyString)) in
  if s =? "jan" then Some 1%Z else if s =? "feb" then Some 2%Z
  else if s =? "mar" then Some 3%Z else if s =? "apr" then Some 4%Z
  else if s =? "may" then Some 5%Z else if s =? "jun" then Some 6%Z
  else if s =? "jul" then Some 7%Z else if s =? "aug" then Some 8%Z
  else if s =? "sep" then Some 9%Z else if s =? "oct" then Some 10%Z
  else if s =? "nov" then Some 11%Z else if s =? "dec" then Some 12%Z
  else None.

(** [%d] on two characters: [3[0-1]|[1-2]\d|0[1-9]| [1-9]]. *)
Definition day_of_2 (a b : ascii) : option Z :=
  if Ascii.eqb a "3" then
    if Ascii.eqb b "0" || Ascii.eqb b "1" then Some (30 + digit_val b)%Z else None
  else if Ascii.eqb a "1" || Ascii.eqb a "2" then
    if is_digit b then Some (10 * digit_val a + digit_val b)%Z else None
  else if Ascii.eqb a "0" || Ascii.eqb a " " then
    if is_digit b && negb (Ascii.eqb b "0") then Some (digit_val b) else None
  else None.

(** [%d] on one character: [[1-9]]. *)
Definition day_of_1 (a : ascii) : option Z :=
  if is_digit a && negb (Ascii.eqb a "0") then Some (digit_val a) else None.

(** [%y]: two digits, 00-68 in the 2000s and 69-99 in the 1900s. *)
Definition year_of_2 (a b : ascii) : option Z :=
  if is_digit a && is_digit b then
    let y := (10 * digit_val a + digit_val b)%Z in
    Some (if (y <=? 68)%Z then 2000 + y else 1900 + y)%Z
  else None.

(** The date of the three fields, when the day exists in the month. *)
Definition make_date (d m y : option Z) : option datetime :=
  match d, m, y with
  | Some d, Some m, Some y =>
      if (d <=? Calendar.days_in_month y m)%Z
      then Some (mkDatetime y m d 0) else None
  | _, _, _ => None
  end.

(** [datetime.strptime(s, "%d%b%y")]: the month has three letters and the
    year two digits, so the length of [s] decides how many characters the
    day takes. *)
Definition strptime_dby (s : string) : option datetime :=
  match s with
  | String d1 (String d2 (String m1 (String m2 (String m3
      (String y1 (String y2 EmptyString)))))) =>
      make_date (day_of_2 d1 d2) (month_of_abbrev m1 m2 m3) (year_of_2 y1 y2)
  | String d1 (String m1 (String m2 (String m3
      (String y1 (String y2 EmptyString))))) =>
      make_date (day_of_1 d1) (month_of_abbrev m1 m2 m3) (year_of_2 y1 y2)
  | _ => None
  end.

End PyStr.
Export PyStr.

(** ** Instruments *)

(** What [parse_instrument_name] returns when it does not return [{}]. *)
Record ParsedName := mkParsedName {
  p_currency : string;
  p_expiry_date : datetime;
  p_strike : Q;
  p_option_type : string;
  p_is_call : bool;
  p_is_put : bool
}.

Definition parse_instrument_name (instrument_name : string) : option ParsedName :=
  match split_on "-" instrument_name with
  | [currency; expiry_str; strike_str; option_type] =>
      match py_float strike_str with
      | None => None
      | Some strike =>
          match strptime_dby expiry_str with
          | None => None
          | Some expiry_date =>
              Some (mkParsedName currency expiry_date strike option_type
                                 (String.eqb option_type "C")
                                 (String.eqb option_type "P"))
          end
      end
  | _ => None
  end.

(** An entry of the book summary as the exchange sends it. *)
Record Summary := mkSummary {
  s_instrument_name : string;
  s_open_interest : Q;
  s_volume : Q;
  s_mark_iv : Q
}.

(** An instrument of the analysis.  An entry enhanced by
    [fetch_instruments_summary] has every field of its parsed name; any
    other entry has no [expiry_date]. *)
Record Instrument := mkInstrument {
  instrument_name : string;
  currency : string;
  expiry_date : option datetime;
  strike : Q;
  option_type : string;
  is_call : bool;
  is_put : bool;
  open_interest : Q;
  volume : Q;
  mark_iv : Q
}.

Definition enhance (s : Summary) (p : ParsedName) : Instrument :=
  mkInstrument (s_instrument_name s) (p_currency p) (Some (p_expiry_date p))
               (p_strike p) (p_option_type p) (p_is_call p) (p_is_put p)
               (s_open_interest s) (s_volume s) (s_mark_iv s).

(** The loop of [fetch_instruments_summary] over the fetched entries:
    an entry whose name does not parse is left out. *)
Definition enhance_instruments (data : list Summary) : list Instrument :=
  fold_left
    (fun enhanced instrument =>
       match parse_instrument_name (s_instrument_name instrument) with
       | Some parsed => enhanced ++ [enhance instrument parsed]
       | None => enhanced
       end)
    data [].

(** ** Timeframe classification (InstrumentClassifier) *)

Section Classifier.
Import Calendar.
Local Open Scope Z_scope.

Definition is_0dte (expiry_date : option datetime) : Clocked bool :=
  match expiry_date with
  | None => ret false
  | Some expiry_date =>
      now_ <~ now ;;
      let expiry_utc_8am := replace_hour expiry_date 8 in
      (* total_seconds(), compared in microseconds *)
      let time_diff := sub_us expiry_utc_8am now_ in
      ret ((0 <? time_diff) && (time_diff <=? 24 * 3600 * 1000000))
  end.

Definition is_current_weekly_monthly (expiry_date : option datetime)
  : Clocked bool :=
  match expiry_date with
  | None => ret false
  | Some expiry_date =>
      now_ <~ now ;;
      let days_until_friday := (4 - weekday now_) mod 7 in
      let days_until_friday :=
        if days_until_friday =? 0 then 7 else days_until_friday in
      let next_friday := add_days now_ days_until_friday in
      ret (date_eqb (date expiry_date) (date next_friday))
  end.

Definition is_1w_expiry (expiry_date : option datetime) : Clocked bool :=
  match expiry_date with
  | None => ret false
  | Some expiry_date =>
      now_ <~ now ;;
      let days_diff := sub_days expiry_date now_ in
      ret ((5 <=? days_diff) && (days_diff <=? 12))
  end.

Definition is_1m_expiry (expiry_date : option datetime) : Clocked bool :=
  match expiry_date with
  | None => ret false
  | Some expiry_date =>
      now_ <~ now ;;
      let days_diff := sub_days expiry_date now_ in
      ret ((20 <=? days_diff) && (days_diff <=? 40))
  end.

End Classifier.

(** The four lists of [calculate_option_levels]. *)
Record Groups := mkGroups {
  current_instruments : list Instrument;
  dte0_instruments : list Instrument;
  week1_instruments : list Instrument;
  month1_instruments : list Instrument
}.

Definition no_groups : Groups := mkGroups [] [] [] [].

Definition append_current (g : Groups) (i : Instrument) : Groups :=
  mkGroups (current_instruments g ++ [i]) (dte0_instruments g)
           (week1_instruments g) (month1_instruments g).
Definition append_dte0 (g : Groups) (i : Instrument) : Groups :=
  mkGroups (current_instruments g) (dte0_instruments g ++ [i])
           (week1_instruments g) (month1_instruments g).
Definition append_week1 (g : Groups) (i : Instrument) : Groups :=
  mkGroups (current_instruments g) (dte0_instruments g)
           (week1_instruments g ++ [i]) (month1_instruments g).
Definition append_month1 (g : Groups) (i : Instrument) : Groups :=
  mkGroups (current_instruments g) (dte0_instruments g)
           (week1_instruments g) (month1_instruments g ++ [i]).

(** The body of the grouping loop. *)
Definition group_instrument (g : Groups) (instrument : Instrument)
  : Clocked Groups :=
  let expiry_date := expiry_date instrument in
  match expiry_date with
  | None => ret g
  | Some _ =>
      b0 <~ is_0dte expiry_date ;;
      if b0 then ret (append_dte0 g instrument)
      else
        b1 <~ is_current_weekly_monthly expiry_date ;;
        if b1 then ret (append_current g instrument)
        else
          b2 <~ is_1w_expiry expiry_date ;;
          if b2 then ret (append_week1 g instrument)
          else
            b3 <~ is_1m_expiry expiry_date ;;
            if b3 then ret (append_month1 g instrument)
            else ret (append_current g instrument)
  end.

Definition group_instruments (instruments : list Instrument) : Clocked Groups :=
  foldM group_instrument instruments no_groups.

(** ** Volatility and bands (VolatilityEstimator, BandFilter) *)

Definition get_avg_iv (iv_list : list Q) (fallback : Q) : Q :=
  let valid_ivs := filter (fun iv => Qlt_bool 0 iv) iv_list in
  match valid_ivs with
  | [] => fallback
  | _ => np_mean valid_ivs
  end.

Definition calculate_dynamic_band (iv_pct time_to_expiry_days : Q) : Q :=
  let base_band := py_max 10 (py_min 50 (iv_pct * (3#10))) in
  let time_factor :=
    if Qle_bool time_to_expiry_days 1 then 1
    else if Qle_bool time_to_expiry_days 7 then 12#10
    else py_min 2 (1 + (time_to_expiry_days - 7) / 20) in
  base_band * time_factor.

Fixpoint fold_result {A S} (f : S -> A -> result S) (l : list A) (s : S)
  : result S :=
  match l with
  | [] => ok s
  | x :: r => s' <- f s x ;; fold_result f r s'
  end.

Definition calculate_atm_iv (spot_price : Q) (instruments_list : list Instrument)
  : result Q :=
  match instruments_list with
  | [] => ok 50
  | _ =>
      atm_ivs <-
        fold_result
          (fun atm_ivs inst =>
             m <- py_div (Qabs (strike inst - spot_price)) spot_price ;;
             if Qlt_bool m (5#100) then
               let iv := mark_iv inst in
               if Qlt_bool 0 iv then ok (atm_ivs ++ [iv]) else ok atm_ivs
             else ok atm_ivs)
          instruments_list [] ;;
      ok (get_avg_iv atm_ivs 50)
  end.

Definition filter_call_strikes (spot_price : Q) (strikes_dict : dict Q Q) (band : Q)
  : dict Q Q :=
  let filtered_items :=
    filter (fun item =>
              Qlt_bool spot_price (fst item)
              && Qle_bool (fst item) (spot_price * (1 + band / 100)))
           strikes_dict in
  dict_of_items Qeq_bool (firstn 10 (sort_key fst filtered_items)).

Definition filter_put_strikes (spot_price : Q) (strikes_dict : dict Q Q) (band : Q)
  : dict Q Q :=
  let filtered_items :=
    filter (fun item =>
              Qlt_bool (fst item) spot_price
              && Qle_bool (spot_price * (1 - band / 100)) (fst item))
           strikes_dict in
  dict_of_items Qeq_bool (firstn 10 (sort_key_rev fst filtered_items)).

(** ** Open interest per strike (OpenInterestAggregator) *)

(** The body of the aggregation loop of [process_timeframe], on the pair
    [(call_strikes, put_strikes)]. *)
Definition aggregate_oi (acc : dict Q Q * dict Q Q) (instrument : Instrument)
  : dict Q Q * dict Q Q :=
  let (call_strikes, put_strikes) := acc in
  let strike := strike instrument in
  let oi := open_interest instrument in
  if Qle_bool oi 0 then acc
  else if is_call instrument then
    (dict_set Qeq_bool call_strikes strike
              (dict_get_default Qeq_bool call_strikes strike 0 + oi),
     put_strikes)
  else
    (call_strikes,
     dict_set Qeq_bool put_strikes strike
              (dict_get_default Qeq_bool put_strikes strike 0 + oi)).

Definition level_name (base timeframe_name : string) : string :=
  (base ++ (if String.eqb timeframe_name "" then "" else " " ++ timeframe_name))%string.

Definition process_timeframe (spot_price : Q) (instruments_list : list Instrument)
  (timeframe_name : string) (band : Q)
  : dict string Q * nat * nat * Q * Q :=
  let (call_strikes, put_strikes) :=
    fold_left aggregate_oi instruments_list ([], []) in
  let filtered_calls := filter_call_strikes spot_price call_strikes band in
  let filtered_puts := filter_put_strikes spot_price put_strikes band in
  let levels : dict string Q := [] in
  let levels :=
    match max_key snd filtered_calls with
    | Some call_resistance =>
        dict_set String.eqb levels (level_name "Call Resistance" timeframe_name)
                 (fst call_resistance)
    | None => levels
    end in
  let levels :=
    match max_key snd filtered_puts with
    | Some put_support =>
        dict_set String.eqb levels (level_name "Put Support" timeframe_name)
                 (fst put_support)
    | None => levels
    end in
  (levels, List.length filtered_calls, List.length filtered_puts,
   py_sum (dict_values filtered_calls), py_sum (dict_values filtered_puts)).

Definition calc_pc_ratio (call_oi put_oi : Q) : Q :=
  if Qlt_bool 0 call_oi then put_oi / call_oi else 0.

(** ** Gamma wall *)

Definition gamma_step (spot_price : Q) (strike_gamma : dict Q Q)
  (instrument : Instrument) : result (dict Q Q) :=
  let strike := strike instrument in
  let oi := open_interest instrument in
  if Qle_bool oi 0 then ok strike_gamma
  else
    moneyness <- py_div (Qabs (spot_price - strike)) spot_price ;;
    let gamma_weight := py_max (1#10) (1 - moneyness * 5) in
    let gamma_contribution := gamma_weight * oi in
    let gamma_contribution :=
      if is_call instrument then gamma_contribution
      else gamma_contribution * (-1) in
    ok (dict_set Qeq_bool strike_gamma strike
                 (dict_get_default Qeq_bool strike_gamma strike 0
                  + gamma_contribution)).

Definition calculate_gamma_wall (instruments : list Instrument) (spot_price : Q)
  : result (dict string Q) :=
  match instruments with
  | [] => ok []
  | _ =>
      strike_gamma <- fold_result (gamma_step spot_price) instruments [] ;;
      match max_key (fun x => Qabs (snd x)) strike_gamma with
      | None => ok []
      | Some wall =>
          let gamma_wall_strike := fst wall in
          let gamma_wall_value :=
            dict_get_default Qeq_bool strike_gamma gamma_wall_strike 0 in
          let gamma_type :=
            (if Qlt_bool gamma_wall_value 0 then "Short Gamma"
             else "Long Gamma")%string in
          ok [(("Gamma Wall (" ++ gamma_type ++ ")")%string, gamma_wall_strike)]
      end
  end.

(** ** Option levels over all timeframes *)

(** [calculate_option_levels] once the instruments are grouped. *)
Definition option_levels_of_groups (g : Groups) (spot_price : Q)
  : result (dict string (dict string Q)) :=
  current_iv <- calculate_atm_iv spot_price (current_instruments g) ;;
  dte0_iv <- calculate_atm_iv spot_price (dte0_instruments g) ;;
  week1_iv <- calculate_atm_iv spot_price (week1_instruments g) ;;
  month1_iv <- calculate_atm_iv spot_price (month1_instruments g) ;;
  let current_band := calculate_dynamic_band current_iv 7 in
  let dte0_band := calculate_dynamic_band dte0_iv (1#10) in
  let week1_band := calculate_dynamic_band week1_iv 7 in
  let month1_band := calculate_dynamic_band month1_iv 30 in
  let all_levels : dict string Q := [] in
  let pc_ratios : dict string Q := [] in
  let '(current_levels, _, _, current_call_oi, current_put_oi) :=
    process_timeframe spot_price (current_instruments g) "" current_band in
  let all_levels := dict_update String.eqb all_levels current_levels in
  let pc_ratios :=
    dict_set String.eqb pc_ratios "Current"
             (calc_pc_ratio current_call_oi current_put_oi) in
  let '(dte0_levels, _, _, dte0_call_oi, dte0_put_oi) :=
    process_timeframe spot_price (dte0_instruments g) "0DTE" dte0_band in
  let all_levels := dict_update String.eqb all_levels dte0_levels in
  let pc_ratios :=
    dict_set String.eqb pc_ratios "0DTE" (calc_pc_ratio dte0_call_oi dte0_put_oi) in
  let '(week1_levels, _, _, week1_call_oi, week1_put_oi) :=
    process_timeframe spot_price (week1_instruments g) "1W" week1_band in
  let all_levels := dict_update String.eqb all_levels week1_levels in
  let pc_ratios :=
    dict_set String.eqb pc_ratios "1W" (calc_pc_ratio week1_call_oi week1_put_oi) in
  let '(month1_levels, _, _, month1_call_oi, month1_put_oi) :=
    process_timeframe spot_price (month1_instruments g) "1M" month1_band in
  let all_levels := dict_update String.eqb all_levels month1_levels in
  let pc_ratios :=
    dict_set String.eqb pc_ratios "1M"
             (calc_pc_ratio month1_call_oi month1_put_oi) in
  gamma_wall_data <- calculate_gamma_wall (dte0_instruments g) spot_price ;;
  let all_levels :=
    match gamma_wall_data with
    | [] => all_levels
    | _ => dict_update String.eqb all_levels gamma_wall_data
    end in
  ok [ ("levels"%string, all_levels);
       ("put_call_ratios"%string, pc_ratios);
       ("iv_data"%string,
        [ ("current"%string, current_iv); ("dte0"%string, dte0_iv);
          ("week1"%string, week1_iv); ("month1"%string, month1_iv) ]) ].

Definition calculate_option_levels (instruments : list Instrument) (spot_price : Q)
  : Clocked (result (dict string (dict string Q))) :=
  match instruments with
  | [] => ret (ok [])
  | _ =>
      g <~ group_instruments instruments ;;
      ret (option_levels_of_groups g spot_price)
  end.

(** ** Trades and their deduplication (TradeDeduplicator) *)

Record Trade := mkTrade {
  trade_id : option string;
  trade_instrument_name : string;
  price : Q;
  amount : Q;
  direction : string;
  timestamp : Q
}.

(** The deduplication loop over one chunk: [if trade_id and trade_id not in
    unique_trades]. *)
Definition dedupe_trade (unique_trades : dict string Trade) (trade : Trade)
  : dict string Trade :=
  match trade_id trade with
  | Some id =>
      if negb (String.eqb id "") && negb (dict_mem String.eqb unique_trades id)
      then dict_set String.eqb unique_trades id trade
      else unique_trades
  | None => unique_trades
  end.

(** [unique_trades] after all the chunks, given what each chunk fetched. *)
Definition unique_trades_of (chunks : list (list Trade)) : dict string Trade :=
  fold_left (fun unique_trades chunk_trades =>
               fold_left dedupe_trade chunk_trades unique_trades)
            chunks [].

(** The coverage that the two functions print once the trades are
    collected: the hours from the first to the last positive timestamp,
    [None] when there is none.  [datetime.fromtimestamp] raises on a
    timestamp beyond the year 9999, and nothing catches it. *)
Definition coverage_hours (all_trades : list Trade) : result (option Q) :=
  match all_trades with
  | [] => ok None
  | _ =>
      let timestamps :=
        map timestamp (filter (fun trade => Qlt_bool 0 (timestamp trade)) all_trades) in
      match sort_by Qle_bool timestamps with
      | [] => ok None
      | (first :: _) as timestamps =>
          first_trade <- Calendar.fromtimestamp (first / 1000) ;;
          last_trade <- Calendar.fromtimestamp (last timestamps 0 / 1000) ;;
          ok (Some (inject_Z (Calendar.sub_us last_trade first_trade)
                    / 1000000 / 3600))
      end
  end.

(** What [fetch_complete_options_trades] and [fetch_complete_futures_trades]
    return, given what each chunk fetched: the two functions run the same
    loop and the same report. *)
Definition fetch_complete_options_trades (chunks : list (list Trade))
  : result (list Trade) :=
  let all_trades := dict_values (unique_trades_of chunks) in
  _ <- coverage_hours all_trades ;;
  ok all_trades.

Definition fetch_complete_futures_trades (chunks : list (list Trade))
  : result (list Trade) :=
  let all_trades := dict_values (unique_trades_of chunks) in
  _ <- coverage_hours all_trades ;;
  ok all_trades.

(** ** Volume profile (VolumeProfiler) *)

Definition volume_step (price_levels : dict Q Q) (trade : Trade) : dict Q Q :=
  let price := price trade in
  let amount := amount trade in
  if Qle_bool price 0 || Qle_bool amount 0 then price_levels
  else
    let level :=
      if Qlt_bool 1000 price then inject_Z (py_round (price / 10) * 10)
      else inject_Z (py_round (price * 10)) / 10 in
    let price_levels :=
      if dict_mem Qeq_bool price_levels level then price_levels
      else dict_set Qeq_bool price_levels level 0 in
    dict_set Qeq_bool price_levels level
             (dict_get_default Qeq_bool price_levels level 0 + amount).

(** One returned entry: [{"level": ..., "price": ..., "volume": ...}]. *)
Record VolumeLevel := mkVolumeLevel {
  vl_level : string;
  vl_price : Q;
  vl_volume : Q
}.

Definition calculate_volume_profile_levels (trades : list Trade) (spot_price : Q)
  : list VolumeLevel :=
  match trades with
  | [] => []
  | _ =>
      let price_levels := fold_left volume_step trades [] in
      match max_key snd price_levels with
      | None => []
      | Some best =>
          let hvl_price := fst best in
          [mkVolumeLevel "HVL" hvl_price
                         (dict_get_default Qeq_bool price_levels hvl_price 0)]
      end
  end.

Definition calculate_1d_levels (stats_24h : dict string Q) : Q * Q :=
  (dict_get_default String.eqb stats_24h "high_24h" 0,
   dict_get_default String.eqb stats_24h "low_24h" 0).

(** ** Options flow (FlowAnalyzer) *)

Definition calculate_delta_simple (spot_price strike time_to_expiry : Q)
  (is_call : bool) : result Q :=
  if Qle_bool time_to_expiry 0 then
    ok (if (is_call && Qlt_bool strike spot_price)
           || (negb is_call && Qlt_bool spot_price strike)
        then 1 else 0)
  else
    moneyness <- py_div spot_price strike ;;
    if is_call then
      ok (py_max (5#100) (py_min (95#100) ((5#10) + (4#10) * (moneyness - 1))))
    else
      ok (py_max (5#100) (py_min (95#100) ((5#10) - (4#10) * (moneyness - 1)))).

(** The per-strike accumulator of [analyze_complete_options_flow]. *)
Record StrikeFlow := mkStrikeFlow {
  total_volume : Q;
  net_flow : Q;
  call_volume : Q;
  put_volume : Q;
  weighted_flow : Q
}.

(** The lexicographic order of Python on pairs of floats. *)
Definition pair_leb (a b : Q * Q) : bool :=
  Qlt_bool (fst a) (fst b)
  || (Qeq_bool (fst a) (fst b) && Qle_bool (snd a) (snd b)).

Section Flow.

(** The values of the exponential, a library function on floats. *)
Variable py_exp : Q -> Q.

(** [math.exp(x)]: it raises [OverflowError] above the greatest float whose
    exponential is a float, 0x1.62e42fefa39efp+9. *)
Definition EXP_MAX : Q := 6243314768165359 # 8796093022208.

Definition math_exp (x : Q) : result Q :=
  if Qlt_bool EXP_MAX x then raise OverflowError else ok (py_exp x).

(** The body of the loop over the trades, on the pair
    [(strike_flow, total_volume)].  Whatever the body raises is caught and
    the loop goes on; what it had already assigned stays assigned. *)
Definition flow_step (spot_price : Q) (st : dict Q StrikeFlow * Q) (trade : Trade)
  : Clocked (dict Q StrikeFlow * Q) :=
  let (strike_flow, total_volume_) := st in
  let instrument := trade_instrument_name trade in
  if String.eqb instrument "" then ret st
  else
    let parts := split_on "-" instrument in
    if (List.length parts <? 4)%nat then ret st
    else
      (* float(parts[2]): a ValueError is caught; a strike that is an
         infinity or NaN is left out of the model *)
      match py_float (nth 2 parts "") with
      | None => ret st
      | Some strike =>
          let option_type := nth 3 parts "" in
          let amount := amount trade in
          let price := price trade in
          let direction := direction trade in
          let timestamp := timestamp trade in
          if Qle_bool amount 0 || Qle_bool price 0 then ret st
          else
            let notional := amount * price * spot_price in
            let total_volume_ := total_volume_ + notional in
            now_ <~ now ;;
            let now_timestamp := timestamp_ms now_ in
            let hours_ago :=
              (now_timestamp - timestamp) / (1000 * 60 * 60) in
            match
              time_weight <- math_exp (- hours_ago / 12) ;;
              let is_call := String.eqb option_type "C" in
              delta <- calculate_delta_simple spot_price strike (1 / 365) is_call ;;
              ok (time_weight, is_call, delta)
            with
            | inl _ => ret (strike_flow, total_volume_)
            | inr (time_weight, is_call, delta) =>
                let delta_exposure := notional * delta in
                let flow_direction :=
                  if String.eqb direction "buy" then 1 else -1 in
                let strike_flow :=
                  if dict_mem Qeq_bool strike_flow strike then strike_flow
                  else dict_set Qeq_bool strike_flow strike
                                (mkStrikeFlow 0 0 0 0 0) in
                let data :=
                  dict_get_default Qeq_bool strike_flow strike
                                   (mkStrikeFlow 0 0 0 0 0) in
                let data :=
                  mkStrikeFlow
                    (total_volume data + notional)
                    (net_flow data + delta_exposure * flow_direction)
                    (if is_call then call_volume data + notional
                     else call_volume data)
                    (if is_call then put_volume data
                     else put_volume data + notional)
                    (weighted_flow data
                     + delta_exposure * flow_direction * time_weight) in
                ret (dict_set Qeq_bool strike_flow strike data, total_volume_)
            end
      end.

(** The levels read off the accumulated flow. *)
Definition flow_levels_of (spot_price : Q) (strike_flow : dict Q StrikeFlow)
  (total_volume_ : Q) : dict string Q :=
  match max_key (fun x => total_volume (snd x)) strike_flow with
  | None => []
  | Some hvs =>
      let levels : dict string Q := [] in
      let levels := dict_set String.eqb levels "HVS" (fst hvs) in
      let balanced_strikes :=
        map (fun x =>
               let data := snd x in
               (fst x,
                (py_min (call_volume data) (put_volume data)
                 / py_max (call_volume data) (put_volume data),
                 total_volume data)))
            (filter (fun x => Qlt_bool 0 (call_volume (snd x))
                              && Qlt_bool 0 (put_volume (snd x)))
                    strike_flow) in
      let levels :=
        match sort_by (fun x y => pair_leb (snd y) (snd x)) balanced_strikes with
        | [] => levels
        | first :: _ => dict_set String.eqb levels "Max Pain Flow" (fst first)
        end in
      let call_resistance :=
        map (fun x => (fst x, weighted_flow (snd x)))
            (filter (fun x => Qlt_bool spot_price (fst x)
                              && Qlt_bool (put_volume (snd x))
                                          (call_volume (snd x)))
                    strike_flow) in
      let levels :=
        match sort_key_rev snd call_resistance with
        | [] => levels
        | first :: _ =>
            dict_set String.eqb levels "Call Flow Resistance" (fst first)
        end in
      let put_support :=
        map (fun x => (fst x, Qabs (weighted_flow (snd x))))
            (filter (fun x => Qlt_bool (fst x) spot_price
                              && Qlt_bool (call_volume (snd x))
                                          (put_volume (snd x)))
                    strike_flow) in
      let levels :=
        match sort_key_rev snd put_support with
        | [] => levels
        | first :: _ => dict_set String.eqb levels "Put Flow Support" (fst first)
        end in
      if Qlt_bool 0 total_volume_ then
        let vwas :=
          py_sum (map (fun x => fst x * total_volume (snd x)) strike_flow)
          / total_volume_ in
        dict_set String.eqb levels "VWAS" vwas
      else levels
  end.

Definition analyze_complete_options_flow (trades : list Trade) (spot_price : Q)
  : Clocked (dict string Q) :=
  match trades with
  | [] => ret []
  | _ =>
      st <~ foldM (flow_step spot_price) trades ([], 0) ;;
      ret (flow_levels_of spot_price (fst st) (snd st))
  end.

(** ** The whole analysis *)

(** What the retrieval layer hands to the engine for one currency. *)
Record Fetched := mkFetched {
  index_price : option Q;
  stats_24h : dict string Q;
  book_summary : list Summary;
  futures_chunks : list (list Trade);
  options_chunks : list (list Trade)
}.

Record Metadata := mkMetadata {
  md_currency : string;
  md_spot_price : Q;
  md_put_call_ratios : dict string Q;
  md_iv_data : dict string Q;
  md_instruments_analyzed : nat;
  md_futures_trades : nat;
  md_options_trades : nat
}.

(** [fetch_index_price]: [result.get("index_price", 0)]. *)
Definition fetch_index_price (f : Fetched) : Q :=
  match index_price f with
  | Some p => p
  | None => 0
  end.

Definition generate_key_levels (currency_ : string) (f : Fetched)
  : Clocked (result (list KeyLevel * Metadata)) :=
  let spot_price := fetch_index_price f in
  if Qle_bool spot_price 0 then
    ret (raise (ValueError ("Failed to fetch spot price for " ++ currency_)%string))
  else
    let stats := stats_24h f in
    let instruments := enhance_instruments (book_summary f) in
    (* asyncio.gather: a retrieval that raises ends the analysis; when both
       raise, the code reports the first to fail and the model the one
       named first *)
    match fetch_complete_futures_trades (futures_chunks f),
          fetch_complete_options_trades (options_chunks f) with
    | inl e, _ => ret (raise e)
    | _, inl e => ret (raise e)
    | inr futures_trades, inr options_trades =>
    let (max_24h, min_24h) := calculate_1d_levels stats in
    let hvl_levels := calculate_volume_profile_levels futures_trades spot_price in
    option_analysis <~ calculate_option_levels instruments spot_price ;;
    match option_analysis with
    | inl e => ret (raise e)
    | inr option_analysis =>
        flow_levels <~ analyze_complete_options_flow options_trades spot_price ;;
        let all_levels : dict string Q := [] in
        let all_levels :=
          if Qlt_bool 0 max_24h
          then dict_set String.eqb all_levels "1D Max" max_24h else all_levels in
        let all_levels :=
          if Qlt_bool 0 min_24h
          then dict_set String.eqb all_levels "1D Min" min_24h else all_levels in
        let all_levels :=
          fold_left (fun acc hvl => dict_set String.eqb acc (vl_level hvl) (vl_price hvl))
                    hvl_levels all_levels in
        let all_levels :=
          dict_update String.eqb all_levels
                      (dict_get_default String.eqb option_analysis "levels" []) in
        let all_levels := dict_update String.eqb all_levels flow_levels in
        ret (key_levels <- compose_key_levels all_levels spot_price ;;
             ok (key_levels,
                 mkMetadata currency_ spot_price
                   (dict_get_default String.eqb option_analysis "put_call_ratios" [])
                   (dict_get_default String.eqb option_analysis "iv_data" [])
                   (List.length instruments)
                   (List.length futures_trades)
                   (List.length options_trades)))
    end
    end.

End Flow.

(* ================================================================== *)
(** * Part II: the vocabulary of the properties                        *)
(* ================================================================== *)

(** ** Key levels *)

(** The key level of one entry of the map, when the spot price is not 0. *)
Definition key_level_of (spot_price : Q) (entry : string * Q) : KeyLevel :=
  let distance := (snd entry - spot_price) / spot_price * 100 in
  mkKeyLevel (fst entry) (snd entry) distance
    (calculate_confidence
       (dict_get_default String.eqb confidence_map (fst entry) (3#10)) distance).

(** ** The rules of the classifier, at one reading of the clock *)

Section ClassifierRules.
Import Calendar.
Local Open Scope Z_scope.

(** The four rules, at a given reading of the clock. *)
Definition zero_dte_at (now_ e : datetime) : bool :=
  (0 <? sub_us (replace_hour e 8) now_)
  && (sub_us (replace_hour e 8) now_ <=? 24 * 3600 * 1000000).

Definition days_until_friday (now_ : datetime) : Z :=
  if (4 - weekday now_) mod 7 =? 0 then 7 else (4 - weekday now_) mod 7.

Definition current_at (now_ e : datetime) : bool :=
  date_eqb (date e) (date (add_days now_ (days_until_friday now_))).

Definition one_week_at (now_ e : datetime) : bool :=
  (5 <=? sub_days e now_) && (sub_days e now_ <=? 12).

Definition one_month_at (now_ e : datetime) : bool :=
  (20 <=? sub_days e now_) && (sub_days e now_ <=? 40).

Definition has_expiry (i : Instrument) : bool :=
  match expiry_date i with Some _ => true | None => false end.

Definition all_groups (g : Groups) : list Instrument :=
  dte0_instruments g ++ current_instruments g
  ++ week1_instruments g ++ month1_instruments g.

(** The four timeframes. *)
Inductive Timeframe := TF_0DTE | TF_Current | TF_1W | TF_1M.

Definition timeframe_eqb (a b : Timeframe) : bool :=
  match a, b with
  | TF_0DTE, TF_0DTE | TF_Current, TF_Current
  | TF_1W, TF_1W | TF_1M, TF_1M => true
  | _, _ => false
  end.

(** The timeframe of an expiry when the rules are tried from the reading
    [t] of the clock on: the first rule that holds in the order 0DTE,
    Current, 1W, 1M, each at a reading of its own, and Current when none
    holds; with it, the number of readings made. *)
Definition timeframe_at (clock : nat -> datetime) (t : nat) (e : datetime)
  : Timeframe * nat :=
  if zero_dte_at (clock t) e then (TF_0DTE, 1%nat)
  else if current_at (clock (t + 1)%nat) e then (TF_Current, 2%nat)
  else if one_week_at (clock (t + 2)%nat) e then (TF_1W, 3%nat)
  else if one_month_at (clock (t + 3)%nat) e then (TF_1M, 4%nat)
  else (TF_Current, 4%nat).

(** The instruments that have an expiry date, in their order, each with
    its timeframe; an instrument is tried where the one before it left the
    clock. *)
Fixpoint classified (clock : nat -> datetime) (t : nat)
  (instruments : list Instrument) : list (Instrument * Timeframe) :=
  match instruments with
  | [] => []
  | i :: r =>
      match expiry_date i with
      | None => classified clock t r
      | Some e =>
          (i, fst (timeframe_at clock t e))
          :: classified clock (t + snd (timeframe_at clock t e))%nat r
      end
  end.

(** The instruments of one timeframe. *)
Definition in_timeframe (tf : Timeframe) (l : list (Instrument * Timeframe))
  : list Instrument :=
  map fst (filter (fun x => timeframe_eqb (snd x) tf) l).

(** The list of the groups that holds a timeframe, and the groups with
    one instrument more in it. *)
Definition group_of (tf : Timeframe) (g : Groups) : list Instrument :=
  match tf with
  | TF_0DTE => dte0_instruments g
  | TF_Current => current_instruments g
  | TF_1W => week1_instruments g
  | TF_1M => month1_instruments g
  end.

Definition append_to (tf : Timeframe) (g : Groups) (i : Instrument) : Groups :=
  match tf with
  | TF_0DTE => append_dte0 g i
  | TF_Current => append_current g i
  | TF_1W => append_week1 g i
  | TF_1M => append_month1 g i
  end.

(** The date of an ordinal has that ordinal. *)
Definition ordinal_roundtrip (n : Z) : bool :=
  let '(y, m, d) := ord2ymd n in ymd2ord y m d =? n.

Fixpoint ordinals_from (k : nat) (z : Z) : list Z :=
  match k with
  | O => []
  | S k' => z :: ordinals_from k' (z + 1)
  end.

(** The ordinals from 1 January 1969 to the first days of 2069: the dates
    that [%y] can give, and two weeks more. *)
Definition first_ordinal : Z := ymd2ord 1969 1 1.
Definition ordinal_count : Z := 36540.

Definition ordinals : list Z :=
  ordinals_from (Z.to_nat ordinal_count) first_ordinal.

(** A reading of the clock between 1969 and 2068. *)
Definition clock_in_range (now_ : datetime) : Prop :=
  first_ordinal <= toordinal now_ < first_ordinal + ordinal_count - 7.

End ClassifierRules.

(** ** Dictionaries without repeated keys *)

(** No two keys of the dictionary are equal. *)
Fixpoint dict_wf {K V : Type} (keq : K -> K -> bool) (d : dict K V) : Prop :=
  match d with
  | [] => True
  | (k, _) :: r => dict_get keq r k = None /\ dict_wf keq r
  end.

(** ** Gamma contributions *)

(** The sum of [f] over the elements of a list that satisfy [P]. *)
Fixpoint sum_where {A} (P : A -> bool) (f : A -> Q) (l : list A) : Q :=
  match l with
  | [] => 0
  | x :: r => (if P x then f x else 0) + sum_where P f r
  end.

(** The weight of an instrument, and what it contributes to the gamma of
    its strike: the weight times its open interest, negated when the
    instrument is not a call. *)
Definition gamma_weight_of (spot_price : Q) (i : Instrument) : Q :=
  Qmax (1#10) (1 - 5 * (Qabs (spot_price - strike i) / spot_price)).

Definition gamma_contribution (spot_price : Q) (i : Instrument) : Q :=
  let c := gamma_weight_of spot_price i * open_interest i in
  if is_call i then c else - c.

(** The net contribution at a strike. *)
Definition net_gamma (spot_price : Q) (l : list Instrument) (s : Q) : Q :=
  sum_where (fun i => Qeq_bool (strike i) s) (gamma_contribution spot_price) l.

(** ** Trades by identifier *)

(** The trade carries the identifier [id]. *)
Definition has_id (id : string) (t : Trade) : bool :=
  match trade_id t with
  | Some i => String.eqb i id
  | None => false
  end.

(** The first trade of a list that carries the identifier [id]. *)
Definition first_with_id (id : string) (l : list Trade) : option Trade :=
  find (has_id id) l.

(** The identifiers of a list of trades that are present and not empty. *)
Definition truthy_ids (l : list Trade) : list string :=
  flat_map (fun t => match trade_id t with
                     | Some i => if String.eqb i "" then [] else [i]
                     | None => []
                     end) l.

(** ** Notional of the trades *)

(** The strike that the flow loop reads in the name of a trade. *)
Definition trade_strike (t : Trade) : option Q :=
  let instrument := trade_instrument_name t in
  if String.eqb instrument "" then None
  else
    let parts := split_on "-" instrument in
    if (List.length parts <? 4)%nat then None
    else py_float (nth 2 parts "").

(** The strike of a trade that the loop counts: its name gives a strike and
    its amount and price are positive. *)
Definition counted_strike (t : Trade) : option Q :=
  match trade_strike t with
  | Some k => if Qle_bool (amount t) 0 || Qle_bool (price t) 0 then None else Some k
  | None => None
  end.

Definition notional (spot_price : Q) (t : Trade) : Q :=
  amount t * price t * spot_price.





(** What the loop hands to [math.exp] for a trade, at a reading of the
    clock: minus the hours since the trade, over 12. *)
Definition exp_argument (now_ : datetime) (t : Trade) : Q :=
  - ((timestamp_ms now_ - timestamp t) / (1000 * 60 * 60)) / 12.


(** The name of the trade does not give an infinity or a NaN for its
    strike. *)
Definition finite_strike (t : Trade) : bool :=
  finite_literal (nth 2 (split_on "-" (trade_instrument_name t)) "").

(** The last millisecond of the year 9999, and the trades of the fetched
    chunks stamped no later. *)
Definition MAX_TIMESTAMP : Q := 253402300799999.

Definition timestamps_in_range (chunks : list (list Trade)) : Prop :=
  forall t, In t (List.concat chunks) -> timestamp t <= MAX_TIMESTAMP.




(** ** Rebuilding an instrument name *)

Definition MONTH_ABBR : list string :=
  ["JAN"; "FEB"; "MAR"; "APR"; "MAY"; "JUN";
   "JUL"; "AUG"; "SEP"; "OCT"; "NOV"; "DEC"].

Definition digit_char (n : Z) : ascii := ascii_of_N (Z.to_N n + 48).

Definition two_digits (n : Z) : string :=
  String (digit_char (n / 10)) (String (digit_char (n mod 10)) "").

(** Modelled from the spec: the expiry of a rebuilt name, as
    [strftime("%d%b%y").upper()] writes it: day and year on two digits, the
    month in capitals. *)
Definition format_expiry (d : datetime) : string :=
  (two_digits (dt_day d)
   ++ nth (Z.to_nat (dt_month d - 1)) MONTH_ABBR ""
   ++ two_digits (dt_year d mod 100))%string.

(** Modelled from the spec: the strike of a rebuilt name, the decimal
    integer of the float. *)
Definition format_strike (k : Q) : string :=
  NilEmpty.string_of_uint (N.to_uint (Z.to_N (Qnum k / Zpos (Qden k)))).

(** Modelled from the spec: the repository has no function that rebuilds a
    name from its parsed fields.  This one writes the form
    [CCY-DDMMMYY-STRIKE-C|P] that the spec names, from the currency, the
    expiry date, the strike and the option type. *)
Definition format_instrument_name (p : ParsedName) : string :=
  (p_currency p ++ "-" ++ format_expiry (p_expiry_date p) ++ "-"
   ++ format_strike (p_strike p) ++ "-" ++ p_option_type p)%string.

Definition all_digits (s : string) : bool :=
  forallb is_digit (list_ascii_of_string s).

Definition month_index (mmm : string) : option Z :=
  (fix go (l : list string) (i : Z) : option Z :=
     match l with
     | [] => None
     | m :: r => if String.eqb m mmm then Some i else go r (i + 1)%Z
     end) MONTH_ABBR 1%Z.

(** The days of a month of the year [yy] of the century: every fourth year
    from 1969 to 2068 is a leap year. *)
Definition month_length (yy m : Z) : Z :=
  if (m =? 2)%Z then (if (yy mod 4 =? 0)%Z then 29 else 28)%Z
  else if (m =? 4)%Z || (m =? 6)%Z || (m =? 9)%Z || (m =? 11)%Z then 30%Z
  else 31%Z.

(** An expiry of the form [DDMMMYY]: a day on two digits, a month in
    capitals and a year on two digits that make a date of the calendar. *)
Definition valid_expiry_str (s : string) : bool :=
  match s with
  | String d1 (String d2 (String m1 (String m2 (String m3
      (String y1 (String y2 EmptyString)))))) =>
      is_digit d1 && is_digit d2 && is_digit y1 && is_digit y2
      && match month_index (String m1 (String m2 (String m3 ""))) with
         | Some m =>
             let day := (10 * digit_val d1 + digit_val d2)%Z in
             let yy := (10 * digit_val y1 + digit_val y2)%Z in
             (1 <=? day)%Z && (day <=? month_length yy m)%Z
         | None => false
         end
  | _ => false
  end.

(** A strike: a decimal integer without a leading zero, of at most 15
    digits (every such integer is a float). *)
Definition valid_strike_str (s : string) : bool :=
  match s with
  | EmptyString => false
  | String c _ =>
      negb (Ascii.eqb c "0") && all_digits s && (String.length s <=? 15)%nat
  end.

(** The valid names of the form [CCY-DDMMMYY-STRIKE-C|P]. *)
Definition valid_instrument_name (instrument_name : string) : bool :=
  match split_on "-" instrument_name with
  | [_; expiry_str; strike_str; option_type] =>
      valid_expiry_str expiry_str && valid_strike_str strike_str
      && (String.eqb option_type "C" || String.eqb option_type "P")
  | _ => false
  end.

Definition digit_chars : list ascii :=
  ["0"; "1"; "2"; "3"; "4"; "5"; "6"; "7"; "8"; "9"]%char.

(** Every string that [valid_expiry_str] can accept. *)
Definition expiry_candidates : list string :=
  flat_map (fun d1 =>
  flat_map (fun d2 =>
  flat_map (fun mmm =>
  flat_map (fun y1 =>
  map (fun y2 =>
         String d1 (String d2 (mmm ++ String y1 (String y2 "")))%string)
      digit_chars) digit_chars) MONTH_ABBR) digit_chars) digit_chars.

Definition expiry_roundtrip (s : string) : bool :=
  match strptime_dby s with
  | Some d => String.eqb (format_expiry d) s
  | None => false
  end.

(** [sep.join(parts)] *)
Fixpoint join_on (sep : ascii) (parts : list string) : string :=
  match parts with
  | [] => ""
  | [p] => p
  | p :: r => (p ++ String sep (join_on sep r))%string
  end.

(** ** Sample data *)

(** Wednesday 4 November 2026, 10:00 UTC. *)
Definition sample_now : datetime := mkDatetime 2026 11 4 (10 * 3600 * 1000000).

Definition sample_instrument (nm : string) (e : datetime) (k : Q) (c : bool) (oi : Q)
  : Instrument :=
  mkInstrument nm "BTC" (Some e) k (if c then "C" else "P") c (negb c) oi 0 60.

Definition sample_0dte : list Instrument :=
  let e := mkDatetime 2026 11 5 0 in
  [ sample_instrument "BTC-05NOV26-100-C" e 100 true 10;
    sample_instrument "BTC-05NOV26-95-P" e 95 false 30;
    sample_instrument "BTC-05NOV26-95-C" e 95 true 5 ].

Definition sample_trade (id : option string) (nm : string) (p a : Q) (dir : string)
  : Trade := mkTrade id nm p a dir 0.

Definition sample_chunks : list (list Trade) :=
  [ [ sample_trade (Some "a") "BTC-05NOV26-100-C" 1 1 "buy";
      sample_trade None "BTC-05NOV26-100-C" 2 1 "buy";
      sample_trade (Some "b") "BTC-05NOV26-95-P" 3 1 "sell" ];
    [ sample_trade (Some "a") "BTC-05NOV26-100-C" 4 1 "sell";
      sample_trade (Some "c") "BTC-05NOV26-95-P" 5 1 "buy" ] ].

Definition sample_fetched : Fetched :=
  mkFetched (Some 100)
            [("high_24h", 104); ("low_24h", 97)]
            [ mkSummary "BTC-05NOV26-100-C" 10 1 60;
              mkSummary "BTC-05NOV26-95-P" 30 1 60;
              mkSummary "BTC-06NOV26-110-C" 20 1 55;
              mkSummary "BTC-06NOV26-90-P" 25 1 55;
              mkSummary "BTC-PERPETUAL" 5 1 0 ]
            [ [ sample_trade (Some "f1") "BTC-PERPETUAL" 101 2 "buy";
                sample_trade (Some "f2") "BTC-PERPETUAL" (1012#10) 3 "sell" ];
              [ sample_trade (Some "f1") "BTC-PERPETUAL" 101 2 "buy" ] ]
            sample_chunks.

Definition sample_options_trades : list Trade :=
  dict_values (unique_trades_of sample_chunks).

Definition sample_odd_summary : Summary := mkSummary "BTC-29FEB24-50000-c" 7 1 60.


(** An instrument that [calculate_atm_iv] counts: within 5% of the spot
    price, with a positive implied volatility. *)
Definition atm_with_iv (spot_price : Q) (i : Instrument) : bool :=
  Qlt_bool (Qabs (strike i - spot_price) / spot_price) (5#100)
  && Qlt_bool 0 (mark_iv i).


(** ** Sums per key *)

(** [d[k] = d.get(k, 0) + v], the step of every per-strike sum. *)
Definition dict_add (d : dict Q Q) (k v : Q) : dict Q Q :=
  dict_set Qeq_bool d k (dict_get_default Qeq_bool d k 0 + v).

Definition dict_add_all (d : dict Q Q) (l : list (Q * Q)) : dict Q Q :=
  fold_left (fun acc kv => dict_add acc (fst kv) (snd kv)) l d.

(** The sum of the values of the pairs whose key is [s]. *)
Definition sum_at (l : list (Q * Q)) (s : Q) : Q :=
  sum_where (fun kv => Qeq_bool (fst kv) s) snd l.

(** The instruments that the aggregation of the open interest counts on one
    side, and the open interest of that side at a strike. *)
Definition counted_on (call_side : bool) (i : Instrument) : bool :=
  Qlt_bool 0 (open_interest i) && Bool.eqb (is_call i) call_side.

Definition side_items (call_side : bool) (l : list Instrument) : list (Q * Q) :=
  map (fun i => (strike i, open_interest i)) (filter (counted_on call_side) l).

Definition oi_at (call_side : bool) (l : list Instrument) (s : Q) : Q :=
  sum_at (side_items call_side l) s.

(** Every value of the dictionary is positive. *)
Definition positive_values (d : dict Q Q) : Prop :=
  forall x, In x d -> 0 < snd x.


Definition sample_week : list Instrument :=
  let e := mkDatetime 2026 11 6 0 in
  [ sample_instrument "BTC-06NOV26-110-C" e 110 true 20;
    sample_instrument "BTC-06NOV26-105-C" e 105 true 5;
    sample_instrument "BTC-06NOV26-110-C" e 110 true 3;
    sample_instrument "BTC-06NOV26-90-P" e 90 false 25 ].

(** ** Volume per price level *)

(** The price level of a trade: the nearest multiple of 10 above 1000, the
    nearest tenth otherwise. *)
Definition price_bucket (price_ : Q) : Q :=
  if Qlt_bool 1000 price_ then inject_Z (py_round (price_ / 10) * 10)
  else inject_Z (py_round (price_ * 10)) / 10.

(** The trades that the volume profile counts, and their levels with their
    amounts. *)
Definition counted_volume (t : Trade) : bool :=
  negb (Qle_bool (price t) 0 || Qle_bool (amount t) 0).

Definition volume_items (trades : list Trade) : list (Q * Q) :=
  map (fun t => (price_bucket (price t), amount t)) (filter counted_volume trades).

(** ** The names of the levels *)

(** The names that have a base confidence. *)
Definition known_names : list string := dict_keys confidence_map.

(* ================================================================== *)
(** * Part III: properties                                             *)
(* ================================================================== *)

(** ** Comparisons on floats *)

Lemma Qlt_bool_iff (x y : Q) : Qlt_bool x y = true <-> x < y.
Proof.
  unfold Qlt_bool. rewrite negb_true_iff.
  split; intro H.
  - apply Qnot_le_lt. intro Hle. apply Qle_bool_iff in Hle. congruence.
  - destruct (Qle_bool y x) eqn:E; trivial.
    apply Qle_bool_iff in E. apply Qle_not_lt in E. contradiction.
Qed.

Lemma Qlt_bool_false (x y : Q) : Qlt_bool x y = false <-> y <= x.
Proof.
  unfold Qlt_bool. rewrite negb_false_iff. apply Qle_bool_iff.
Qed.

Lemma Qle_bool_false (x y : Q) : Qle_bool x y = false <-> y < x.
Proof.
  rewrite <- Qlt_bool_iff. unfold Qlt_bool.
  destruct (Qle_bool x y); simpl; intuition congruence.
Qed.

Lemma Qeq_bool_false (x y : Q) : Qeq_bool x y = false <-> ~ x == y.
Proof.
  split; intro H.
  - intro E. apply Qeq_bool_iff in E. congruence.
  - destruct (Qeq_bool x y) eqn:E; trivial.
    apply Qeq_bool_iff in E. contradiction.
Qed.

(** Turns every boolean comparison in the goal into its proposition. *)
Ltac qcases :=
  repeat match goal with
    | |- context [Qlt_bool ?a ?b] =>
        let E := fresh "E" in
        destruct (Qlt_bool a b) eqn:E;
        [apply Qlt_bool_iff in E | apply Qlt_bool_false in E]
    | |- context [Qle_bool ?a ?b] =>
        let E := fresh "E" in
        destruct (Qle_bool a b) eqn:E;
        [apply Qle_bool_iff in E | apply Qle_bool_false in E]
    | |- context [Qeq_bool ?a ?b] =>
        let E := fresh "E" in
        destruct (Qeq_bool a b) eqn:E;
        [apply Qeq_bool_iff in E | apply Qeq_bool_false in E]
    end.

Lemma py_max_spec (a b : Q) :
  (a < b /\ py_max a b = b) \/ (b <= a /\ py_max a b = a).
Proof. unfold py_max. qcases; auto. Qed.

Lemma py_min_spec (a b : Q) :
  (b < a /\ py_min a b = b) \/ (a <= b /\ py_min a b = a).
Proof. unfold py_min. qcases; auto. Qed.

Lemma py_max_Qmax (a b : Q) : py_max a b == Qmax a b.
Proof.
  destruct (py_max_spec a b) as [[H ->] | [H ->]].
  - symmetry. apply Q.max_r. lra.
  - symmetry. apply Q.max_l. lra.
Qed.

Lemma py_min_Qmin (a b : Q) : py_min a b == Qmin a b.
Proof.
  destruct (py_min_spec a b) as [[H ->] | [H ->]].
  - symmetry. apply Q.min_r. lra.
  - symmetry. apply Q.min_l. lra.
Qed.

(** ** Sorting and maxima *)

Section SortFacts.
Context {A : Type} (leb : A -> A -> bool).

Lemma insert_by_perm (x : A) (l : list A) :
  Permutation (insert_by leb x l) (x :: l).
Proof.
  induction l as [|y r IH]; simpl.
  - apply Permutation_refl.
  - destruct (leb x y).
    + apply Permutation_refl.
    + eapply perm_trans; [apply perm_skip, IH | apply perm_swap].
Qed.

Lemma sort_by_perm (l : list A) : Permutation (sort_by leb l) l.
Proof.
  induction l as [|x r IH]; simpl.
  - constructor.
  - eapply perm_trans; [apply insert_by_perm | apply perm_skip, IH].
Qed.

Lemma sort_by_In (l : list A) (x : A) : In x (sort_by leb l) <-> In x l.
Proof.
  split; apply Permutation_in;
    [apply sort_by_perm | apply Permutation_sym, sort_by_perm].
Qed.

Lemma sort_by_length (l : list A) : List.length (sort_by leb l) = List.length l.
Proof. apply Permutation_length, sort_by_perm. Qed.

Hypothesis leb_total : forall x y, leb x y = true \/ leb y x = true.
Hypothesis leb_trans :
  forall x y z, leb x y = true -> leb y z = true -> leb x z = true.

Let le (x y : A) : Prop := leb x y = true.

Lemma insert_by_sorted (x : A) (l : list A) :
  Sorted le l -> Sorted le (insert_by leb x l).
Proof.
  induction 1 as [|y r Hr IH Hy]; simpl.
  - repeat constructor.
  - destruct (leb x y) eqn:E.
    + repeat constructor; assumption.
    + constructor; [exact IH|].
      assert (Hyx : le y x) by (destruct (leb_total x y); [congruence | assumption]).
      destruct r as [|z r']; simpl.
      * repeat constructor; assumption.
      * destruct (leb x z); constructor; [assumption|].
        inversion Hy; assumption.
Qed.

Lemma sort_by_sorted (l : list A) : StronglySorted le (sort_by leb l).
Proof.
  apply Sorted_StronglySorted.
  - intros x y z; apply leb_trans.
  - induction l; simpl; [constructor | apply insert_by_sorted; assumption].
Qed.

End SortFacts.

Section KeySortFacts.
Context {A : Type} (key : A -> Q).

Lemma sort_key_sorted (l : list A) :
  StronglySorted (fun x y => key x <= key y) (sort_key key l).
Proof.
  assert (H : StronglySorted
                (fun x y => Qle_bool (key x) (key y) = true) (sort_key key l)).
  { apply sort_by_sorted.
    - intros x y. rewrite !Qle_bool_iff.
      destruct (Qlt_le_dec (key y) (key x)); [right; lra | left; assumption].
    - intros x y z. rewrite !Qle_bool_iff. lra. }
  induction H as [|x r Hr IH Hx]; constructor; [assumption|].
  eapply Forall_impl; [|exact Hx]. intros y. apply Qle_bool_iff.
Qed.

Lemma sort_key_rev_sorted (l : list A) :
  StronglySorted (fun x y => key y <= key x) (sort_key_rev key l).
Proof.
  assert (H : StronglySorted
                (fun x y => Qle_bool (key y) (key x) = true) (sort_key_rev key l)).
  { apply sort_by_sorted.
    - intros x y. rewrite !Qle_bool_iff.
      destruct (Qlt_le_dec (key y) (key x)); [left; lra | right; assumption].
    - intros x y z. rewrite !Qle_bool_iff. lra. }
  induction H as [|x r Hr IH Hx]; constructor; [assumption|].
  eapply Forall_impl; [|exact Hx]. intros y. apply Qle_bool_iff.
Qed.

(** [max] returns an element of the list whose key no other exceeds. *)
Lemma max_from_spec (l : list A) (best : A) :
  let m := max_from key best l in
  In m (best :: l) /\ forall x, In x (best :: l) -> key x <= key m.
Proof.
  revert best. induction l as [|y r IH]; intros best; simpl.
  - split; [auto|]. intros x [<- | []]. lra.
  - unfold max_from in *. simpl.
    destruct (Qlt_bool (key best) (key y)) eqn:E.
    + apply Qlt_bool_iff in E.
      destruct (IH y) as [Hin Hmax]. split.
      * destruct Hin as [<- | Hin]; auto.
      * intros x [<- | [<- | Hx]].
        -- specialize (Hmax y (or_introl eq_refl)). lra.
        -- apply Hmax; left; reflexivity.
        -- apply Hmax; right; assumption.
    + apply Qlt_bool_false in E.
      destruct (IH best) as [Hin Hmax]. split.
      * destruct Hin as [<- | Hin]; auto.
      * intros x [<- | [<- | Hx]].
        -- apply Hmax; left; reflexivity.
        -- specialize (Hmax best (or_introl eq_refl)). lra.
        -- apply Hmax; right; assumption.
Qed.

Lemma max_key_spec (l : list A) (m : A) :
  max_key key l = Some m ->
  In m l /\ forall x, In x l -> key x <= key m.
Proof.
  destruct l as [|x r]; simpl; [discriminate|].
  intros [= <-]. apply max_from_spec.
Qed.

Lemma max_key_some (l : list A) : l <> [] -> exists m, max_key key l = Some m.
Proof. destruct l; [congruence | simpl; eauto]. Qed.

End KeySortFacts.

(** ** LevelComposer *)

Lemma py_div_ok (a b : Q) : ~ b == 0 -> py_div a b = ok (a / b).
Proof.
  intro H. unfold py_div. apply Qeq_bool_false in H. rewrite H. reflexivity.
Qed.

Lemma positive_level_iff (p : Q) : positive_level p = true <-> 0 < p.
Proof.
  unfold positive_level. rewrite andb_true_iff, negb_true_iff, Qlt_bool_iff.
  rewrite Qeq_bool_false. split; [tauto | intro H; split; [lra | exact H]].
Qed.

Lemma map_result_ok {A B} (f : A -> result B) (g : A -> B) (l : list A) :
  (forall x, In x l -> f x = ok (g x)) -> map_result f l = ok (map g l).
Proof.
  induction l as [|x r IH]; intros H; simpl; [reflexivity|].
  rewrite (H x (or_introl eq_refl)). simpl.
  rewrite IH by (intros y Hy; apply H; right; exact Hy). reflexivity.
Qed.

Lemma make_key_level_ok (spot_price : Q) (entry : string * Q) :
  ~ spot_price == 0 ->
  make_key_level spot_price entry = ok (key_level_of spot_price entry).
Proof.
  intro H. destruct entry as [n p]. unfold make_key_level, calculate_distance_to_spot.
  rewrite py_div_ok by exact H. reflexivity.
Qed.

Lemma compose_key_levels_ok (all_levels : dict string Q) (spot_price : Q) :
  ~ spot_price == 0 ->
  compose_key_levels all_levels spot_price =
  ok (sort_key (fun x => Qabs (distance_to_spot x))
        (map (key_level_of spot_price)
             (filter (fun e => positive_level (snd e)) all_levels))).
Proof.
  intro H. unfold compose_key_levels.
  rewrite (map_result_ok _ (key_level_of spot_price))
    by (intros; apply make_key_level_ok; exact H).
  reflexivity.
Qed.

(** C1. For every merged level map and every positive spot price, the level
    composer returns a list of key levels in which every level has a
    positive price taken from the map, carries the distance
    [(price - spot) / spot * 100], and which is sorted by ascending absolute
    distance; every positive entry of the map is in the list. *)
Theorem C1_key_levels_positive_distance_sorted
  (all_levels : dict string Q) (spot_price : Q) :
  0 < spot_price ->
  exists key_levels,
    compose_key_levels all_levels spot_price = ok key_levels
    /\ (forall kl, In kl key_levels ->
          0 < value kl
          /\ In (name kl, value kl) all_levels
          /\ distance_to_spot kl == (value kl - spot_price) / spot_price * 100)
    /\ (forall n p, In (n, p) all_levels -> 0 < p ->
          exists kl, In kl key_levels /\ name kl = n /\ value kl = p)
    /\ StronglySorted
         (fun a b => Qabs (distance_to_spot a) <= Qabs (distance_to_spot b))
         key_levels.
Proof.
  intro Hspot. eexists. split.
  - apply compose_key_levels_ok. lra.
  - split; [|split].
    + intros kl Hin. apply sort_by_In in Hin. apply in_map_iff in Hin.
      destruct Hin as [[n p] [<- Hin]]. apply filter_In in Hin. simpl in *.
      destruct Hin as [Hin Hpos]. apply positive_level_iff in Hpos.
      split; [assumption | split; [assumption | reflexivity]].
    + intros n p Hin Hpos. exists (key_level_of spot_price (n, p)).
      split; [|split; reflexivity].
      apply sort_by_In. apply in_map. apply filter_In. split; [exact Hin|].
      apply positive_level_iff. exact Hpos.
    + apply sort_key_sorted.
Qed.

Lemma C1_key_levels_witness :
  let all_levels := [("HVL", 110); ("1D Min", 95); ("VWAS", 0)] in
  0 < 100
  /\ exists key_levels,
       compose_key_levels all_levels 100 = ok key_levels
       /\ (forall kl, In kl key_levels ->
             0 < value kl
             /\ In (name kl, value kl) all_levels
             /\ distance_to_spot kl == (value kl - 100) / 100 * 100)
       /\ (forall n p, In (n, p) all_levels -> 0 < p ->
             exists kl, In kl key_levels /\ name kl = n /\ value kl = p)
       /\ StronglySorted
            (fun a b => Qabs (distance_to_spot a) <= Qabs (distance_to_spot b))
            key_levels.
Proof.
  split; [reflexivity|].
  apply (C1_key_levels_positive_distance_sorted
           [("HVL", 110); ("1D Min", 95); ("VWAS", 0)] 100).
  reflexivity.
Defined.

Example compose_key_levels_example :
  option_map (map name)
    (match compose_key_levels [("HVL", 110); ("1D Min", 95); ("VWAS", 0)] 100 with
     | inr l => Some l | inl _ => None end)
  = Some ["1D Min"; "HVL"].
Proof. vm_compute. reflexivity. Qed.

(** ** Confidence *)

(** Division by a constant, as a product, for the linear solvers. *)
Ltac qdiv_consts :=
  unfold Qdiv in *;
  repeat match goal with
    | |- context [Qinv (Qmake ?n ?d)] =>
        let v := eval cbv in (Qinv (Qmake n d)) in
        change (Qinv (Qmake n d)) with v
    | H : context [Qinv (Qmake ?n ?d)] |- _ =>
        let v := eval cbv in (Qinv (Qmake n d)) in
        change (Qinv (Qmake n d)) with v in H
    end.

(** The two regimes of the confidence: linear up to a distance of 90%,
    constant from there on. *)
Lemma confidence_cases (base d : Q) :
  0 < base -> base <= 1 ->
  (Qabs d <= 90 /\ calculate_confidence base d == base * (1 - Qabs d / 100))
  \/ (90 <= Qabs d /\ calculate_confidence base d == base * (1#10)).
Proof.
  intros Hb0 Hb1. unfold calculate_confidence.
  pose proof (Qabs_nonneg d) as Ha. set (a := Qabs d) in *. clearbody a.
  assert (Hf : 1 - a / 100 <= 1) by (qdiv_consts; lra).
  destruct (py_max_spec (1#10) (1 - a / 100)) as [[Hm ->] | [Hm ->]].
  - left. split; [qdiv_consts; lra|].
    set (f := 1 - a / 100) in *. clearbody f.
    destruct (py_min_spec 1 (base * f)) as [[Hn ->] | [Hn ->]];
      [reflexivity | apply Qle_antisym; nra].
  - right. split; [qdiv_consts; lra|].
    destruct (py_min_spec 1 (base * (1#10))) as [[Hn ->] | [Hn ->]];
      [reflexivity | apply Qle_antisym; nra].
Qed.

Lemma confidence_formula (base d : Q) :
  calculate_confidence base d
  == Qmin 1 (base * Qmax (1#10) (1 - Qabs d / 100)).
Proof.
  unfold calculate_confidence.
  rewrite py_min_Qmin.
  apply Q.min_compat; [reflexivity|].
  rewrite py_max_Qmax. reflexivity.
Qed.

(** C2, as the code has it. For a base confidence in (0,1] the confidence
    is [min(1, base * max(0.1, 1 - |d|/100))]; it lies in [0,1], is the base
    at distance 0, never increases with [|d|], decreases strictly while
    [|d| <= 90], and is exactly a tenth of the base from [|d| = 90] on (so
    at every [|d| >= 100]). *)
Theorem C2_confidence_bounded_nonincreasing (base d : Q) :
  0 < base -> base <= 1 ->
  calculate_confidence base d
  == Qmin 1 (base * Qmax (1#10) (1 - Qabs d / 100))
  /\ 0 <= calculate_confidence base d <= 1
  /\ calculate_confidence base 0 == base
  /\ (forall d', Qabs d <= Qabs d' ->
        calculate_confidence base d' <= calculate_confidence base d)
  /\ (forall d', Qabs d < Qabs d' -> Qabs d' <= 90 ->
        calculate_confidence base d' < calculate_confidence base d)
  /\ (90 <= Qabs d -> calculate_confidence base d == (1#10) * base).
Proof.
  intros Hb0 Hb1.
  pose proof (Qabs_nonneg d) as Ha.
  split; [apply confidence_formula|].
  split; [|split; [|split; [|split]]].
  - destruct (confidence_cases base d Hb0 Hb1) as [[H ->] | [H ->]];
      qdiv_consts; nra.
  - destruct (confidence_cases base 0 Hb0 Hb1) as [[H ->] | [H ->]];
      change (Qabs 0) with 0 in *; qdiv_consts; lra.
  - intros d' Hle.
    destruct (confidence_cases base d Hb0 Hb1) as [[H ->] | [H ->]];
      destruct (confidence_cases base d' Hb0 Hb1) as [[H' ->] | [H' ->]];
      qdiv_consts; nra.
  - intros d' Hlt H90.
    destruct (confidence_cases base d Hb0 Hb1) as [[H ->] | [H ->]];
      destruct (confidence_cases base d' Hb0 Hb1) as [[H' ->] | [H' ->]];
      qdiv_consts; nra.
  - intro H90.
    destruct (confidence_cases base d Hb0 Hb1) as [[H ->] | [H ->]];
      qdiv_consts; nra.
Qed.

Lemma C2_confidence_witness :
  0 < (1#2) /\ (1#2) <= 1
  /\ calculate_confidence (1#2) 40
     == Qmin 1 ((1#2) * Qmax (1#10) (1 - Qabs 40 / 100))
  /\ 0 <= calculate_confidence (1#2) 40 <= 1
  /\ calculate_confidence (1#2) 0 == (1#2)
  /\ (forall d', Qabs 40 <= Qabs d' ->
        calculate_confidence (1#2) d' <= calculate_confidence (1#2) 40)
  /\ (forall d', Qabs 40 < Qabs d' -> Qabs d' <= 90 ->
        calculate_confidence (1#2) d' < calculate_confidence (1#2) 40)
  /\ (90 <= Qabs 40 -> calculate_confidence (1#2) 40 == (1#10) * (1#2)).
Proof.
  split; [reflexivity|]. split; [discriminate|].
  apply (C2_confidence_bounded_nonincreasing (1#2) 40);
    [reflexivity | discriminate].
Defined.

(** C2, as stated, fails: between the distances 90 and 100 the confidence
    does not decrease. *)
Lemma C2_not_strictly_decreasing :
  ~ (forall base d1 d2 : Q,
       0 < base -> base <= 1 -> Qabs d1 < Qabs d2 ->
       calculate_confidence base d2 < calculate_confidence base d1).
Proof.
  intro H.
  specialize (H (1#2) 90 100).
  assert (Hc : calculate_confidence (1#2) 100 < calculate_confidence (1#2) 90).
  { apply H; [reflexivity | discriminate | reflexivity]. }
  vm_compute in Hc. discriminate.
Qed.

(** ** Dictionaries *)

Section DictFacts.
Context {K V : Type} (keq : K -> K -> bool).

Lemma dict_keys_set (d : dict K V) (k : K) (v : V) :
  dict_keys (dict_set keq d k v)
  = if dict_mem keq d k then dict_keys d else dict_keys d ++ [k].
Proof.
  unfold dict_mem. induction d as [|[k' v'] r IH]; simpl; [reflexivity|].
  destruct (keq k' k); simpl; [reflexivity|].
  rewrite IH. destruct (dict_get keq r k); reflexivity.
Qed.

Lemma dict_length_set (d : dict K V) (k : K) (v : V) :
  (List.length (dict_set keq d k v) <= S (List.length d))%nat.
Proof.
  induction d as [|[k' v'] r IH]; simpl; [lia|].
  destruct (keq k' k); simpl; lia.
Qed.

Lemma dict_length_update (items : list (K * V)) (d : dict K V) :
  (List.length (dict_update keq d items) <= List.length d + List.length items)%nat.
Proof.
  unfold dict_update. revert d.
  induction items as [|[k v] r IH]; intros d; simpl; [lia|].
  specialize (IH (dict_set keq d k v)).
  pose proof (dict_length_set d k v). lia.
Qed.

Lemma dict_keys_update_In (items : list (K * V)) (d : dict K V) (k : K) :
  In k (dict_keys (dict_update keq d items)) ->
  In k (dict_keys d ++ map fst items).
Proof.
  unfold dict_update. revert d.
  induction items as [|[k' v'] r IH]; intros d; simpl.
  - rewrite app_nil_r. trivial.
  - intro H. apply IH in H. rewrite dict_keys_set in H.
    apply in_app_iff in H. apply in_app_iff. simpl.
    destruct (dict_mem keq d k').
    + tauto.
    + destruct H as [H | H]; [|tauto].
      apply in_app_iff in H. simpl in H. tauto.
Qed.

End DictFacts.

Lemma StronglySorted_app_drop {A} (R : A -> A -> Prop) (l1 l2 : list A) (x : A) :
  StronglySorted R (l1 ++ x :: l2) -> StronglySorted R (l1 ++ l2).
Proof.
  induction l1 as [|y r IH]; simpl; intro H.
  - inversion H; assumption.
  - inversion H as [|? ? Hs Hf]; subst. constructor; [apply IH; exact Hs|].
    rewrite Forall_app in *. destruct Hf as [Hf1 Hf2].
    split; [assumption | inversion Hf2; assumption].
Qed.

Lemma StronglySorted_firstn {A} (R : A -> A -> Prop) (n : nat) (l : list A) :
  StronglySorted R l -> StronglySorted R (firstn n l).
Proof.
  revert l. induction n as [|n IH]; intros l H; simpl; [constructor|].
  destruct l as [|x r]; [constructor|].
  inversion H as [|? ? Hs Hf]; subst. constructor; [apply IH; exact Hs|].
  rewrite Forall_forall in *. intros y Hy. apply Hf.
  revert Hy. clear. revert r. induction n; intros [|z r]; simpl; try tauto.
  intros [-> | Hy]; [left; reflexivity | right; apply IHn; exact Hy].
Qed.

Lemma firstn_incl {A} (n : nat) (l : list A) (x : A) :
  In x (firstn n l) -> In x l.
Proof.
  revert l. induction n; intros [|z r]; simpl; try tauto.
  intros [-> | Hy]; [left; reflexivity | right; apply IHn; exact Hy].
Qed.

Lemma StronglySorted_map {A B} (f : A -> B) (R : B -> B -> Prop) (l : list A) :
  StronglySorted (fun x y => R (f x) (f y)) l -> StronglySorted R (map f l).
Proof.
  induction 1 as [|x r Hs IH Hf]; simpl; constructor; [exact IH|].
  rewrite Forall_map. exact Hf.
Qed.

Section DictOrder.
Context {K V : Type} (keq : K -> K -> bool) (R : K -> K -> Prop).

Lemma dict_keys_update_sorted (items : list (K * V)) (d : dict K V) :
  StronglySorted R (dict_keys d ++ map fst items) ->
  StronglySorted R (dict_keys (dict_update keq d items)).
Proof.
  unfold dict_update. revert d.
  induction items as [|[k v] r IH]; intros d; simpl.
  - rewrite app_nil_r. trivial.
  - intro H. apply IH. rewrite dict_keys_set.
    destruct (dict_mem keq d k).
    + eapply StronglySorted_app_drop. exact H.
    + rewrite <- app_assoc. exact H.
Qed.

End DictOrder.

Section DictOfItems.
Context {K V : Type} (keq : K -> K -> bool).

Lemma dict_of_items_In (items : list (K * V)) (k : K) :
  In k (dict_keys (dict_of_items keq items)) -> In k (map fst items).
Proof. intro H. apply dict_keys_update_In in H. exact H. Qed.

Lemma dict_of_items_sorted (R : K -> K -> Prop) (items : list (K * V)) :
  StronglySorted R (map fst items) ->
  StronglySorted R (dict_keys (dict_of_items keq items)).
Proof. intro H. apply dict_keys_update_sorted. exact H. Qed.

Lemma dict_of_items_length (items : list (K * V)) :
  (List.length (dict_of_items keq items) <= List.length items)%nat.
Proof. apply (dict_length_update keq items []). Qed.

End DictOfItems.

(** ** BandFilter *)

(** C3. The call filter keeps only strikes above the spot price and within
    the band, in ascending order; the put filter keeps only strikes below
    the spot price and within the band, in descending order; each returns
    at most 10 strikes. *)
Theorem C3_band_filter_bounds_order_cap
  (strikes_dict : dict Q Q) (spot_price band : Q) :
  let calls := filter_call_strikes spot_price strikes_dict band in
  let puts := filter_put_strikes spot_price strikes_dict band in
  (forall s, In s (dict_keys calls) ->
     spot_price < s /\ s <= spot_price * (1 + band / 100))
  /\ StronglySorted Qle (dict_keys calls)
  /\ (List.length calls <= 10)%nat
  /\ (forall s, In s (dict_keys puts) ->
        spot_price * (1 - band / 100) <= s /\ s < spot_price)
  /\ StronglySorted (fun a b => b <= a) (dict_keys puts)
  /\ (List.length puts <= 10)%nat.
Proof.
  cbv zeta. unfold filter_call_strikes, filter_put_strikes.
  assert (Hin : forall (ok : Q * Q -> bool) (srt : list (Q * Q) -> list (Q * Q)) s,
             (forall l x, In x (srt l) <-> In x l) ->
             In s (dict_keys (dict_of_items Qeq_bool
                                (firstn 10 (srt (filter ok strikes_dict))))) ->
             exists item, fst item = s /\ ok item = true).
  { intros okb srt s Hsrt H. apply dict_of_items_In, in_map_iff in H.
    destruct H as [item [<- H]]. exists item. split; [reflexivity|].
    apply firstn_incl, Hsrt, filter_In in H. apply H. }
  split; [|split; [|split; [|split; [|split]]]].
  - intros s H. apply Hin in H; [|intros; apply sort_by_In].
    destruct H as [item [<- H]]. apply andb_true_iff in H.
    rewrite Qlt_bool_iff, Qle_bool_iff in H. exact H.
  - apply dict_of_items_sorted.
    apply StronglySorted_map, StronglySorted_firstn, sort_key_sorted.
  - eapply Nat.le_trans; [apply dict_of_items_length | apply firstn_le_length].
  - intros s H. apply Hin in H; [|intros; apply sort_by_In].
    destruct H as [item [<- H]]. apply andb_true_iff in H.
    rewrite Qlt_bool_iff, Qle_bool_iff in H. tauto.
  - apply dict_of_items_sorted.
    apply (StronglySorted_map fst (fun a b => b <= a)).
    apply StronglySorted_firstn, sort_key_rev_sorted.
  - eapply Nat.le_trans; [apply dict_of_items_length | apply firstn_le_length].
Qed.

Example filter_call_strikes_example :
  filter_call_strikes 100 [(130, 5); (90, 1); (105, 2); (101, 7); (120, 3)] 25
  = [(101, 7); (105, 2); (120, 3)].
Proof. vm_compute. reflexivity. Qed.

Example filter_put_strikes_example :
  filter_put_strikes 100 [(70, 5); (90, 1); (105, 2); (99, 7); (80, 3)] 25
  = [(99, 7); (90, 1); (80, 3)].
Proof. vm_compute. reflexivity. Qed.

(** ** InstrumentClassifier *)

Section ClassifierFacts.
Import Calendar.
Local Open Scope Z_scope.

Lemma days_until_friday_spec (now_ : datetime) :
  1 <= days_until_friday now_ <= 7
  /\ (weekday now_ + days_until_friday now_) mod 7 = 4
  /\ (weekday now_ = 4 -> days_until_friday now_ = 7).
Proof.
  unfold days_until_friday.
  assert (Hw : 0 <= weekday now_ < 7) by (unfold weekday; apply Z.mod_pos_bound; lia).
  set (w := weekday now_) in *. clearbody w.
  assert (Hc : w = 0 \/ w = 1 \/ w = 2 \/ w = 3 \/ w = 4 \/ w = 5 \/ w = 6) by lia.
  destruct Hc as [-> | [-> | [-> | [-> | [-> | [-> | ->]]]]]];
    vm_compute; repeat split; intros; congruence.
Qed.

Lemma ordinals_from_In (k : nat) (z n : Z) :
  z <= n < z + Z.of_nat k -> In n (ordinals_from k z).
Proof.
  revert z. induction k as [|k IH]; intros z H; [lia|].
  simpl. destruct (Z.eq_dec z n) as [-> | Hne]; [left; reflexivity|].
  right. apply IH. lia.
Qed.

Lemma ordinals_roundtrip : forallb ordinal_roundtrip ordinals = true.
Proof. vm_compute. reflexivity. Qed.

Lemma ord2ymd_ymd2ord (n : Z) :
  first_ordinal <= n < first_ordinal + ordinal_count ->
  let '(y, m, d) := ord2ymd n in ymd2ord y m d = n.
Proof.
  intro H. pose proof ordinals_roundtrip as Hall.
  rewrite forallb_forall in Hall. specialize (Hall n).
  unfold ordinal_roundtrip in Hall.
  destruct (ord2ymd n) as [[y m] d]. apply Z.eqb_eq, Hall.
  apply ordinals_from_In. rewrite Z2Nat.id by (unfold ordinal_count; lia). exact H.
Qed.

Lemma toordinal_add_days (d : datetime) (k : Z) :
  first_ordinal <= toordinal d + k < first_ordinal + ordinal_count ->
  toordinal (add_days d k) = toordinal d + k.
Proof.
  intro H. unfold add_days. pose proof (ord2ymd_ymd2ord _ H) as Hr.
  destruct (ord2ymd (toordinal d + k)) as [[y m] dd]. exact Hr.
Qed.

(** The date that the Current rule compares with is a Friday. *)
Lemma next_friday_is_friday (now_ : datetime) :
  clock_in_range now_ ->
  weekday (add_days now_ (days_until_friday now_)) = 4.
Proof.
  unfold clock_in_range. intro H.
  destruct (days_until_friday_spec now_) as [Hd [Hf _]].
  unfold weekday in *. rewrite toordinal_add_days by lia.
  rewrite <- Hf. rewrite Zplus_mod_idemp_l. f_equal. lia.
Qed.

Lemma group_instrument_rule (clock : nat -> datetime) (g : Groups)
  (i : Instrument) (e : datetime) (t : nat) :
  expiry_date i = Some e ->
  fst (group_instrument g i clock t)
  = if zero_dte_at (clock t) e then append_dte0 g i
    else if current_at (clock (t + 1)%nat) e then append_current g i
    else if one_week_at (clock (t + 2)%nat) e then append_week1 g i
    else if one_month_at (clock (t + 3)%nat) e then append_month1 g i
    else append_current g i.
Proof.
  intro He. unfold group_instrument. rewrite He.
  unfold is_0dte, is_current_weekly_monthly, is_1w_expiry, is_1m_expiry,
    bind, now, ret.
  replace (t + 1)%nat with (S t) by lia.
  replace (t + 2)%nat with (S (S t)) by lia.
  replace (t + 3)%nat with (S (S (S t))) by lia.
  fold (zero_dte_at (clock t) e).
  destruct (zero_dte_at (clock t) e); [reflexivity|].
  fold (days_until_friday (clock (S t))).
  fold (current_at (clock (S t)) e).
  destruct (current_at (clock (S t)) e); [reflexivity|].
  fold (one_week_at (clock (S (S t))) e).
  destruct (one_week_at (clock (S (S t))) e); [reflexivity|].
  fold (one_month_at (clock (S (S (S t)))) e).
  destruct (one_month_at (clock (S (S (S t)))) e); reflexivity.
Qed.

Lemma group_instrument_no_expiry (clock : nat -> datetime) (g : Groups)
  (i : Instrument) (t : nat) :
  expiry_date i = None -> group_instrument g i clock t = (g, t).
Proof. intro He. unfold group_instrument. rewrite He. reflexivity. Qed.

Lemma all_groups_append (g : Groups) (i : Instrument) :
  Permutation (all_groups (append_dte0 g i)) (all_groups g ++ [i])
  /\ Permutation (all_groups (append_current g i)) (all_groups g ++ [i])
  /\ Permutation (all_groups (append_week1 g i)) (all_groups g ++ [i])
  /\ Permutation (all_groups (append_month1 g i)) (all_groups g ++ [i]).
Proof.
  unfold all_groups; destruct g as [c d w m]; simpl.
  assert (Hend : forall (x y : list Instrument),
             Permutation ([i] ++ x) y -> Permutation (i :: x) y) by trivial.
  assert (Hcomm : forall x : list Instrument, Permutation ([i] ++ x) (x ++ [i]))
    by (intro x; apply Permutation_app_comm).
  repeat split; rewrite <- ?app_assoc.
  - apply Permutation_app_head.
    eapply perm_trans; [apply Hcomm|]. rewrite <- ?app_assoc. apply Permutation_refl.
  - do 2 apply Permutation_app_head.
    eapply perm_trans; [apply Hcomm|]. rewrite <- ?app_assoc. apply Permutation_refl.
  - do 3 apply Permutation_app_head. apply Hcomm.
  - apply Permutation_refl.
Qed.

Lemma group_instrument_perm (clock : nat -> datetime) (g : Groups)
  (i : Instrument) (t : nat) :
  Permutation (all_groups (fst (group_instrument g i clock t)))
              (all_groups g ++ filter has_expiry [i]).
Proof.
  destruct (all_groups_append g i) as [H0 [H1 [H2 H3]]].
  destruct (expiry_date i) as [e|] eqn:He.
  - rewrite (group_instrument_rule clock g i e t He).
    simpl. unfold has_expiry. rewrite He.
    destruct (zero_dte_at _ _); [exact H0|].
    destruct (current_at _ _); [exact H1|].
    destruct (one_week_at _ _); [exact H2|].
    destruct (one_month_at _ _); [exact H3 | exact H1].
  - rewrite group_instrument_no_expiry by exact He.
    simpl. unfold has_expiry. rewrite He. rewrite app_nil_r.
    apply Permutation_refl.
Qed.

Lemma foldM_group_perm (clock : nat -> datetime) (l : list Instrument)
  (g : Groups) (t : nat) :
  Permutation (all_groups (fst (foldM group_instrument l g clock t)))
              (all_groups g ++ filter has_expiry l).
Proof.
  revert g t. induction l as [|i r IH]; intros g t.
  - simpl. rewrite app_nil_r. apply Permutation_refl.
  - change (foldM group_instrument (i :: r) g clock t)
      with (let (s', t') := group_instrument g i clock t in
            foldM group_instrument r s' clock t').
    pose proof (group_instrument_perm clock g i t) as Hstep.
    destruct (group_instrument g i clock t) as [g' t'].
    eapply perm_trans; [apply IH|].
    simpl fst in Hstep.
    change (i :: r) with ([i] ++ r). rewrite filter_app.
    rewrite app_assoc. apply Permutation_app_tail. exact Hstep.
Qed.

End ClassifierFacts.

Section ClassifierLoop.
Import Calendar.

(** One turn of the grouping loop: the instrument joins the list of its
    timeframe and the clock has been read once per rule tried. *)
Lemma group_instrument_step (clock : nat -> datetime) (g : Groups)
  (i : Instrument) (e : datetime) (t : nat) :
  expiry_date i = Some e ->
  group_instrument g i clock t
  = (append_to (fst (timeframe_at clock t e)) g i,
     (t + snd (timeframe_at clock t e))%nat).
Proof.
  intro He. unfold group_instrument, timeframe_at. rewrite He.
  unfold is_0dte, is_current_weekly_monthly, is_1w_expiry, is_1m_expiry,
    bind, now, ret.
  replace (t + 1)%nat with (S t) by lia.
  replace (t + 2)%nat with (S (S t)) by lia.
  replace (t + 3)%nat with (S (S (S t))) by lia.
  fold (zero_dte_at (clock t) e).
  destruct (zero_dte_at (clock t) e);
    [cbn [fst snd append_to]; f_equal; lia|].
  fold (days_until_friday (clock (S t))).
  fold (current_at (clock (S t)) e).
  destruct (current_at (clock (S t)) e);
    [cbn [fst snd append_to]; f_equal; lia|].
  fold (one_week_at (clock (S (S t))) e).
  destruct (one_week_at (clock (S (S t))) e);
    [cbn [fst snd append_to]; f_equal; lia|].
  fold (one_month_at (clock (S (S (S t)))) e).
  destruct (one_month_at (clock (S (S (S t)))) e);
    cbn [fst snd append_to]; f_equal; lia.
Qed.

Lemma group_of_append (tf tf' : Timeframe) (g : Groups) (i : Instrument) :
  group_of tf (append_to tf' g i)
  = group_of tf g ++ (if timeframe_eqb tf' tf then [i] else []).
Proof.
  destruct tf, tf', g; cbn; rewrite ?app_nil_r; reflexivity.
Qed.

(** The loop from any groups on: each list gains, in their order, the
    instruments of its timeframe. *)
Lemma foldM_group_classified (clock : nat -> datetime) (l : list Instrument) :
  forall (g : Groups) (t : nat) (tf : Timeframe),
    group_of tf (fst (foldM group_instrument l g clock t))
    = group_of tf g ++ in_timeframe tf (classified clock t l).
Proof.
  induction l as [|i r IH]; intros g t tf.
  - simpl. rewrite app_nil_r. reflexivity.
  - change (foldM group_instrument (i :: r) g clock t)
      with (let (s', t') := group_instrument g i clock t in
            foldM group_instrument r s' clock t').
    cbn [classified]. destruct (expiry_date i) as [e|] eqn:He.
    + rewrite (group_instrument_step clock g i e t He).
      rewrite IH, group_of_append. unfold in_timeframe. cbn [filter snd].
      destruct (timeframe_eqb (fst (timeframe_at clock t e)) tf);
        rewrite <- app_assoc; reflexivity.
    + rewrite group_instrument_no_expiry by exact He. apply IH.
Qed.

Lemma classified_instruments (clock : nat -> datetime) (l : list Instrument) :
  forall t, map fst (classified clock t l) = filter has_expiry l.
Proof.
  induction l as [|i r IH]; intro t; [reflexivity|].
  cbn [classified filter]. unfold has_expiry at 1.
  destruct (expiry_date i) as [e|]; [|apply IH].
  cbn [map fst]. rewrite IH. reflexivity.
Qed.

End ClassifierLoop.

(** C4. Every instrument with an expiry date goes to exactly one of the four
    lists: each list of the result holds, in their order, the instruments
    whose timeframe it is, and an instrument has one timeframe, the first
    rule that holds in the order 0DTE, Current (the date of the next
    Friday; seven days ahead on a Friday), 1W (5 to 12 days), 1M (20 to 40
    days), and Current when no rule holds.  Each rule reads the clock anew.
    The date of the Current rule is one to seven days ahead and, for a
    clock between 1969 and 2068, is a Friday. *)
Theorem C4_timeframe_classification
  (clock : nat -> datetime) (instruments : list Instrument) (t : nat) :
  let g := fst (group_instruments instruments clock t) in
  let c := classified clock t instruments in
  map fst c = filter has_expiry instruments
  /\ (dte0_instruments g = in_timeframe TF_0DTE c
      /\ current_instruments g = in_timeframe TF_Current c
      /\ week1_instruments g = in_timeframe TF_1W c
      /\ month1_instruments g = in_timeframe TF_1M c)
  /\ Permutation (all_groups g) (filter has_expiry instruments)
  /\ (forall (e : datetime) (t0 : nat),
        fst (timeframe_at clock t0 e)
        = if zero_dte_at (clock t0) e then TF_0DTE
          else if current_at (clock (t0 + 1)%nat) e then TF_Current
          else if one_week_at (clock (t0 + 2)%nat) e then TF_1W
          else if one_month_at (clock (t0 + 3)%nat) e then TF_1M
          else TF_Current)
  /\ (forall (g0 : Groups) (i : Instrument) (e : datetime) (t0 : nat),
        expiry_date i = Some e ->
        fst (group_instrument g0 i clock t0)
        = if zero_dte_at (clock t0) e then append_dte0 g0 i
          else if current_at (clock (t0 + 1)%nat) e then append_current g0 i
          else if one_week_at (clock (t0 + 2)%nat) e then append_week1 g0 i
          else if one_month_at (clock (t0 + 3)%nat) e then append_month1 g0 i
          else append_current g0 i)
  /\ (forall now_ : datetime,
        (1 <= days_until_friday now_ <= 7)%Z
        /\ ((Calendar.weekday now_ + days_until_friday now_) mod 7 = 4)%Z
        /\ (Calendar.weekday now_ = 4%Z -> days_until_friday now_ = 7%Z)
        /\ (clock_in_range now_ ->
            Calendar.weekday (Calendar.add_days now_ (days_until_friday now_))
            = 4%Z)).
Proof.
  cbv zeta. unfold group_instruments.
  split; [apply classified_instruments|].
  split; [|split; [|split; [|split]]].
  - repeat split.
    + apply (foldM_group_classified clock instruments no_groups t TF_0DTE).
    + apply (foldM_group_classified clock instruments no_groups t TF_Current).
    + apply (foldM_group_classified clock instruments no_groups t TF_1W).
    + apply (foldM_group_classified clock instruments no_groups t TF_1M).
  - apply (foldM_group_perm clock instruments no_groups t).
  - intros e t0. unfold timeframe_at.
    destruct (zero_dte_at _ _); [reflexivity|].
    destruct (current_at _ _); [reflexivity|].
    destruct (one_week_at _ _); [reflexivity|].
    destruct (one_month_at _ _); reflexivity.
  - intros g0 i e t0. apply group_instrument_rule.
  - intro now_. destruct (days_until_friday_spec now_) as [H1 [H2 H3]].
    repeat split; try assumption; try apply H1.
    apply next_friday_is_friday.
Qed.

Lemma C4_timeframe_classification_witness :
  let clock := fun _ : nat => sample_now in
  let mk d := sample_instrument "" (mkDatetime 2026 11 d 0) 50000 true 10 in
  let instruments := [mk 5; mk 6; mk 13; mk 27; mk 20]%Z in
  let g := fst (group_instruments instruments clock 0%nat) in
  expiry_date (mk 13%Z) = Some (mkDatetime 2026 11 13 0)
  /\ fst (group_instrument no_groups (mk 13%Z) clock 0%nat)
     = append_week1 no_groups (mk 13%Z)
  /\ dte0_instruments g = [mk 5]%Z
  /\ current_instruments g = [mk 6; mk 20]%Z
  /\ week1_instruments g = [mk 13]%Z
  /\ month1_instruments g = [mk 27]%Z.
Proof.
  intros clock mk instruments g. split; [reflexivity|].
  destruct (C4_timeframe_classification clock instruments 0%nat)
    as [_ [[H0 [Hc [Hw Hm]]] [_ [_ [H _]]]]].
  split.
  { rewrite (H no_groups (mk 13%Z) (mkDatetime 2026 11 13 0) 0%nat eq_refl).
    vm_compute. reflexivity. }
  unfold g. rewrite H0, Hc, Hw, Hm. vm_compute. repeat split.
Defined.

Example group_instruments_example :
  let clock := fun _ : nat => sample_now in
  let mk d := sample_instrument "" (mkDatetime 2026 11 d 0) 50000 true 10 in
  fst (group_instruments [mk 5; mk 6; mk 13; mk 27; mk 20]%Z clock 0%nat)
  = mkGroups [mk 6; mk 20]%Z [mk 5]%Z [mk 13]%Z [mk 27]%Z.
Proof. vm_compute. reflexivity. Qed.

(** ** Dictionaries whose key equality is an equivalence *)

Section DictEquiv.
Context {K V : Type} (keq : K -> K -> bool).
Hypothesis keq_refl : forall k, keq k k = true.
Hypothesis keq_sym : forall k k', keq k k' = keq k' k.
Hypothesis keq_trans :
  forall a b c, keq a b = true -> keq b c = true -> keq a c = true.

Lemma keq_congr (a b c : K) : keq a b = true -> keq c a = keq c b.
Proof.
  intro H. destruct (keq c a) eqn:E1, (keq c b) eqn:E2; trivial.
  - rewrite (keq_trans c a b E1 H) in E2. discriminate.
  - rewrite keq_sym in H. rewrite (keq_trans c b a E2 H) in E1. discriminate.
Qed.

Lemma dict_get_keq (d : dict K V) (k k' : K) :
  keq k k' = true -> dict_get keq d k = dict_get keq d k'.
Proof.
  intro H. induction d as [|[k0 v0] r IH]; simpl; [reflexivity|].
  rewrite (keq_congr k k' k0 H), IH. reflexivity.
Qed.

Lemma dict_get_set (d : dict K V) (k k' : K) (v : V) :
  dict_get keq (dict_set keq d k v) k'
  = if keq k k' then Some v else dict_get keq d k'.
Proof.
  induction d as [|[k0 v0] r IH]; simpl; [reflexivity|].
  destruct (keq k0 k) eqn:E; simpl.
  - rewrite (keq_sym k0 k'), (keq_sym k k'), (keq_congr k0 k k' E).
    destruct (keq k' k); reflexivity.
  - rewrite IH. destruct (keq k0 k') eqn:E'; [|reflexivity].
    destruct (keq k k') eqn:E''; [|reflexivity].
    rewrite keq_sym in E''. rewrite (keq_trans k0 k' k E' E'') in E. discriminate.
Qed.

Lemma dict_get_default_set (d : dict K V) (k k' : K) (v dflt : V) :
  dict_get_default keq (dict_set keq d k v) k' dflt
  = if keq k k' then v else dict_get_default keq d k' dflt.
Proof.
  unfold dict_get_default. rewrite dict_get_set. destruct (keq k k'); reflexivity.
Qed.

Lemma dict_mem_set (d : dict K V) (k k' : K) (v : V) :
  dict_mem keq (dict_set keq d k v) k' = keq k k' || dict_mem keq d k'.
Proof.
  unfold dict_mem. rewrite dict_get_set. destruct (keq k k'); reflexivity.
Qed.

Lemma dict_wf_set (d : dict K V) (k : K) (v : V) :
  dict_wf keq d -> dict_wf keq (dict_set keq d k v).
Proof.
  induction d as [|[k0 v0] r IH]; simpl; [auto|].
  intros [Hn Hw]. destruct (keq k0 k) eqn:E; simpl; [auto|].
  split; [|apply IH; exact Hw].
  rewrite dict_get_set, keq_sym, E. exact Hn.
Qed.

Lemma dict_wf_update (items : list (K * V)) (d : dict K V) :
  dict_wf keq d -> dict_wf keq (dict_update keq d items).
Proof.
  unfold dict_update. revert d. induction items as [|[k v] r IH]; intros d Hw; simpl.
  - exact Hw.
  - apply IH, dict_wf_set, Hw.
Qed.

Lemma dict_get_In (d : dict K V) (k : K) (v : V) :
  dict_get keq d k = Some v -> exists k', In (k', v) d /\ keq k' k = true.
Proof.
  induction d as [|[k0 v0] r IH]; simpl; [discriminate|].
  destruct (keq k0 k) eqn:E.
  - intros [= <-]. exists k0. auto.
  - intro H. destruct (IH H) as [k' [Hin Hk]]. exists k'. auto.
Qed.

Lemma dict_wf_In_get (d : dict K V) (k : K) (v : V) :
  dict_wf keq d -> In (k, v) d -> dict_get keq d k = Some v.
Proof.
  induction d as [|[k0 v0] r IH]; simpl; [tauto|].
  intros [Hn Hw] [[= -> ->] | Hin].
  - rewrite keq_refl. reflexivity.
  - specialize (IH Hw Hin). destruct (keq k0 k) eqn:E; [|exact IH].
    rewrite (dict_get_keq r k0 k E) in Hn. congruence.
Qed.

Lemma dict_keys_set_origin (d : dict K V) (k k' : K) (v : V) :
  In k' (dict_keys (dict_set keq d k v)) -> In k' (dict_keys d) \/ k' = k.
Proof.
  rewrite dict_keys_set. destruct (dict_mem keq d k); [auto|].
  rewrite in_app_iff. simpl. intuition.
Qed.

End DictEquiv.

Lemma Qeq_bool_sym' (x y : Q) : Qeq_bool x y = Qeq_bool y x.
Proof.
  destruct (Qeq_bool x y) eqn:E1, (Qeq_bool y x) eqn:E2; trivial.
  - apply Qeq_bool_iff in E1. apply Qeq_bool_false in E2. symmetry in E1. tauto.
  - apply Qeq_bool_iff in E2. apply Qeq_bool_false in E1. symmetry in E2. tauto.
Qed.

Lemma Qeq_bool_trans' (a b c : Q) :
  Qeq_bool a b = true -> Qeq_bool b c = true -> Qeq_bool a c = true.
Proof. rewrite !Qeq_bool_iff. intros -> ->. reflexivity. Qed.

Lemma string_eqb_trans (a b c : string) :
  String.eqb a b = true -> String.eqb b c = true -> String.eqb a c = true.
Proof. rewrite !String.eqb_eq. congruence. Qed.

(** ** Gamma wall *)

Lemma gamma_step_ok (spot_price : Q) (d : dict Q Q) (i : Instrument) :
  ~ spot_price == 0 -> 0 < open_interest i ->
  exists c,
    c == gamma_contribution spot_price i
    /\ gamma_step spot_price d i
       = ok (dict_set Qeq_bool d (strike i)
                      (dict_get_default Qeq_bool d (strike i) 0 + c)).
Proof.
  intros Hs Hoi. unfold gamma_step, gamma_contribution, gamma_weight_of.
  apply Qlt_not_le in Hoi. destruct (Qle_bool (open_interest i) 0) eqn:E;
    [apply Qle_bool_iff in E; contradiction|].
  rewrite py_div_ok by exact Hs. cbv beta iota delta [bind_result ok].
  set (m := Qabs (spot_price - strike i) / spot_price).
  assert (Hw : py_max (1#10) (1 - m * 5) == Qmax (1#10) (1 - 5 * m)).
  { rewrite py_max_Qmax. apply Q.max_compat; [reflexivity | ring]. }
  destruct (is_call i); eexists; (split; [|reflexivity]).
  - rewrite Hw. reflexivity.
  - rewrite Hw. ring.
Qed.

Lemma gamma_fold_spec (spot_price : Q) (l : list Instrument) :
  ~ spot_price == 0 ->
  (forall i, In i l -> 0 < open_interest i) ->
  forall d, dict_wf Qeq_bool d ->
  exists d',
    fold_result (gamma_step spot_price) l d = ok d'
    /\ dict_wf Qeq_bool d'
    /\ (forall s, dict_get_default Qeq_bool d' s 0
                  == dict_get_default Qeq_bool d s 0 + net_gamma spot_price l s)
    /\ (forall k, In k (dict_keys d') ->
                  In k (dict_keys d) \/ exists i, In i l /\ strike i = k)
    /\ (forall k, dict_mem Qeq_bool d k = true -> dict_mem Qeq_bool d' k = true)
    /\ (forall i, In i l -> dict_mem Qeq_bool d' (strike i) = true).
Proof.
  intros Hs. induction l as [|i r IH]; intros Hl d Hw.
  - exists d. split; [reflexivity|]. split; [exact Hw|].
    split; [|split; [|split]].
    + intro s. unfold net_gamma, sum_where. ring.
    + auto.
    + auto.
    + intros i [].
  - pose proof (Hl i (or_introl eq_refl)) as Hoi.
    destruct (gamma_step_ok spot_price d i Hs Hoi) as [c [Hc Hstep]].
    set (d1 := dict_set Qeq_bool d (strike i)
                        (dict_get_default Qeq_bool d (strike i) 0 + c)) in *.
    assert (Hw1 : dict_wf Qeq_bool d1)
      by (apply dict_wf_set; [apply Qeq_bool_sym' | apply Qeq_bool_trans' | exact Hw]).
    destruct (IH (fun j Hj => Hl j (or_intror Hj)) d1 Hw1)
      as [d' [Hfold [Hw' [Hsum [Hkeys [Hmono Hmem]]]]]].
    exists d'. simpl. rewrite Hstep. simpl. rewrite Hfold.
    split; [reflexivity|]. split; [exact Hw'|].
    split; [|split; [|split]].
    + intro s. rewrite Hsum. unfold net_gamma. simpl.
      fold (net_gamma spot_price r s).
      unfold d1. rewrite dict_get_default_set
        by (first [apply Qeq_bool_sym' | apply Qeq_bool_trans']).
      destruct (Qeq_bool (strike i) s) eqn:E.
      * unfold dict_get_default.
        rewrite (dict_get_keq Qeq_bool Qeq_bool_sym' Qeq_bool_trans' d (strike i) s E).
        rewrite Hc. ring.
      * ring.
    + intros k Hk. destruct (Hkeys k Hk) as [Hk1 | [j [Hj <-]]].
      * apply dict_keys_set_origin in Hk1. destruct Hk1 as [Hk1 | ->]; [auto|].
        right. exists i. simpl. auto.
      * right. exists j. simpl. auto.
    + intros k Hk. apply Hmono. unfold d1.
      rewrite dict_mem_set by (first [apply Qeq_bool_sym' | apply Qeq_bool_trans']).
      rewrite Hk. apply orb_true_r.
    + intros j [<- | Hj]; [|apply Hmem; exact Hj].
      apply Hmono. unfold d1.
      rewrite dict_mem_set by (first [apply Qeq_bool_sym' | apply Qeq_bool_trans']).
      rewrite (proj2 (Qeq_bool_iff _ _) (Qeq_refl _)). reflexivity.
Qed.

(** C5, as the code has it. For a non-empty list of 0DTE instruments with
    positive open interest and a positive spot price, the gamma wall is the
    strike of one of the instruments, no strike has a net contribution of
    greater absolute value, and the level is named "Short Gamma" when the
    net contribution at the wall is negative and "Long Gamma" otherwise.
    An instrument contributes its weight times its open interest, negated
    when it is not a call, whether it is a put or not. *)
Theorem C5_gamma_wall_max_abs_net
  (instruments : list Instrument) (spot_price : Q) :
  instruments <> [] ->
  0 < spot_price ->
  (forall i, In i instruments -> 0 < open_interest i) ->
  exists (wall : Q) (label : string),
    calculate_gamma_wall instruments spot_price
    = ok [(("Gamma Wall (" ++ label ++ ")")%string, wall)]
    /\ (exists i, In i instruments /\ strike i = wall)
    /\ (forall i, In i instruments ->
          Qabs (net_gamma spot_price instruments (strike i))
          <= Qabs (net_gamma spot_price instruments wall))
    /\ (net_gamma spot_price instruments wall < 0 -> label = "Short Gamma")
    /\ (0 <= net_gamma spot_price instruments wall -> label = "Long Gamma").
Proof.
  intros Hne Hspot Hall.
  assert (Hs : ~ spot_price == 0) by lra.
  destruct (gamma_fold_spec spot_price instruments Hs Hall [] I)
    as [d [Hfold [Hw [Hsum [Hkeys [_ Hmem]]]]]].
  assert (Hnet : forall k v, In (k, v) d -> v == net_gamma spot_price instruments k).
  { intros k v Hin. specialize (Hsum k). unfold dict_get_default in Hsum at 1.
    rewrite (dict_wf_In_get Qeq_bool Qeq_bool_refl Qeq_bool_sym' Qeq_bool_trans'
               d k v Hw Hin) in Hsum.
    rewrite Hsum. unfold dict_get_default. simpl. ring. }
  unfold calculate_gamma_wall.
  destruct instruments as [|i0 r] eqn:Hi; [congruence|]. rewrite <- Hi in *.
  rewrite Hfold. cbv beta iota delta [bind_result ok].
  destruct (max_key (fun x => Qabs (snd x)) d) as [[wall v]|] eqn:Hmax.
  2:{ assert (Hm := Hmem i0). rewrite Hi in Hm. specialize (Hm (or_introl eq_refl)).
      destruct d; [discriminate Hm | discriminate Hmax]. }
  apply max_key_spec in Hmax. destruct Hmax as [Hin Hbest]. simpl fst.
  assert (Hv : dict_get_default Qeq_bool d wall 0 = v).
  { unfold dict_get_default.
    rewrite (dict_wf_In_get Qeq_bool Qeq_bool_refl Qeq_bool_sym' Qeq_bool_trans'
               d wall v Hw Hin). reflexivity. }
  rewrite Hv. pose proof (Hnet wall v Hin) as Hvnet.
  exists wall, (if Qlt_bool v 0 then "Short Gamma" else "Long Gamma")%string.
  split; [reflexivity|]. split; [|split; [|split]].
  - destruct (Hkeys wall) as [[] | Hex]; [|exact Hex].
    apply in_map_iff. exists (wall, v). auto.
  - intros i Hini. specialize (Hmem i Hini). unfold dict_mem in Hmem.
    destruct (dict_get Qeq_bool d (strike i)) as [vi|] eqn:Hget; [|discriminate].
    destruct (dict_get_In Qeq_bool d (strike i) vi Hget) as [k' [Hin' Hk']].
    apply Qeq_bool_iff in Hk'.
    specialize (Hbest (k', vi) Hin'). simpl in Hbest.
    pose proof (Hnet k' vi Hin') as Hvi.
    assert (Hk : net_gamma spot_price instruments k'
                 == net_gamma spot_price instruments (strike i)).
    { clear - Hk'. unfold net_gamma. induction instruments as [|j r IH]; simpl.
      - reflexivity.
      - rewrite IH.
        assert (Hb : Qeq_bool (strike j) k' = Qeq_bool (strike j) (strike i)).
        { apply keq_congr; [apply Qeq_bool_sym' | apply Qeq_bool_trans'|].
          apply Qeq_bool_iff. exact Hk'. }
        rewrite Hb. reflexivity. }
    rewrite <- Hk, <- Hvi, <- Hvnet. exact Hbest.
  - intro Hneg. rewrite <- Hvnet in Hneg. apply Qlt_bool_iff in Hneg.
    rewrite Hneg. reflexivity.
  - intro Hpos. rewrite <- Hvnet in Hpos. apply Qlt_bool_false in Hpos.
    rewrite Hpos. reflexivity.
Qed.

Lemma C5_gamma_wall_witness :
  sample_0dte <> []
  /\ 0 < 100
  /\ (forall i, In i sample_0dte -> 0 < open_interest i)
  /\ exists (wall : Q) (label : string),
       calculate_gamma_wall sample_0dte 100
       = ok [(("Gamma Wall (" ++ label ++ ")")%string, wall)]
       /\ (exists i, In i sample_0dte /\ strike i = wall)
       /\ (forall i, In i sample_0dte ->
             Qabs (net_gamma 100 sample_0dte (strike i))
             <= Qabs (net_gamma 100 sample_0dte wall))
       /\ (net_gamma 100 sample_0dte wall < 0 -> label = "Short Gamma")
       /\ (0 <= net_gamma 100 sample_0dte wall -> label = "Long Gamma").
Proof.
  assert (H : forall i, In i sample_0dte -> 0 < open_interest i).
  { intros i [<- | [<- | [<- | []]]]; reflexivity. }
  split; [discriminate|]. split; [reflexivity|]. split; [exact H|].
  apply (C5_gamma_wall_max_abs_net sample_0dte 100);
    [discriminate | reflexivity | exact H].
Defined.

(** C5, as stated, fails: "negated for puts" leaves the contribution of an
    instrument that is not a put as it is.  The parser makes an instrument
    that is neither a call nor a put of a name that ends in a small [c];
    alone with a positive open interest, its weight times its open interest
    is positive, which would make the wall "Long Gamma", and the code names
    it "Short Gamma". *)
Lemma C5_negated_without_being_a_put :
  ~ (forall (instruments : list Instrument) (spot_price : Q) (i : Instrument),
       instruments = [i] -> 0 < spot_price -> 0 < open_interest i ->
       is_put i = false ->
       calculate_gamma_wall instruments spot_price
       = ok [("Gamma Wall (Long Gamma)", strike i)]).
Proof.
  intro H.
  specialize (H (enhance_instruments [mkSummary "BTC-05NOV26-100-c" 7 1 60]) 100
                (mkInstrument "BTC-05NOV26-100-c" "BTC"
                   (Some (mkDatetime 2026 11 5 0)) 100 "c" false false 7 1 60)
                eq_refl eq_refl eq_refl eq_refl).
  vm_compute in H. discriminate H.
Qed.

Example calculate_gamma_wall_example :
  calculate_gamma_wall sample_0dte 100 = ok [("Gamma Wall (Short Gamma)", 95)].
Proof. vm_compute. reflexivity. Qed.

(** ** TradeDeduplicator *)

Lemma string_eqb_sym (a b : string) : String.eqb a b = String.eqb b a.
Proof. apply String.eqb_sym. Qed.

Lemma unique_trades_of_concat (chunks : list (list Trade)) :
  unique_trades_of chunks = fold_left dedupe_trade (List.concat chunks) [].
Proof.
  unfold unique_trades_of. generalize (@nil (string * Trade)) as u.
  induction chunks as [|c r IH]; intro u; simpl; [reflexivity|].
  rewrite fold_left_app. apply IH.
Qed.

Lemma dedupe_get (l : list Trade) (u : dict string Trade) (id : string) :
  dict_get String.eqb (fold_left dedupe_trade l u) id
  = match dict_get String.eqb u id with
    | Some t => Some t
    | None => if String.eqb id "" then None else first_with_id id l
    end.
Proof.
  revert u. induction l as [|t r IH]; intro u; simpl.
  - destruct (dict_get String.eqb u id); [reflexivity|].
    destruct (String.eqb id ""); reflexivity.
  - rewrite IH. unfold dedupe_trade, first_with_id, has_id. simpl.
    destruct (trade_id t) as [i|]; [|reflexivity].
    unfold dict_mem.
    destruct (String.eqb i "") eqn:Ei; simpl.
    + apply String.eqb_eq in Ei. subst i.
      destruct (dict_get String.eqb u id); [reflexivity|].
      rewrite (string_eqb_sym "" id). destruct (String.eqb id ""); reflexivity.
    + destruct (dict_get String.eqb u i) eqn:Eu; simpl.
      * destruct (dict_get String.eqb u id) eqn:Eid; [reflexivity|].
        destruct (String.eqb i id) eqn:E; [|reflexivity].
        apply String.eqb_eq in E. subst i. congruence.
      * rewrite (dict_get_set String.eqb string_eqb_sym string_eqb_trans).
        destruct (String.eqb i id) eqn:E.
        -- apply String.eqb_eq in E. subst i. rewrite Eu, Ei. reflexivity.
        -- reflexivity.
Qed.

Lemma dedupe_wf (l : list Trade) (u : dict string Trade) :
  dict_wf String.eqb u -> dict_wf String.eqb (fold_left dedupe_trade l u).
Proof.
  revert u. induction l as [|t r IH]; intros u Hw; simpl; [exact Hw|].
  apply IH. unfold dedupe_trade. destruct (trade_id t) as [i|]; [|exact Hw].
  destruct (_ && _); [|exact Hw].
  apply dict_wf_set; [apply string_eqb_sym | apply string_eqb_trans | exact Hw].
Qed.

Lemma dict_wf_NoDup {V} (d : dict string V) :
  dict_wf String.eqb d -> NoDup (dict_keys d).
Proof.
  induction d as [|[k v] r IH]; simpl; intro H; constructor.
  - destruct H as [Hn _]. intro Hin. apply in_map_iff in Hin.
    destruct Hin as [[k' v'] [Hk Hin]]. simpl in Hk. subst k'.
    clear -Hn Hin. induction r as [|[a b] r IH]; simpl in *; [tauto|].
    destruct Hin as [[= -> ->] | Hin].
    + rewrite String.eqb_refl in Hn. discriminate.
    + destruct (String.eqb a k); [discriminate | auto].
  - apply IH, H.
Qed.

Lemma dict_keys_get {V} (d : dict string V) (k : string) :
  In k (dict_keys d) <-> dict_get String.eqb d k <> None.
Proof.
  induction d as [|[a b] r IH]; simpl; [tauto|].
  destruct (String.eqb a k) eqn:E.
  - apply String.eqb_eq in E. split; [discriminate | auto].
  - apply String.eqb_neq in E. rewrite <- IH. tauto.
Qed.

Lemma first_with_id_some (id : string) (l : list Trade) :
  first_with_id id l <> None <-> exists t, In t l /\ trade_id t = Some id.
Proof.
  unfold first_with_id. split.
  - destruct (find (has_id id) l) as [t|] eqn:E; [|congruence].
    intros _. apply find_some in E. destruct E as [Hin Hid].
    exists t. split; [exact Hin|]. unfold has_id in Hid.
    destruct (trade_id t) as [i|]; [|discriminate].
    apply String.eqb_eq in Hid. congruence.
  - intros [t [Hin Hid]] E.
    apply (find_none _ _ E) in Hin. unfold has_id in Hin.
    rewrite Hid, String.eqb_refl in Hin. discriminate.
Qed.

Lemma truthy_ids_In (id : string) (l : list Trade) :
  In id (truthy_ids l) <-> id <> "" /\ exists t, In t l /\ trade_id t = Some id.
Proof.
  unfold truthy_ids. rewrite in_flat_map. split.
  - intros [t [Hin Hid]]. destruct (trade_id t) as [i|] eqn:E; [|destruct Hid].
    destruct (String.eqb i "") eqn:Ei; [destruct Hid|].
    destruct Hid as [<- | []]. apply String.eqb_neq in Ei. eauto.
  - intros [Hne [t [Hin Hid]]]. exists t. split; [exact Hin|].
    rewrite Hid. apply String.eqb_neq in Hne. rewrite Hne. left. reflexivity.
Qed.

(** C6, as the code has it. The deduplication keeps one entry per distinct
    identifier that is present and not empty, and each such identifier maps
    to the first trade that carries it, in the order of the pages; a trade
    whose identifier is missing, null or empty is skipped.  The trades that
    the retrieval returns are the values of that mapping. *)
Theorem C6_dedup_first_seen_wins (chunks : list (list Trade)) :
  let unique_trades := unique_trades_of chunks in
  let trades := List.concat chunks in
  NoDup (dict_keys unique_trades)
  /\ (forall id, In id (dict_keys unique_trades) <->
                 id <> "" /\ exists t, In t trades /\ trade_id t = Some id)
  /\ (forall id, dict_get String.eqb unique_trades id
                 = if String.eqb id "" then None else first_with_id id trades)
  /\ List.length unique_trades
     = List.length (nodup string_dec (truthy_ids trades))
  /\ (forall t, In t (dict_values unique_trades) ->
                exists id, trade_id t = Some id /\ id <> "")
  /\ (forall all_trades,
        fetch_complete_options_trades chunks = ok all_trades ->
        all_trades = dict_values unique_trades).
Proof.
  cbv zeta.
  assert (Hfetch : forall all_trades,
             fetch_complete_options_trades chunks = ok all_trades ->
             all_trades = dict_values (unique_trades_of chunks)).
  { intro all_trades. unfold fetch_complete_options_trades. cbv zeta.
    destruct (coverage_hours _) as [e|c]; [discriminate|].
    cbv beta iota delta [bind_result ok]. congruence. }
  revert Hfetch. rewrite unique_trades_of_concat. intro Hfetch.
  set (l := List.concat chunks).
  assert (Hget : forall id,
             dict_get String.eqb (fold_left dedupe_trade l []) id
             = if String.eqb id "" then None else first_with_id id l).
  { intro id. rewrite dedupe_get. reflexivity. }
  assert (Hnd : NoDup (dict_keys (fold_left dedupe_trade l [])))
    by (apply dict_wf_NoDup, dedupe_wf; exact I).
  assert (Hkeys : forall id, In id (dict_keys (fold_left dedupe_trade l [])) <->
                             id <> "" /\ exists t, In t l /\ trade_id t = Some id).
  { intro id. rewrite dict_keys_get, Hget.
    destruct (String.eqb id "") eqn:E.
    - apply String.eqb_eq in E. tauto.
    - apply String.eqb_neq in E. rewrite first_with_id_some. tauto. }
  split; [exact Hnd|]. split; [exact Hkeys|]. split; [exact Hget|].
  split; [|split; [|exact Hfetch]].
  - rewrite <- (length_map fst). apply Permutation_length.
    apply NoDup_Permutation; [exact Hnd | apply NoDup_nodup|].
    intro id. rewrite nodup_In, truthy_ids_In. apply Hkeys.
  - intros t Hin. unfold dict_values in Hin.
    apply in_map_iff in Hin. destruct Hin as [[id t'] [Ht Hin]]. simpl in Ht. subst t'.
    assert (Hw : dict_wf String.eqb (fold_left dedupe_trade l []))
      by (apply dedupe_wf; exact I).
    pose proof (dict_wf_In_get String.eqb String.eqb_refl string_eqb_sym
                  string_eqb_trans _ id t Hw Hin) as Hg.
    rewrite Hget in Hg. exists id.
    destruct (String.eqb id "") eqn:E; [discriminate|].
    apply String.eqb_neq in E. split; [|exact E].
    unfold first_with_id in Hg. apply find_some in Hg. destruct Hg as [_ Hid].
    unfold has_id in Hid. destruct (trade_id t) as [i|]; [|discriminate].
    apply String.eqb_eq in Hid. congruence.
Qed.

Lemma C6_dedup_witness :
  In "a" (dict_keys (unique_trades_of sample_chunks))
  /\ dict_get String.eqb (unique_trades_of sample_chunks) "a"
     = Some (sample_trade (Some "a") "BTC-05NOV26-100-C" 1 1 "buy")
  /\ List.length (unique_trades_of sample_chunks) = 3%nat.
Proof.
  destruct (C6_dedup_first_seen_wins sample_chunks) as [_ [Hk [Hg [Hl _]]]].
  split; [|split].
  - apply Hk. split; [discriminate|].
    exists (sample_trade (Some "a") "BTC-05NOV26-100-C" 1 1 "buy").
    split; [left; reflexivity | reflexivity].
  - rewrite Hg. reflexivity.
  - rewrite Hl. reflexivity.
Defined.

(** C6, as stated, fails: an identifier that is present and not null, the
    empty string, gets no entry. *)
Lemma C6_empty_id_has_no_entry :
  ~ (forall (chunks : list (list Trade)) (id : string) (t : Trade),
       first_with_id id (List.concat chunks) = Some t ->
       dict_get String.eqb (unique_trades_of chunks) id = Some t).
Proof.
  intro H.
  specialize (H [[sample_trade (Some "") "BTC-05NOV26-100-C" 1 1 "buy"]] ""
                (sample_trade (Some "") "BTC-05NOV26-100-C" 1 1 "buy") eq_refl).
  vm_compute in H. discriminate.
Qed.

(** ** Empty inputs and the missing spot price *)

Lemma fold_result_ok {A S} (f : S -> A -> result S) :
  (forall s x, exists s', f s x = ok s') ->
  forall l s, exists s', fold_result f l s = ok s'.
Proof.
  intros Hf l. induction l as [|x r IH]; intro s; simpl; [eauto|].
  destruct (Hf s x) as [s1 ->]. simpl. apply IH.
Qed.

Lemma calculate_atm_iv_ok (spot_price : Q) (l : list Instrument) :
  ~ spot_price == 0 -> exists iv, calculate_atm_iv spot_price l = ok iv.
Proof.
  intro Hs. unfold calculate_atm_iv. destruct l as [|i r]; [eauto|].
  match goal with
  | |- context [fold_result ?f ?l0 ?s0] =>
      assert (Hf : exists ivs, fold_result f l0 s0 = ok ivs)
  end.
  { apply fold_result_ok. intros s x. rewrite py_div_ok by exact Hs. cbv beta iota delta [bind_result ok].
    destruct (Qlt_bool _ _); [destruct (Qlt_bool _ _)|]; eauto. }
  destruct Hf as [ivs ->]. cbv beta iota delta [bind_result ok]. eauto.
Qed.

Lemma gamma_step_total (spot_price : Q) (d : dict Q Q) (i : Instrument) :
  ~ spot_price == 0 -> exists d', gamma_step spot_price d i = ok d'.
Proof.
  intro Hs. unfold gamma_step. destruct (Qle_bool _ _); [eauto|].
  rewrite py_div_ok by exact Hs. cbv beta iota delta [bind_result ok]. eauto.
Qed.

Lemma calculate_gamma_wall_ok (spot_price : Q) (l : list Instrument) :
  ~ spot_price == 0 -> exists lv, calculate_gamma_wall l spot_price = ok lv.
Proof.
  intro Hs. unfold calculate_gamma_wall. destruct l as [|i r]; [eauto|].
  destruct (fold_result_ok (gamma_step spot_price)
              (fun s x => gamma_step_total spot_price s x Hs) (i :: r) [])
    as [d ->].
  cbv beta iota delta [bind_result ok]. destruct (max_key _ d); eauto.
Qed.

Lemma option_levels_of_groups_ok (g : Groups) (spot_price : Q) :
  ~ spot_price == 0 -> exists oa, option_levels_of_groups g spot_price = ok oa.
Proof.
  intro Hs. unfold option_levels_of_groups.
  destruct (calculate_atm_iv_ok spot_price (current_instruments g) Hs) as [iv1 ->].
  destruct (calculate_atm_iv_ok spot_price (dte0_instruments g) Hs) as [iv2 ->].
  destruct (calculate_atm_iv_ok spot_price (week1_instruments g) Hs) as [iv3 ->].
  destruct (calculate_atm_iv_ok spot_price (month1_instruments g) Hs) as [iv4 ->].
  cbv beta iota delta [bind_result ok].
  destruct (process_timeframe spot_price (current_instruments g) _ _)
    as [[[[? ?] ?] ?] ?].
  destruct (process_timeframe spot_price (dte0_instruments g) _ _)
    as [[[[? ?] ?] ?] ?].
  destruct (process_timeframe spot_price (week1_instruments g) _ _)
    as [[[[? ?] ?] ?] ?].
  destruct (process_timeframe spot_price (month1_instruments g) _ _)
    as [[[[? ?] ?] ?] ?].
  destruct (calculate_gamma_wall_ok spot_price (dte0_instruments g) Hs) as [gw ->].
  eexists. reflexivity.
Qed.

Lemma calculate_option_levels_ok (l : list Instrument) (spot_price : Q)
  (clock : nat -> datetime) (t : nat) :
  ~ spot_price == 0 ->
  exists oa t', calculate_option_levels l spot_price clock t = (ok oa, t').
Proof.
  intro Hs. unfold calculate_option_levels. destruct l as [|i r].
  - exists [], t. reflexivity.
  - unfold bind, ret. destruct (group_instruments (i :: r) clock t) as [g t'].
    destruct (option_levels_of_groups_ok g spot_price Hs) as [oa ->]. eauto.
Qed.

Lemma py_round_bounds (x : Q) (n : Z) :
  (0 <= x -> (0 <= py_round x)%Z)
  /\ (x <= inject_Z n -> (py_round x <= n)%Z).
Proof.
  unfold py_round.
  pose proof (Qfloor_le x) as Hlo. pose proof (Qlt_floor x) as Hhi.
  rewrite inject_Z_plus in Hhi. change (inject_Z 1) with 1 in Hhi.
  assert (Hf0 : 0 <= x -> (0 <= Qfloor x)%Z).
  { intro H. change 0%Z with (Qfloor 0). apply Qfloor_resp_le. exact H. }
  assert (Hfn : x <= inject_Z n -> (Qfloor x <= n)%Z).
  { intro H. rewrite <- (Qfloor_Z n). apply Qfloor_resp_le. exact H. }
  split; intro H.
  - specialize (Hf0 H).
    destruct (Qlt_bool _ _); [lia|]. destruct (Qlt_bool _ _); [lia|].
    destruct (Z.even _); lia.
  - specialize (Hfn H).
    destruct (Qlt_bool (x - inject_Z (Qfloor x)) (1#2)) eqn:E1; [lia|].
    apply Qlt_bool_false in E1.
    assert (Hlt : (Qfloor x < n)%Z).
    { destruct (Z.eq_dec (Qfloor x) n) as [He|Hne]; [|lia].
      exfalso. rewrite He in *. lra. }
    destruct (Qlt_bool _ _); [lia|]. destruct (Z.even _); lia.
Qed.

Section CalendarRange.
Import Calendar.
Local Open Scope Z_scope.

(** The ordinals from 1 January 1970 to 31 December 9999 are dates of the
    years 1970 to 9999. *)
Lemma ord2ymd_year (n : Z) :
  719163 <= n <= 3652059 ->
  let '(y, m, d) := ord2ymd n in 1970 <= y <= 9999.
Proof.
  intro H. unfold ord2ymd, DI400Y, DI100Y, DI4Y.
  set (a := n - 1).
  pose proof (Z.div_mod a 146097 ltac:(lia)) as E1.
  pose proof (Z.mod_pos_bound a 146097 ltac:(lia)) as B1.
  set (n400 := a / 146097) in *. set (r1 := a mod 146097) in *.
  pose proof (Z.div_mod r1 36524 ltac:(lia)) as E2.
  pose proof (Z.mod_pos_bound r1 36524 ltac:(lia)) as B2.
  set (n100 := r1 / 36524) in *. set (r2 := r1 mod 36524) in *.
  pose proof (Z.div_mod r2 1461 ltac:(lia)) as E3.
  pose proof (Z.mod_pos_bound r2 1461 ltac:(lia)) as B3.
  set (n4 := r2 / 1461) in *. set (r3 := r2 mod 1461) in *.
  pose proof (Z.div_mod r3 365 ltac:(lia)) as E4.
  pose proof (Z.mod_pos_bound r3 365 ltac:(lia)) as B4.
  set (n1 := r3 / 365) in *. set (r4 := r3 mod 365) in *.
  assert (Ha : 719162 <= a <= 3652058) by (unfold a; lia).
  clearbody a n400 r1 n100 r2 n4 r3 n1 r4.
  destruct ((n1 =? 4) || (n100 =? 4)) eqn:Ec.
  - apply orb_true_iff in Ec. rewrite !Z.eqb_eq in Ec. lia.
  - apply orb_false_iff in Ec. rewrite !Z.eqb_neq in Ec.
    match goal with
    | |- context [if ?c then _ else _] => destruct c
    end; lia.
Qed.

Lemma fromtimestamp_ok (ms : Q) :
  (0 < ms)%Q -> (ms <= MAX_TIMESTAMP)%Q ->
  exists d, fromtimestamp (ms / 1000) = ok d.
Proof.
  intros H0 Hmax. unfold fromtimestamp.
  assert (Hx : (ms / 1000 * 1000000 == ms * 1000)%Q) by (field).
  destruct (py_round_bounds (ms / 1000 * 1000000) 253402300799999000) as [Hlo Hhi].
  assert (Hlo' : 0 <= py_round (ms / 1000 * 1000000)).
  { apply Hlo. rewrite Hx. lra. }
  assert (Hhi' : py_round (ms / 1000 * 1000000) <= 253402300799999000).
  { apply Hhi. rewrite Hx. unfold MAX_TIMESTAMP in Hmax.
    change (inject_Z 253402300799999000) with (253402300799999 * 1000)%Q. lra. }
  set (us := py_round (ms / 1000 * 1000000)) in *. clearbody us.
  assert (Hw : 0 <= us / 1000000 <= 253402300799999000 / 1000000).
  { split; [apply Z.div_pos; lia | apply Z.div_le_mono; lia]. }
  change (253402300799999000 / 1000000) with 253402300799 in Hw.
  destruct ((us / 1000000 <? - 2 ^ 63) || (2 ^ 63 <? us / 1000000)) eqn:E1.
  { apply orb_true_iff in E1. rewrite !Z.ltb_lt in E1.
    change (2 ^ 63) with 9223372036854775808 in E1. lia. }
  assert (Hd : 0 <= us / US_PER_DAY <= 253402300799999000 / US_PER_DAY).
  { unfold US_PER_DAY.
    split; [apply Z.div_pos; lia | apply Z.div_le_mono; lia]. }
  change (253402300799999000 / US_PER_DAY) with 2932896 in Hd.
  change (toordinal epoch) with 719163.
  pose proof (ord2ymd_year (719163 + us / US_PER_DAY) ltac:(lia)) as Hy.
  destruct (ord2ymd (719163 + us / US_PER_DAY)) as [[y m] d].
  destruct ((y - 1900 <? - 2 ^ 31) || (2 ^ 31 <=? y - 1900)) eqn:E2.
  { apply orb_true_iff in E2. rewrite Z.ltb_lt, Z.leb_le in E2.
    change (2 ^ 31) with 2147483648 in E2. lia. }
  destruct (2 ^ 31 <=? y) eqn:E3.
  { apply Z.leb_le in E3. change (2 ^ 31) with 2147483648 in E3. lia. }
  destruct ((y <? 1) || (9999 <? y)) eqn:E4.
  { apply orb_true_iff in E4. rewrite !Z.ltb_lt in E4. lia. }
  eauto.
Qed.

End CalendarRange.

Lemma unique_trades_sub (chunks : list (list Trade)) (t : Trade) :
  In t (dict_values (unique_trades_of chunks)) -> In t (List.concat chunks).
Proof.
  rewrite unique_trades_of_concat. set (l := List.concat chunks).
  unfold dict_values. intro Hin.
  apply in_map_iff in Hin. destruct Hin as [[id t'] [Ht Hin]]. simpl in Ht. subst t'.
  assert (Hw : dict_wf String.eqb (fold_left dedupe_trade l []))
    by (apply dedupe_wf; exact I).
  pose proof (dict_wf_In_get String.eqb String.eqb_refl string_eqb_sym
                string_eqb_trans _ id t Hw Hin) as Hg.
  rewrite dedupe_get in Hg. simpl in Hg.
  destruct (String.eqb id ""); [discriminate|].
  unfold first_with_id in Hg. apply find_some in Hg. apply Hg.
Qed.

Lemma coverage_hours_ok (all_trades : list Trade) :
  (forall t, In t all_trades -> timestamp t <= MAX_TIMESTAMP) ->
  exists c, coverage_hours all_trades = ok c.
Proof.
  intro H. unfold coverage_hours. destruct all_trades as [|t0 r0]; [eauto|].
  set (l := t0 :: r0) in *. clearbody l.
  set (ts := map timestamp (filter (fun trade => Qlt_bool 0 (timestamp trade)) l)).
  assert (Hts : forall x, In x (sort_by Qle_bool ts) -> 0 < x /\ x <= MAX_TIMESTAMP).
  { intros x Hx. apply sort_by_In in Hx. unfold ts in Hx.
    apply in_map_iff in Hx. destruct Hx as [t [<- Ht]].
    apply filter_In in Ht. destruct Ht as [Hin Hpos].
    apply Qlt_bool_iff in Hpos. split; [exact Hpos | apply H; exact Hin]. }
  destruct (sort_by Qle_bool ts) as [|first rest] eqn:Es; [eauto|].
  destruct (Hts first (or_introl eq_refl)) as [H1 H2].
  destruct (fromtimestamp_ok first H1 H2) as [d1 ->].
  assert (Hlast : In (last (first :: rest) 0) (first :: rest)).
  { destruct (exists_last (l := first :: rest) ltac:(discriminate)) as [l' [a ->]].
    rewrite last_last. apply in_or_app. right. left. reflexivity. }
  destruct (Hts _ Hlast) as [H3 H4].
  destruct (fromtimestamp_ok _ H3 H4) as [d2 Hd2].
  cbv beta iota delta [bind_result ok]. rewrite Hd2.
  cbv beta iota delta [ok]. eauto.
Qed.

Lemma fetch_complete_trades_ok (chunks : list (list Trade)) :
  timestamps_in_range chunks ->
  fetch_complete_futures_trades chunks = ok (dict_values (unique_trades_of chunks))
  /\ fetch_complete_options_trades chunks = ok (dict_values (unique_trades_of chunks)).
Proof.
  intro H. unfold fetch_complete_futures_trades, fetch_complete_options_trades.
  cbv zeta.
  destruct (coverage_hours_ok (dict_values (unique_trades_of chunks))) as [c ->].
  - intros t Ht. apply H, unique_trades_sub, Ht.
  - split; reflexivity.
Qed.

(** C7. On an empty list each stage returns its empty result and raises
    nothing, and so does the retrieval of the trades on no chunk at all.
    For well-formed input, where every fetched trade is stamped no later
    than the year 9999, the whole analysis raises exactly when the spot
    price is missing or not positive: then it raises [ValueError] and
    returns no level at all (and has run no stage: the clock is not read),
    and with a positive spot price it returns its levels. *)
Theorem C7_empty_inputs_and_fatal_spot
  (py_exp : Q -> Q) (clock : nat -> datetime) (t : nat)
  (spot_price : Q) (currency_ : string) (f : Fetched) :
  analyze_complete_options_flow py_exp [] spot_price clock t = ([], t)
  /\ calculate_volume_profile_levels [] spot_price = []
  /\ calculate_option_levels [] spot_price clock t = (ok [], t)
  /\ fetch_complete_options_trades [] = ok []
  /\ fetch_complete_futures_trades [] = ok []
  /\ (fetch_index_price f <= 0 <->
      index_price f = None \/ exists p, index_price f = Some p /\ p <= 0)
  /\ (fetch_index_price f <= 0 ->
      generate_key_levels py_exp currency_ f clock t
      = (raise (ValueError ("Failed to fetch spot price for " ++ currency_)%string), t))
  /\ (0 < fetch_index_price f ->
      timestamps_in_range (futures_chunks f) ->
      timestamps_in_range (options_chunks f) ->
      exists out t',
        generate_key_levels py_exp currency_ f clock t = (ok out, t')).
Proof.
  split; [reflexivity|]. split; [reflexivity|]. split; [reflexivity|].
  split; [reflexivity|]. split; [reflexivity|].
  split; [|split].
  - unfold fetch_index_price. destruct (index_price f) as [p|].
    + split; [intro H; right; eauto|].
      intros [H | [q [[= ->] H]]]; [discriminate | exact H].
    + split; [auto | intros _; discriminate].
  - intro H. unfold generate_key_levels.
    apply Qle_bool_iff in H. rewrite H. reflexivity.
  - intros H Hfut Hopt. unfold generate_key_levels.
    assert (Hs : ~ fetch_index_price f == 0) by lra.
    apply Qle_bool_false in H. rewrite H.
    destruct (fetch_complete_trades_ok _ Hfut) as [-> _].
    destruct (fetch_complete_trades_ok _ Hopt) as [_ ->].
    cbv beta iota delta [ok].
    destruct (calculate_1d_levels (stats_24h f)) as [max_24h min_24h].
    unfold bind, ret.
    destruct (calculate_option_levels_ok
                (enhance_instruments (book_summary f)) (fetch_index_price f)
                clock t Hs) as [oa [t1 ->]].
    cbv beta iota delta [ok].
    match goal with
    | |- context [analyze_complete_options_flow ?e ?l ?s clock t1] =>
        destruct (analyze_complete_options_flow e l s clock t1) as [fl t2]
    end.
    rewrite compose_key_levels_ok by exact Hs.
    cbv beta iota delta [bind_result ok]. eauto.
Qed.

Lemma sample_timestamps_in_range :
  timestamps_in_range (futures_chunks sample_fetched)
  /\ timestamps_in_range (options_chunks sample_fetched).
Proof.
  split; intros t Hin; simpl in Hin;
    repeat (destruct Hin as [<- | Hin]; [discriminate|]); destruct Hin.
Defined.

Lemma C7_fatal_spot_witness :
  0 < fetch_index_price sample_fetched
  /\ timestamps_in_range (futures_chunks sample_fetched)
  /\ timestamps_in_range (options_chunks sample_fetched)
  /\ exists out t',
       generate_key_levels (fun _ => 1) "BTC" sample_fetched
                           (fun _ => sample_now) 0%nat
       = (ok out, t').
Proof.
  split; [reflexivity|].
  split; [apply sample_timestamps_in_range|].
  split; [apply sample_timestamps_in_range|].
  destruct (C7_empty_inputs_and_fatal_spot
              (fun _ => 1) (fun _ => sample_now) 0%nat 100 "BTC" sample_fetched)
    as [_ [_ [_ [_ [_ [_ [_ H]]]]]]].
  apply H; [reflexivity | apply sample_timestamps_in_range
            | apply sample_timestamps_in_range].
Defined.

Example generate_key_levels_example :
  match fst (generate_key_levels (fun _ => 1) "BTC" sample_fetched
               (fun _ => sample_now) 0%nat) with
  | inr (key_levels, _) => map name key_levels
  | inl _ => []
  end
  = ["HVL"; "1D Min"; "1D Max"; "VWAS"; "Put Support 0DTE";
     "Gamma Wall (Short Gamma)"; "HVS"; "Put Flow Support";
     "Call Resistance"; "Put Support"].
Proof. vm_compute. reflexivity. Qed.

Example generate_key_levels_no_spot_example :
  fst (generate_key_levels (fun _ => 1) "BTC" (mkFetched None [] [] [] [])
         (fun _ => sample_now) 0%nat)
  = raise (ValueError "Failed to fetch spot price for BTC").
Proof. vm_compute. reflexivity. Qed.

(** A trade stamped in the year 10000 ends the analysis, whatever the spot
    price. *)
Example generate_key_levels_late_stamp_example :
  fst (generate_key_levels (fun _ => 1) "BTC"
         (mkFetched (Some 100) [] [] []
            [[mkTrade (Some "a") "BTC-05NOV26-100-C" 1 1 "buy" 253402300800000]])
         (fun _ => sample_now) 0%nat)
  = raise (ValueError "year 10000 is out of range").
Proof. vm_compute. reflexivity. Qed.

Example calculate_volume_profile_levels_example :
  option_map (fun l => calculate_volume_profile_levels l 100)
    (match fetch_complete_futures_trades (futures_chunks sample_fetched) with
     | inr l => Some l
     | inl _ => None
     end)
  = Some [mkVolumeLevel "HVL" (1012 # 10) (0 + 3)].
Proof. vm_compute. reflexivity. Qed.

(** ** FlowAnalyzer: the volume-weighted average strike *)

Lemma fold_left_Qplus (l : list Q) (a : Q) :
  fold_left Qplus l a == a + fold_left Qplus l 0.
Proof.
  revert a. induction l as [|x r IH]; intro a; simpl.
  - ring.
  - rewrite (IH (a + x)), (IH (0 + x)). ring.
Qed.

Lemma py_sum_cons (x : Q) (l : list Q) : py_sum (x :: l) == x + py_sum l.
Proof. unfold py_sum. simpl. rewrite fold_left_Qplus. ring. Qed.

Lemma py_sum_app (l1 l2 : list Q) : py_sum (l1 ++ l2) == py_sum l1 + py_sum l2.
Proof.
  induction l1 as [|x r IH]; simpl.
  - unfold py_sum at 2. simpl. ring.
  - rewrite !py_sum_cons, IH. ring.
Qed.


Lemma dict_set_nonempty {K V} (keq : K -> K -> bool) (d : dict K V) (k : K) (v : V) :
  dict_set keq d k v <> [].
Proof. destruct d as [|[k0 v0] r]; simpl; [|destruct (keq k0 k)]; discriminate. Qed.

Section FlowFacts.
Variable py_exp : Q -> Q.


End FlowFacts.

Section FlowLevels.
Variable py_exp : Q -> Q.




End FlowLevels.












Example vwas_example :
  option_map (fun v => Qeq_bool v (860 # 9))
    (dict_get String.eqb
       (fst (analyze_complete_options_flow (fun _ => 1) sample_options_trades 100
               (fun _ => sample_now) 0%nat)) "VWAS")
  = Some true.
Proof. vm_compute. reflexivity. Qed.

Example vwas_omitted_example :
  dict_get String.eqb
    (fst (analyze_complete_options_flow (fun _ => 1) sample_options_trades 0
            (fun _ => sample_now) 0%nat)) "VWAS"
  = None.
Proof. vm_compute. reflexivity. Qed.

(** ** Parsing of instrument names and the side of the open interest *)

(** C10. A name with exactly four dash-separated parts, a numeric strike and
    a date that parses is parsed whatever its fourth part is, and the
    instrument is a call only when that part is exactly "C"; the open
    interest of an instrument whose fourth part is anything else is added
    to the put side of its strike, and the call side is left as it was. *)
Theorem C10_option_type_not_validated
  (s : Summary) (currency_ expiry_str strike_str option_type_ : string)
  (k : Q) (e : datetime) (call_strikes put_strikes : dict Q Q) :
  split_on "-" (s_instrument_name s)
  = [currency_; expiry_str; strike_str; option_type_] ->
  py_float strike_str = Some k ->
  strptime_dby expiry_str = Some e ->
  exists p,
    parse_instrument_name (s_instrument_name s) = Some p
    /\ p = mkParsedName currency_ e k option_type_
                        (String.eqb option_type_ "C") (String.eqb option_type_ "P")
    /\ enhance_instruments [s] = [enhance s p]
    /\ (option_type_ <> "C" -> 0 < s_open_interest s ->
        aggregate_oi (call_strikes, put_strikes) (enhance s p)
        = (call_strikes,
           dict_set Qeq_bool put_strikes k
                    (dict_get_default Qeq_bool put_strikes k 0 + s_open_interest s)))
    /\ (option_type_ <> "C" -> 0 <= s_open_interest s ->
        fst (aggregate_oi (call_strikes, put_strikes) (enhance s p)) = call_strikes
        /\ dict_get_default Qeq_bool
             (snd (aggregate_oi (call_strikes, put_strikes) (enhance s p))) k 0
           == dict_get_default Qeq_bool put_strikes k 0 + s_open_interest s).
Proof.
  intros Hsplit Hfloat Hdate.
  assert (Hparse : parse_instrument_name (s_instrument_name s)
                   = Some (mkParsedName currency_ e k option_type_
                             (String.eqb option_type_ "C")
                             (String.eqb option_type_ "P"))).
  { unfold parse_instrument_name. rewrite Hsplit, Hfloat, Hdate. reflexivity. }
  eexists. split; [exact Hparse|]. split; [reflexivity|].
  split; [unfold enhance_instruments; simpl; rewrite Hparse; reflexivity|].
  assert (Hstep : option_type_ <> "C" -> 0 < s_open_interest s ->
                  aggregate_oi (call_strikes, put_strikes)
                    (enhance s (mkParsedName currency_ e k option_type_
                                  (String.eqb option_type_ "C")
                                  (String.eqb option_type_ "P")))
                  = (call_strikes,
                     dict_set Qeq_bool put_strikes k
                       (dict_get_default Qeq_bool put_strikes k 0
                        + s_open_interest s))).
  { intros Hty Hoi. unfold aggregate_oi, enhance. cbn [strike open_interest is_call
      p_strike p_is_call].
    apply Qlt_not_le in Hoi.
    destruct (Qle_bool (s_open_interest s) 0) eqn:E;
      [apply Qle_bool_iff in E; contradiction|].
    apply String.eqb_neq in Hty. rewrite Hty. reflexivity. }
  split; [exact Hstep|].
  intros Hty Hoi.
  destruct (Qlt_le_dec 0 (s_open_interest s)) as [Hpos | Hzero].
  - rewrite (Hstep Hty Hpos). split; [reflexivity|]. simpl snd.
    rewrite (dict_get_default_set Qeq_bool Qeq_bool_sym' Qeq_bool_trans').
    rewrite Qeq_bool_refl. reflexivity.
  - unfold aggregate_oi, enhance. cbn [strike open_interest is_call
      p_strike p_is_call].
    apply Qle_bool_iff in Hzero. rewrite Hzero. split; [reflexivity|].
    simpl snd. apply Qle_bool_iff in Hzero. lra.
Qed.

Lemma C10_option_type_witness :
  split_on "-" (s_instrument_name sample_odd_summary)
  = ["BTC"; "29FEB24"; "50000"; "c"]
  /\ py_float "50000" = Some 50000
  /\ strptime_dby "29FEB24" = Some (mkDatetime 2024 2 29 0)
  /\ "c" <> "C"
  /\ 0 < s_open_interest sample_odd_summary
  /\ exists p,
       parse_instrument_name (s_instrument_name sample_odd_summary) = Some p
       /\ is_call (enhance sample_odd_summary p) = false
       /\ aggregate_oi ([(50000, 3)], [(50000, 4)]) (enhance sample_odd_summary p)
          = ([(50000, 3)], [(50000, 4 + 7)]).
Proof.
  split; [reflexivity|]. split; [reflexivity|]. split; [reflexivity|].
  split; [discriminate|]. split; [reflexivity|].
  destruct (C10_option_type_not_validated sample_odd_summary
              "BTC" "29FEB24" "50000" "c" 50000 (mkDatetime 2024 2 29 0)
              [(50000, 3)] [(50000, 4)] eq_refl eq_refl eq_refl)
    as [p [Hp [Heq [_ [Hagg _]]]]].
  exists p. split; [exact Hp|]. split; [rewrite Heq; reflexivity|].
  eapply eq_trans;
    [exact (Hagg ltac:(discriminate) ltac:(reflexivity)) | reflexivity].
Defined.

(** ** Rebuilding an instrument name *)

Lemma is_digit_In (c : ascii) : is_digit c = true -> In c digit_chars.
Proof.
  intro H.
  destruct c as [[] [] [] [] [] [] [] []];
    vm_compute in H; try discriminate H; simpl; tauto.
Qed.

Lemma month_index_In (mmm : string) (m : Z) :
  month_index mmm = Some m -> In mmm MONTH_ABBR.
Proof.
  unfold month_index, MONTH_ABBR. intro H.
  repeat match type of H with
         | (if String.eqb ?a mmm then _ else _) = _ =>
             destruct (String.eqb a mmm) eqn:E;
             [apply String.eqb_eq in E; subst mmm; simpl; tauto | clear E]
         end.
  discriminate H.
Qed.

Lemma expiry_candidates_roundtrip :
  forallb (fun s => implb (valid_expiry_str s) (expiry_roundtrip s))
          expiry_candidates = true.
Proof. vm_compute. reflexivity. Qed.

Lemma valid_expiry_candidate (s : string) :
  valid_expiry_str s = true -> In s expiry_candidates.
Proof.
  intro H. unfold valid_expiry_str in H.
  destruct s as [|d1 [|d2 [|m1 [|m2 [|m3 [|y1 [|y2 [|? ?]]]]]]]]; try discriminate H.
  destruct (month_index (String m1 (String m2 (String m3 "")))) as [m|] eqn:Em;
    [|rewrite !andb_false_r in H; discriminate H].
  apply month_index_In in Em.
  rewrite !andb_true_iff in H. destruct H as [[[[H1 H2] H3] H4] _].
  apply is_digit_In in H1, H2, H3, H4.
  unfold expiry_candidates.
  apply in_flat_map. exists d1. split; [exact H1|].
  apply in_flat_map. exists d2. split; [exact H2|].
  apply in_flat_map. exists (String m1 (String m2 (String m3 ""))).
  split; [exact Em|].
  apply in_flat_map. exists y1. split; [exact H3|].
  apply in_map_iff. exists y2. split; [reflexivity | exact H4].
Qed.

Lemma valid_expiry_roundtrip (s : string) :
  valid_expiry_str s = true ->
  exists d, strptime_dby s = Some d /\ format_expiry d = s.
Proof.
  intro H. pose proof (valid_expiry_candidate s H) as Hin.
  pose proof expiry_candidates_roundtrip as Hall.
  rewrite forallb_forall in Hall. specialize (Hall s Hin).
  rewrite H in Hall. simpl in Hall. unfold expiry_roundtrip in Hall.
  destruct (strptime_dby s) as [d|]; [|discriminate].
  exists d. split; [reflexivity|]. apply String.eqb_eq. exact Hall.
Qed.

Lemma split_on_nonempty (sep : ascii) (s : string) : split_on sep s <> [].
Proof.
  destruct s as [|c r]; simpl; [discriminate|].
  destruct (Ascii.eqb c sep); [discriminate|].
  destruct (split_on sep r); discriminate.
Qed.

Lemma join_split (sep : ascii) (s : string) : join_on sep (split_on sep s) = s.
Proof.
  induction s as [|c r IH]; [reflexivity|]. simpl.
  pose proof (split_on_nonempty sep r) as Hne.
  destruct (Ascii.eqb c sep) eqn:E.
  - apply Ascii.eqb_eq in E. subst c.
    destruct (split_on sep r) as [|p ps]; [congruence|].
    change (join_on sep ("" :: p :: ps))
      with (String sep (join_on sep (p :: ps))).
    rewrite IH. reflexivity.
  - destruct (split_on sep r) as [|p ps]; [congruence|].
    destruct ps as [|q qs].
    + simpl in *. rewrite IH. reflexivity.
    + change (join_on sep (String c p :: q :: qs))
        with (String c (p ++ String sep (join_on sep (q :: qs))))%string.
      change (join_on sep (p :: q :: qs))
        with (p ++ String sep (join_on sep (q :: qs)))%string in IH.
      rewrite IH. reflexivity.
Qed.

Lemma split_on_none (sep : ascii) (s : string) :
  forallb (fun c => negb (Ascii.eqb c sep)) (list_ascii_of_string s) = true ->
  split_on sep s = [s].
Proof.
  induction s as [|c r IH]; simpl; [reflexivity|].
  rewrite andb_true_iff, negb_true_iff. intros [Hc Hr].
  rewrite Hc, (IH Hr). reflexivity.
Qed.

Lemma all_digits_no_dot (s : string) :
  all_digits s = true ->
  forallb (fun c => negb (Ascii.eqb c ".")) (list_ascii_of_string s) = true.
Proof.
  unfold all_digits. rewrite !forallb_forall. intros H c Hc.
  specialize (H c Hc). apply is_digit_In in H.
  repeat (destruct H as [<- | H]; [reflexivity|]). destruct H.
Qed.

Lemma all_digits_uint (s : string) :
  all_digits s = true -> exists d, NilEmpty.uint_of_string s = Some d.
Proof.
  unfold all_digits. induction s as [|c r IH]; simpl; [eauto|].
  rewrite andb_true_iff. intros [Hc Hr].
  destruct (IH Hr) as [d ->]. apply is_digit_In in Hc.
  repeat (destruct Hc as [<- | Hc]; [simpl; eauto|]). destruct Hc.
Qed.

Lemma is_digit_not_underscore (c : ascii) :
  is_digit c = true ->
  Ascii.eqb c "_" = false /\ Ascii.eqb c "-" = false /\ Ascii.eqb c "+" = false
  /\ is_space c = false /\ to_ascii c = c /\ lower c = c
  /\ Ascii.eqb c "e" = false /\ Ascii.eqb c "E" = false
  /\ Ascii.eqb c "i" = false /\ Ascii.eqb c "n" = false.
Proof.
  intro H. apply is_digit_In in H.
  repeat (destruct H as [<- | H]; [repeat split|]). destruct H.
Qed.

Lemma all_digits_cons (c : ascii) (r : string) :
  all_digits (String c r) = true <-> is_digit c = true /\ all_digits r = true.
Proof. unfold all_digits. simpl. apply andb_true_iff. Qed.

Lemma all_digits_to_ascii (s : string) :
  all_digits s = true -> map_string to_ascii s = s.
Proof.
  induction s as [|c r IH]; [reflexivity|]. rewrite all_digits_cons.
  intros [Hc Hr]. simpl. rewrite (IH Hr).
  destruct (is_digit_not_underscore c Hc) as [_ [_ [_ [_ [-> _]]]]]. reflexivity.
Qed.

Lemma all_digits_drop_underscores (s : string) (prev : ascii) :
  all_digits s = true -> Ascii.eqb prev "_" = false ->
  drop_underscores prev s = Some s.
Proof.
  revert prev. induction s as [|c r IH]; intros prev Hs Hp; simpl.
  - rewrite Hp. reflexivity.
  - apply all_digits_cons in Hs. destruct Hs as [Hc Hr].
    destruct (is_digit_not_underscore c Hc) as [Hu _].
    rewrite Hu, Hc, andb_false_r. rewrite (IH c Hr Hu). reflexivity.
Qed.

Lemma all_digits_rstrip (s : string) : all_digits s = true -> rstrip s = s.
Proof.
  induction s as [|c r IH]; [reflexivity|]. rewrite all_digits_cons.
  intros [Hc Hr]. simpl. rewrite (IH Hr).
  destruct (is_digit_not_underscore c Hc) as [_ [_ [_ [-> _]]]].
  destruct r; reflexivity.
Qed.

Lemma all_digits_split_exponent (s : string) :
  all_digits s = true -> split_exponent s = (s, None).
Proof.
  induction s as [|c r IH]; [reflexivity|]. rewrite all_digits_cons.
  intros [Hc Hr]. simpl. rewrite (IH Hr).
  destruct (is_digit_not_underscore c Hc) as [_ [_ [_ [_ [_ [_ [-> [-> _]]]]]]]].
  reflexivity.
Qed.

(** A string of digits counts less than 10 to the power of its length. *)
Lemma uint_of_string_bound (s : string) (d : Decimal.uint) :
  NilEmpty.uint_of_string s = Some d ->
  (forall acc, (Z.pos (Pos.of_uint_acc d acc)
                < (Z.pos acc + 1) * 10 ^ Z.of_nat (String.length s))%Z)
  /\ (Z.of_N (Pos.of_uint d) < 10 ^ Z.of_nat (String.length s))%Z.
Proof.
  revert d. induction s as [|c r IH]; intros d Hd.
  - injection Hd as <-. simpl. split; [intro acc|]; lia.
  - simpl in Hd. destruct (NilEmpty.uint_of_string r) as [d'|] eqn:Er.
    2:{ destruct c as [[] [] [] [] [] [] [] []]; discriminate Hd. }
    destruct (IH d' eq_refl) as [Hacc Hval].
    assert (Hp : (0 < 10 ^ Z.of_nat (String.length r))%Z)
      by (apply Z.pow_pos_nonneg; lia).
    assert (Hs : (10 ^ Z.of_nat (String.length (String c r))
                  = 10 * 10 ^ Z.of_nat (String.length r))%Z).
    { cbn [String.length]. rewrite Nat2Z.inj_succ, Z.pow_succ_r by lia. reflexivity. }
    rewrite Hs.
    destruct c as [[] [] [] [] [] [] [] []]; try discriminate Hd;
      injection Hd as <-;
      (split;
       [ intro acc; cbn [Pos.of_uint_acc];
         match goal with
         | |- (Z.pos (Pos.of_uint_acc d' ?a) < _)%Z =>
             pose proof (Hacc a) as Hb
         end; nia
       | cbn [Pos.of_uint];
         first [ lia
               | match goal with
                 | |- (Z.of_N (N.pos (Pos.of_uint_acc d' ?a)) < _)%Z =>
                     pose proof (Hacc a) as Hb
                 end; cbn [Z.of_N]; nia ] ]).
Qed.

Lemma small_integer_in_float_range (z : Z) :
  (0 <= z < 10 ^ 15)%Z -> in_float_range (inject_Z z) = Finite (inject_Z z).
Proof.
  intro H. unfold in_float_range.
  assert (Ha : Qabs (inject_Z z) == inject_Z z).
  { apply Qabs_pos. change 0 with (inject_Z 0). rewrite <- Zle_Qle. lia. }
  destruct (Qle_bool FLOAT_OVERFLOW (Qabs (inject_Z z))) eqn:E1.
  { exfalso. apply Qle_bool_iff in E1. rewrite Ha in E1.
    assert (Hlt : inject_Z (10 ^ 15) <= FLOAT_OVERFLOW) by (vm_compute; discriminate).
    assert (inject_Z z < inject_Z (10 ^ 15)) by (rewrite <- Zlt_Qlt; lia).
    lra. }
  destruct (Qle_bool (Qabs (inject_Z z)) FLOAT_UNDERFLOW) eqn:E2; [|reflexivity].
  apply Qle_bool_iff in E2. rewrite Ha in E2.
  assert (Hlt : FLOAT_UNDERFLOW < inject_Z 1) by (vm_compute; reflexivity).
  assert (Hz : (z < 1)%Z) by (rewrite Zlt_Qlt; lra).
  replace z with 0%Z by lia. reflexivity.
Qed.

Lemma valid_strike_roundtrip (s : string) :
  valid_strike_str s = true ->
  exists k, py_float s = Some k /\ format_strike k = s.
Proof.
  unfold valid_strike_str. destruct s as [|c r]; [discriminate|].
  rewrite !andb_true_iff, negb_true_iff. intros [[Hc Hd] Hlen].
  apply Nat.leb_le in Hlen.
  pose proof Hd as Hd'. apply all_digits_cons in Hd'. destruct Hd' as [Hdig Hr].
  destruct (is_digit_not_underscore c Hdig)
    as [Hu [Hm [Hp [Hsp [_ [Hlow [_ [_ [Hi Hn]]]]]]]]].
  destruct (all_digits_uint _ Hd) as [d Hu'].
  destruct (uint_of_string_bound _ d Hu') as [_ Hb].
  assert (Hfloat : float_of_string (String c r)
                   = Some (in_float_range (inject_Z (Z.of_N (N.of_uint d))))).
  { unfold float_of_string.
    rewrite (all_digits_to_ascii _ Hd).
    rewrite (all_digits_drop_underscores _ zero Hd eq_refl).
    assert (Hl : lstrip (String c r) = String c r) by (simpl; rewrite Hsp; reflexivity).
    rewrite Hl, (all_digits_rstrip _ Hd).
    assert (Hsg : split_sign (String c r) = (false, String c r)).
    { unfold split_sign.
      destruct c as [[] [] [] [] [] [] [] []]; try reflexivity; discriminate. }
    rewrite Hsg.
    assert (Hname : forall w, (map_string lower (String c r) =? String "i" w) = false
                              /\ (map_string lower (String c r) =? String "n" w) = false).
    { intro w. simpl. rewrite Hlow, Hi, Hn. split; reflexivity. }
    rewrite (proj1 (Hname _)), (proj1 (Hname _)), (proj2 (Hname _)).
    cbn [orb]. rewrite (all_digits_split_exponent _ Hd).
    unfold unsigned_float.
    rewrite (split_on_none "." (String c r) (all_digits_no_dot _ Hd)).
    cbn [String.length Nat.eqb]. unfold digits_N. rewrite Hu'. reflexivity. }
  unfold py_float. rewrite Hfloat.
  rewrite small_integer_in_float_range.
  2:{ split; [apply N2Z.is_nonneg|].
      eapply Z.lt_le_trans; [exact Hb|].
      apply Z.pow_le_mono_r; lia. }
  eexists. split; [reflexivity|].
  unfold format_strike. cbn [inject_Z Qnum Qden].
  rewrite Z.div_1_r, N2Z.id, DecimalN.Unsigned.to_of.
  assert (Hnorm : Decimal.unorm d = d).
  { simpl in Hu'. destruct (NilEmpty.uint_of_string r) as [d'|]; [|discriminate].
    apply is_digit_In in Hdig.
    repeat (destruct Hdig as [<- | Hdig];
            [first [discriminate Hc | injection Hu' as <-; reflexivity]|]).
    destruct Hdig. }
  rewrite Hnorm. apply NilEmpty.sus. exact Hu'.
Qed.

(** C9. Every valid name of the form [CCY-DDMMMYY-STRIKE-C|P] parses, and
    the name rebuilt from the parsed currency, expiry date, strike and
    option type is the name itself. *)
Theorem C9_parse_roundtrip (instrument_name : string) :
  valid_instrument_name instrument_name = true ->
  exists p,
    parse_instrument_name instrument_name = Some p
    /\ format_instrument_name p = instrument_name
    /\ (p_is_call p = true /\ p_option_type p = "C"
        \/ p_is_put p = true /\ p_option_type p = "P").
Proof.
  unfold valid_instrument_name, parse_instrument_name, format_instrument_name.
  pose proof (join_split "-" instrument_name) as Hjoin.
  destruct (split_on "-" instrument_name)
    as [|ccy [|e [|k [|ty [|? ?]]]]]; try discriminate.
  rewrite !andb_true_iff, orb_true_iff. intros [[He Hk] Hty].
  destruct (valid_expiry_roundtrip e He) as [d [-> Hd]].
  destruct (valid_strike_roundtrip k Hk) as [q [-> Hq]].
  eexists. split; [reflexivity|]. cbn [p_currency p_expiry_date p_strike
    p_option_type p_is_call p_is_put].
  split.
  - rewrite Hd, Hq. exact Hjoin.
  - destruct Hty as [Hty | Hty]; [left | right];
      (split; [exact Hty | apply String.eqb_eq; exact Hty]).
Qed.

Lemma C9_parse_roundtrip_witness :
  valid_instrument_name "BTC-01JAN25-50000-C" = true
  /\ exists p,
       parse_instrument_name "BTC-01JAN25-50000-C" = Some p
       /\ format_instrument_name p = "BTC-01JAN25-50000-C"
       /\ (p_is_call p = true /\ p_option_type p = "C"
           \/ p_is_put p = true /\ p_option_type p = "P").
Proof.
  split; [reflexivity|].
  apply (C9_parse_roundtrip "BTC-01JAN25-50000-C"). reflexivity.
Defined.

(** Outside the valid form the parser still accepts names, and those do not
    come back: a day on one digit, a month in small letters, a strike with a
    fraction or a leading zero. *)
Example parse_accepts_other_spellings :
  option_map format_instrument_name (parse_instrument_name "BTC-1jan25-050000.0-C")
  = Some "BTC-01JAN25-50000-C".
Proof. vm_compute. reflexivity. Qed.

(* ================================================================== *)
(** * Part IV: further properties of the engine                        *)
(* ================================================================== *)

(** ** Small facts *)

Lemma Qle_bool_false' (x y : Q) : ~ x <= y -> Qle_bool x y = false.
Proof.
  intro H. destruct (Qle_bool x y) eqn:E; [|reflexivity].
  apply Qle_bool_iff in E. contradiction.
Qed.

Lemma bind_ok {A B} (x : A) (f : A -> result B) : bind_result (ok x) f = f x.
Proof. reflexivity. Qed.

(** ** The dynamic band *)

(** X1. The band is never below 10 nor above 100, it is at most 50 up to one
    day to expiry, and it does not decrease when the volatility grows; at
    the four places where the analysis calls it, it lies in [12,60]
    (seven days), [10,50] (0.1 day) and [20,100] (thirty days). *)
Theorem X1_dynamic_band_bounds (iv_pct days : Q) :
  10 <= calculate_dynamic_band iv_pct days <= 100
  /\ (days <= 1 -> calculate_dynamic_band iv_pct days <= 50)
  /\ (forall iv', iv_pct <= iv' ->
        calculate_dynamic_band iv_pct days <= calculate_dynamic_band iv' days)
  /\ 12 <= calculate_dynamic_band iv_pct 7 <= 60
  /\ 10 <= calculate_dynamic_band iv_pct (1#10) <= 50
  /\ 20 <= calculate_dynamic_band iv_pct 30 <= 100.
Proof.
  assert (Hbase : forall iv, 10 <= py_max 10 (py_min 50 (iv * (3#10))) <= 50).
  { intro iv. destruct (py_max_spec 10 (py_min 50 (iv * (3#10)))) as [[H ->] | [H ->]];
      destruct (py_min_spec 50 (iv * (3#10))) as [[H' E] | [H' E]];
      rewrite ?E in *; lra. }
  assert (Hmono : forall iv iv', iv <= iv' ->
             py_max 10 (py_min 50 (iv * (3#10)))
             <= py_max 10 (py_min 50 (iv' * (3#10)))).
  { intros iv iv' Hle.
    destruct (py_max_spec 10 (py_min 50 (iv * (3#10)))) as [[H1 ->] | [H1 ->]];
      destruct (py_max_spec 10 (py_min 50 (iv' * (3#10)))) as [[H2 ->] | [H2 ->]];
      destruct (py_min_spec 50 (iv * (3#10))) as [[H3 E3] | [H3 E3]];
      destruct (py_min_spec 50 (iv' * (3#10))) as [[H4 E4] | [H4 E4]];
      rewrite ?E3, ?E4 in *; lra. }
  assert (Hfac : forall d,
             exists f, 1 <= f <= 2
               /\ (if Qle_bool d 1 then 1
                   else if Qle_bool d 7 then 12#10
                   else py_min 2 (1 + (d - 7) / 20)) = f
               /\ (d <= 1 -> f == 1)).
  { intro d. destruct (Qle_bool d 1) eqn:E1.
    - exists 1. split; [lra|]. split; reflexivity.
    - apply Qle_bool_false in E1. destruct (Qle_bool d 7) eqn:E7.
      + exists (12#10). split; [lra|]. split; [reflexivity | intro; lra].
      + apply Qle_bool_false in E7.
        destruct (py_min_spec 2 (1 + (d - 7) / 20)) as [[H E] | [H E]];
          rewrite E; eexists; (split; [|split; [reflexivity|intro; lra]]);
          qdiv_consts; lra. }
  unfold calculate_dynamic_band.
  split; [|split; [|split; [|split; [|split]]]].
  - destruct (Hfac days) as [f [Hf [-> _]]]. pose proof (Hbase iv_pct). nra.
  - intro Hd. destruct (Hfac days) as [f [Hf [-> H1]]]. pose proof (Hbase iv_pct).
    rewrite (H1 Hd). lra.
  - intros iv' Hle. destruct (Hfac days) as [f [Hf [-> _]]].
    pose proof (Hmono iv_pct iv' Hle). nra.
  - change (Qle_bool 7 1) with false. change (Qle_bool 7 7) with true. cbv iota.
    pose proof (Hbase iv_pct). lra.
  - change (Qle_bool (1#10) 1) with true. cbv iota.
    pose proof (Hbase iv_pct). lra.
  - change (Qle_bool 30 1) with false. change (Qle_bool 30 7) with false. cbv iota.
    assert (E : py_min 2 (1 + (30 - 7) / 20) = 2) by reflexivity. rewrite E.
    pose proof (Hbase iv_pct). lra.
Qed.

(** ** The delta approximation *)

Lemma clamp_delta_bounds (x : Q) :
  (5#100) <= py_max (5#100) (py_min (95#100) x) <= (95#100).
Proof.
  destruct (py_max_spec (5#100) (py_min (95#100) x)) as [[H ->] | [H ->]];
    destruct (py_min_spec (95#100) x) as [[H' E] | [H' E]]; rewrite ?E in *; lra.
Qed.

Lemma clamp_delta_sum (x y : Q) :
  x + y == 1 ->
  py_max (5#100) (py_min (95#100) x) + py_max (5#100) (py_min (95#100) y) == 1.
Proof.
  intro Hxy.
  destruct (py_max_spec (5#100) (py_min (95#100) x)) as [[H1 ->] | [H1 ->]];
    destruct (py_max_spec (5#100) (py_min (95#100) y)) as [[H2 ->] | [H2 ->]];
    destruct (py_min_spec (95#100) x) as [[H3 E3] | [H3 E3]];
    destruct (py_min_spec (95#100) y) as [[H4 E4] | [H4 E4]];
    rewrite ?E3, ?E4 in *; lra.
Qed.

(** X2. Before expiry and for a strike that is not 0 the delta of a call and
    the delta of a put both lie in [0.05, 0.95] and add up to 1, and an
    option at the money has delta 0.5; for a strike of 0 the function raises
    ZeroDivisionError; at or after expiry it returns 0 or 1 and never
    divides. *)
Theorem X2_delta_range_and_parity (spot_price strike_ tte : Q) :
  (0 < tte -> ~ strike_ == 0 ->
   exists dc dp,
     calculate_delta_simple spot_price strike_ tte true = ok dc
     /\ calculate_delta_simple spot_price strike_ tte false = ok dp
     /\ (5#100) <= dc <= (95#100)
     /\ (5#100) <= dp <= (95#100)
     /\ dc + dp == 1
     /\ (spot_price == strike_ -> dc == (1#2) /\ dp == (1#2)))
  /\ (0 < tte -> strike_ == 0 ->
      forall c, calculate_delta_simple spot_price strike_ tte c
                = raise ZeroDivisionError)
  /\ (tte <= 0 ->
      forall c, calculate_delta_simple spot_price strike_ tte c = ok 1
                \/ calculate_delta_simple spot_price strike_ tte c = ok 0).
Proof.
  unfold calculate_delta_simple. split; [|split].
  - intros Ht Hk. apply Qlt_not_le, Qle_bool_false' in Ht.
    rewrite Ht, (py_div_ok _ _ Hk). cbv beta iota delta [bind_result ok].
    do 2 eexists. split; [reflexivity|]. split; [reflexivity|].
    split; [apply clamp_delta_bounds|]. split; [apply clamp_delta_bounds|].
    split; [apply clamp_delta_sum; ring|].
    intro Heq.
    assert (Hm : spot_price / strike_ == 1)
      by (rewrite Heq; apply Qmult_inv_r; exact Hk).
    split.
    + destruct (py_max_spec (5#100)
                  (py_min (95#100) ((5#10) + (4#10) * (spot_price / strike_ - 1))))
        as [[H ->] | [H ->]];
        destruct (py_min_spec (95#100) ((5#10) + (4#10) * (spot_price / strike_ - 1)))
          as [[H' E] | [H' E]]; rewrite ?E in *; lra.
    + destruct (py_max_spec (5#100)
                  (py_min (95#100) ((5#10) - (4#10) * (spot_price / strike_ - 1))))
        as [[H ->] | [H ->]];
        destruct (py_min_spec (95#100) ((5#10) - (4#10) * (spot_price / strike_ - 1)))
          as [[H' E] | [H' E]]; rewrite ?E in *; lra.
  - intros Ht Hk c. apply Qlt_not_le, Qle_bool_false' in Ht. rewrite Ht.
    unfold py_div. apply Qeq_bool_iff in Hk. rewrite Hk. reflexivity.
  - intros Ht c. apply Qle_bool_iff in Ht. rewrite Ht.
    destruct (_ || _); [left | right]; reflexivity.
Qed.

Lemma X2_delta_witness :
  0 < (1 / 365) /\ ~ 100 == 0
  /\ exists dc dp,
       calculate_delta_simple 100 100 (1 / 365) true = ok dc
       /\ calculate_delta_simple 100 100 (1 / 365) false = ok dp
       /\ (5#100) <= dc <= (95#100)
       /\ (5#100) <= dp <= (95#100)
       /\ dc + dp == 1
       /\ (100 == 100 -> dc == (1#2) /\ dp == (1#2)).
Proof.
  split; [reflexivity|]. split; [discriminate|].
  destruct (X2_delta_range_and_parity 100 100 (1 / 365)) as [H _].
  apply H; [reflexivity | discriminate].
Defined.

(** ** The implied volatility at the money *)

Lemma py_sum_pos (l : list Q) :
  l <> [] -> (forall x, In x l -> 0 < x) -> 0 < py_sum l.
Proof.
  induction l as [|x r IH]; [congruence|]. intros _ H.
  rewrite py_sum_cons. pose proof (H x (or_introl eq_refl)) as Hx.
  destruct r as [|y r'].
  - unfold py_sum. simpl. lra.
  - assert (0 < py_sum (y :: r')).
    { apply IH; [discriminate|]. intros z Hz. apply H. right. exact Hz. }
    lra.
Qed.

Lemma np_mean_pos (l : list Q) :
  l <> [] -> (forall x, In x l -> 0 < x) -> 0 < np_mean l.
Proof.
  intros Hne Hpos. unfold np_mean.
  apply Qlt_shift_div_l.
  - destruct l as [|x r]; [congruence|].
    change 0 with (inject_Z 0). rewrite <- Zlt_Qlt. simpl List.length. lia.
  - rewrite Qmult_0_l. apply py_sum_pos; assumption.
Qed.

Lemma atm_fold_ok (spot_price : Q) (l : list Instrument) (acc : list Q) :
  ~ spot_price == 0 ->
  fold_result
    (fun atm_ivs inst =>
       m <- py_div (Qabs (strike inst - spot_price)) spot_price ;;
       if Qlt_bool m (5#100) then
         let iv := mark_iv inst in
         if Qlt_bool 0 iv then ok (atm_ivs ++ [iv]) else ok atm_ivs
       else ok atm_ivs)
    l acc
  = ok (acc ++ map mark_iv (filter (atm_with_iv spot_price) l)).
Proof.
  intro Hs. revert acc. induction l as [|i r IH]; intro acc.
  - simpl. rewrite app_nil_r. reflexivity.
  - cbn [fold_result]. rewrite (py_div_ok _ _ Hs), bind_ok.
    cbn [filter]. unfold atm_with_iv at 1.
    destruct (Qlt_bool (Qabs (strike i - spot_price) / spot_price) (5#100));
      [destruct (Qlt_bool 0 (mark_iv i))|]; cbn [andb];
      rewrite bind_ok, IH; cbn [map]; rewrite <- ?app_assoc; reflexivity.
Qed.

Lemma calculate_atm_iv_value (spot_price : Q) (l : list Instrument) :
  ~ spot_price == 0 -> l <> [] ->
  calculate_atm_iv spot_price l
  = ok (get_avg_iv (map mark_iv (filter (atm_with_iv spot_price) l)) 50).
Proof.
  intros Hs Hne. pose proof (atm_fold_ok spot_price l [] Hs) as Hf.
  destruct l as [|i r]; [congruence|].
  unfold calculate_atm_iv. cbv beta iota zeta in Hf |- *. rewrite Hf. reflexivity.
Qed.

(** X3. With a spot price that is not 0 the at-the-money volatility is
    returned and is positive, and it is the fallback 50 when no instrument
    within 5% of the spot price has a positive volatility; an empty list
    gives 50 whatever the spot price; a spot price of 0 with a list that is
    not empty raises ZeroDivisionError. *)
Theorem X3_atm_iv_positive_or_fallback (spot_price : Q) (l : list Instrument) :
  (~ spot_price == 0 ->
   exists iv,
     calculate_atm_iv spot_price l = ok iv
     /\ 0 < iv
     /\ (filter (atm_with_iv spot_price) l = [] -> iv = 50))
  /\ calculate_atm_iv spot_price [] = ok 50
  /\ (spot_price == 0 -> l <> [] ->
      calculate_atm_iv spot_price l = raise ZeroDivisionError).
Proof.
  split; [|split].
  - intro Hs. destruct l as [|i r] eqn:El.
    + exists 50. split; [reflexivity|]. split; reflexivity.
    + rewrite <- El.
      rewrite (calculate_atm_iv_value spot_price l Hs) by (rewrite El; discriminate).
      set (ivs := map mark_iv (filter (atm_with_iv spot_price) l)).
      assert (Hpos : forall x, In x ivs -> 0 < x).
      { intros x Hx. unfold ivs in Hx. apply in_map_iff in Hx.
        destruct Hx as [j [<- Hj]]. apply filter_In in Hj. destruct Hj as [_ Hj].
        unfold atm_with_iv in Hj. apply andb_true_iff in Hj.
        apply Qlt_bool_iff, Hj. }
      assert (Hf : filter (fun iv => Qlt_bool 0 iv) ivs = ivs).
      { clear -Hpos. induction ivs as [|x r IH]; [reflexivity|]. simpl.
        rewrite (proj2 (Qlt_bool_iff 0 x)) by (apply Hpos; left; reflexivity).
        rewrite IH; [reflexivity|]. intros y Hy. apply Hpos. right. exact Hy. }
      eexists. split; [reflexivity|]. unfold get_avg_iv. rewrite Hf.
      destruct ivs as [|x r'] eqn:Ei.
      * split; reflexivity.
      * split.
        -- apply np_mean_pos; [discriminate | exact Hpos].
        -- intro Hnil. unfold ivs in Ei. rewrite Hnil in Ei. discriminate.
  - reflexivity.
  - intros Hs Hne. unfold calculate_atm_iv. destruct l as [|i r]; [congruence|].
    simpl. unfold py_div. apply Qeq_bool_iff in Hs. rewrite Hs. reflexivity.
Qed.

Lemma X3_atm_iv_witness :
  ~ 100 == 0
  /\ exists iv,
       calculate_atm_iv 100 sample_0dte = ok iv
       /\ 0 < iv
       /\ (filter (atm_with_iv 100) sample_0dte = [] -> iv = 50).
Proof.
  split; [discriminate|].
  destruct (X3_atm_iv_positive_or_fallback 100 sample_0dte) as [H _].
  apply H. discriminate.
Defined.

(** ** The windows of the timeframe rules *)

Section Windows.
Import Calendar.
Local Open Scope Z_scope.

Lemma sub_days_midnight (now_ e : datetime) :
  dt_tod e = 0 -> 0 < dt_tod now_ < US_PER_DAY ->
  sub_days e now_ = toordinal e - toordinal now_ - 1.
Proof.
  intros He Hn. unfold sub_days, sub_us. rewrite He.
  replace ((toordinal e - toordinal now_) * US_PER_DAY + (0 - dt_tod now_))
    with ((toordinal e - toordinal now_ - 1) * US_PER_DAY
          + (US_PER_DAY - dt_tod now_)) by ring.
  rewrite Z.div_add_l by (unfold US_PER_DAY; lia).
  rewrite Z.div_small by lia. lia.
Qed.

Lemma zero_dte_window (clock : nat -> datetime) (t : nat) (e : datetime) :
  0 <= dt_tod (clock t) < US_PER_DAY ->
  (fst (is_0dte (Some e) clock t) = true <->
   (dt_tod (clock t) < 8 * 3600 * 1000000
    /\ toordinal e = toordinal (clock t))
   \/ (8 * 3600 * 1000000 <= dt_tod (clock t)
       /\ toordinal e = toordinal (clock t) + 1)).
Proof.
  intro Hn.
  unfold is_0dte, bind, now, ret. cbn [fst].
  rewrite andb_true_iff, Z.ltb_lt, Z.leb_le.
  unfold sub_us, replace_hour, toordinal.
  cbn [dt_year dt_month dt_day dt_tod].
  generalize dependent (clock t). intros now_ Hn.
  set (oe := ymd2ord (dt_year e) (dt_month e) (dt_day e)).
  set (on := ymd2ord (dt_year now_) (dt_month now_) (dt_day now_)).
  clearbody oe on. unfold US_PER_DAY in *. lia.
Qed.

(** X4. An instrument is 0DTE exactly when it expires at the next 08:00
    UTC: before 08:00 its expiry date is today, from 08:00 on its expiry
    date is tomorrow.  Without an expiry date it is never 0DTE, and the
    clock is not read. *)
Theorem X4_zero_dte_is_next_settlement
  (clock : nat -> datetime) (t : nat) (e : datetime) :
  0 <= dt_tod (clock t) < US_PER_DAY ->
  (fst (is_0dte (Some e) clock t) = true <->
   (dt_tod (clock t) < 8 * 3600 * 1000000
    /\ toordinal e = toordinal (clock t))
   \/ (8 * 3600 * 1000000 <= dt_tod (clock t)
       /\ toordinal e = toordinal (clock t) + 1))
  /\ is_0dte None clock t = (false, t).
Proof.
  intro Hn. split; [|reflexivity].
  pose proof (zero_dte_window clock t e Hn) as [H1 H2].
  split; intro H.
  - destruct (H1 H) as [[Ha Hb] | [Ha Hb]]; [left | right]; split; assumption.
  - apply H2. exact H.
Qed.

Lemma X4_zero_dte_witness :
  0 <= dt_tod sample_now < US_PER_DAY
  /\ (fst (is_0dte (Some (mkDatetime 2026 11 5 0)) (fun _ => sample_now) 0%nat) = true
      <-> (dt_tod sample_now < 8 * 3600 * 1000000
           /\ toordinal (mkDatetime 2026 11 5 0) = toordinal sample_now)
          \/ (8 * 3600 * 1000000 <= dt_tod sample_now
              /\ toordinal (mkDatetime 2026 11 5 0) = toordinal sample_now + 1)).
Proof.
  assert (H : 0 <= dt_tod sample_now < US_PER_DAY) by (vm_compute; split; congruence).
  split; [exact H|].
  apply (X4_zero_dte_is_next_settlement (fun _ => sample_now) 0%nat
           (mkDatetime 2026 11 5 0) H).
Defined.

(** X5. For an expiry at midnight, as the parser gives it, and a clock that
    is not at midnight, the 1W rule holds exactly when the expiry date is 6
    to 13 calendar days ahead and the 1M rule exactly when it is 21 to 41
    days ahead; so no instrument satisfies both, and a 0DTE instrument
    satisfies neither. *)
Theorem X5_week_month_windows
  (clock : nat -> datetime) (t : nat) (e : datetime) :
  dt_tod e = 0 -> 0 < dt_tod (clock t) < US_PER_DAY ->
  (fst (is_1w_expiry (Some e) clock t) = true <->
   6 <= toordinal e - toordinal (clock t) <= 13)
  /\ (fst (is_1m_expiry (Some e) clock t) = true <->
      21 <= toordinal e - toordinal (clock t) <= 41)
  /\ (fst (is_0dte (Some e) clock t) = true ->
      fst (is_1w_expiry (Some e) clock t) = false
      /\ fst (is_1m_expiry (Some e) clock t) = false).
Proof.
  intros He Hn.
  assert (H0 : 0 <= dt_tod (clock t) < US_PER_DAY) by lia.
  pose proof (sub_days_midnight (clock t) e He Hn) as Hd.
  unfold is_1w_expiry, is_1m_expiry, bind, now, ret. simpl fst.
  rewrite Hd. split; [|split].
  - rewrite andb_true_iff, !Z.leb_le. lia.
  - rewrite andb_true_iff, !Z.leb_le. lia.
  - intro H. apply (proj1 (zero_dte_window clock t e H0)) in H.
    split; apply andb_false_iff; rewrite !Z.leb_gt; lia.
Qed.

Lemma X5_week_month_witness :
  let e := mkDatetime 2026 11 13 0 in
  let clock := fun _ : nat => sample_now in
  dt_tod e = 0 /\ 0 < dt_tod (clock 0%nat) < US_PER_DAY
  /\ (fst (is_1w_expiry (Some e) clock 0%nat) = true <->
      6 <= toordinal e - toordinal (clock 0%nat) <= 13)
  /\ fst (is_1w_expiry (Some e) clock 0%nat) = true.
Proof.
  intros e clock.
  assert (H : 0 < dt_tod (clock 0%nat) < US_PER_DAY) by (vm_compute; split; congruence).
  split; [reflexivity|]. split; [exact H|].
  destruct (X5_week_month_windows clock 0%nat e eq_refl H) as [H1 _].
  split; [exact H1|]. apply H1. vm_compute. split; discriminate.
Defined.

End Windows.

(** ** The confidence of the composed levels *)

Lemma base_confidence_range (level_name : string) :
  (1#10) <= dict_get_default String.eqb confidence_map level_name (3#10) <= (8#10).
Proof.
  unfold dict_get_default, confidence_map. cbn [dict_get].
  repeat match goal with
         | |- context [if String.eqb ?a level_name then _ else _] =>
             destruct (String.eqb a level_name)
         end;
    split; discriminate.
Qed.

Lemma confidence_range (base d : Q) :
  (1#10) <= base <= (8#10) ->
  (1#100) <= calculate_confidence base d <= (8#10).
Proof.
  intros [Hlo Hhi].
  pose proof (Qabs_nonneg d) as Ha.
  destruct (confidence_cases base d) as [[H ->] | [H ->]];
    try lra; qdiv_consts; nra.
Qed.

Lemma map_result_raise {A B} (f : A -> result B) (l : list A) (x : A) (e : exn) :
  In x l -> (forall y, In y l -> f y = raise e) -> map_result f l = raise e.
Proof.
  intros Hin Hall. destruct l as [|y r]; [destruct Hin|].
  simpl. rewrite (Hall y (or_introl eq_refl)). reflexivity.
Qed.

(** X6. With a spot price that is not 0 the composer returns one key level
    per entry with a positive price, each with a confidence between 0.01 and
    0.8.  With a spot price of 0 it raises ZeroDivisionError as soon as some
    entry has a positive price, and returns the empty list otherwise. *)
Theorem X6_composed_confidence_range (all_levels : dict string Q) (spot_price : Q) :
  (~ spot_price == 0 ->
   exists key_levels,
     compose_key_levels all_levels spot_price = ok key_levels
     /\ List.length key_levels
        = List.length (filter (fun e => positive_level (snd e)) all_levels)
     /\ forall kl, In kl key_levels ->
          (1#100) <= confidence kl <= (8#10))
  /\ (spot_price == 0 -> (exists e, In e all_levels /\ 0 < snd e) ->
      compose_key_levels all_levels spot_price = raise ZeroDivisionError)
  /\ (spot_price == 0 -> (forall e, In e all_levels -> snd e <= 0) ->
      compose_key_levels all_levels spot_price = ok []).
Proof.
  split; [|split].
  - intro Hs. eexists. split; [apply compose_key_levels_ok; exact Hs|].
    split.
    + unfold sort_key. rewrite sort_by_length, length_map. reflexivity.
    + intros kl Hin. apply sort_by_In, in_map_iff in Hin.
      destruct Hin as [entry [<- _]]. unfold key_level_of. cbn [confidence].
      apply confidence_range, base_confidence_range.
  - intros Hs [e [Hin Hpos]]. unfold compose_key_levels.
    rewrite (map_result_raise _ _ e ZeroDivisionError).
    + reflexivity.
    + apply filter_In. split; [exact Hin | apply positive_level_iff; exact Hpos].
    + intros [n p] _. unfold make_key_level, calculate_distance_to_spot, py_div.
      apply Qeq_bool_iff in Hs. rewrite Hs. reflexivity.
  - intros Hs Hall. unfold compose_key_levels.
    assert (Hf : filter (fun e => positive_level (snd e)) all_levels = []).
    { clear Hs. induction all_levels as [|e r IH]; [reflexivity|]. simpl.
      destruct (positive_level (snd e)) eqn:E.
      - apply positive_level_iff in E.
        specialize (Hall e (or_introl eq_refl)). lra.
      - apply IH. intros x Hx. apply Hall. right. exact Hx. }
    rewrite Hf. reflexivity.
Qed.

Lemma X6_composed_confidence_witness :
  ~ 100 == 0
  /\ exists key_levels,
       compose_key_levels [("HVL", 110); ("1D Min", 95); ("VWAS", 0)] 100
       = ok key_levels
       /\ List.length key_levels = 2%nat
       /\ forall kl, In kl key_levels -> (1#100) <= confidence kl <= (8#10).
Proof.
  split; [discriminate|].
  destruct (X6_composed_confidence_range
              [("HVL", 110); ("1D Min", 95); ("VWAS", 0)] 100) as [H _].
  destruct (H ltac:(discriminate)) as [kls [H1 [H2 H3]]].
  exists kls. split; [exact H1|]. split; [exact H2 | exact H3].
Defined.

(** ** Sums per key *)

Section DictNone.
Context {K V : Type} (keq : K -> K -> bool).

Lemma dict_get_None (d : dict K V) (k : K) :
  dict_get keq d k = None <-> forall x, In x d -> keq (fst x) k = false.
Proof.
  induction d as [|[k0 v0] r IH]; simpl.
  - split; [intros _ x [] | reflexivity].
  - destruct (keq k0 k) eqn:E.
    + split; [discriminate|]. intro H.
      specialize (H (k0, v0) (or_introl eq_refl)). simpl in H. congruence.
    + rewrite IH. split.
      * intros H x [<- | Hx]; [exact E | apply H; exact Hx].
      * intros H x Hx. apply H. right. exact Hx.
Qed.

Lemma dict_set_absent (d : dict K V) (k : K) (v : V) :
  dict_get keq d k = None -> dict_set keq d k v = d ++ [(k, v)].
Proof.
  induction d as [|[k0 v0] r IH]; simpl; [reflexivity|].
  destruct (keq k0 k); [discriminate|]. intro H. rewrite (IH H). reflexivity.
Qed.

Lemma dict_set_In (d : dict K V) (k : K) (v : V) (x : K * V) :
  In x (dict_set keq d k v) -> In x d \/ snd x = v.
Proof.
  induction d as [|[k0 v0] r IH]; simpl.
  - intros [<- | []]. right. reflexivity.
  - destruct (keq k0 k); simpl.
    + intros [<- | H]; [right; reflexivity | left; right; exact H].
    + intros [<- | H]; [left; left; reflexivity|].
      destruct (IH H) as [H' | H']; [left; right; exact H' | right; exact H'].
Qed.

End DictNone.

Section DictDistinct.
Context {K V : Type} (keq : K -> K -> bool).
Hypothesis keq_sym : forall k k', keq k k' = keq k' k.

Lemma dict_wf_app_absent (d1 d2 : dict K V) (k : K) :
  dict_wf keq (d1 ++ d2) -> (exists v, In (k, v) d2) ->
  dict_get keq d1 k = None.
Proof.
  intros Hw [v Hin]. induction d1 as [|[k0 v0] r IH]; [reflexivity|].
  simpl in *. destruct Hw as [Hn Hw].
  rewrite dict_get_None in Hn.
  specialize (Hn (k, v) (in_or_app _ _ _ (or_intror Hin))). simpl in Hn.
  rewrite keq_sym, Hn. apply IH, Hw.
Qed.

(** Items with distinct keys make the dictionary of exactly these items. *)
Lemma dict_update_distinct (items : list (K * V)) (d : dict K V) :
  dict_wf keq (d ++ items) -> dict_update keq d items = d ++ items.
Proof.
  unfold dict_update. revert d.
  induction items as [|[k v] r IH]; intros d Hw; simpl.
  - rewrite app_nil_r. reflexivity.
  - rewrite dict_set_absent.
    + rewrite IH; rewrite <- app_assoc; [reflexivity | exact Hw].
    + apply (dict_wf_app_absent d ((k, v) :: r) k Hw).
      exists v. left. reflexivity.
Qed.

Lemma dict_of_items_distinct (items : list (K * V)) :
  dict_wf keq items -> dict_of_items keq items = items.
Proof. intro H. apply (dict_update_distinct items [] H). Qed.

Lemma dict_wf_filter (f : K * V -> bool) (d : dict K V) :
  dict_wf keq d -> dict_wf keq (filter f d).
Proof.
  induction d as [|[k v] r IH]; simpl; [auto|]. intros [Hn Hw].
  destruct (f (k, v)); [|apply IH, Hw].
  simpl. split; [|apply IH, Hw].
  rewrite dict_get_None in *. intros x Hx. apply Hn.
  apply filter_In in Hx. apply Hx.
Qed.

Lemma dict_wf_firstn (n : nat) (d : dict K V) :
  dict_wf keq d -> dict_wf keq (firstn n d).
Proof.
  revert d. induction n as [|n IH]; intros [|[k v] r]; simpl; auto.
  intros [Hn Hw]. split; [|apply IH, Hw].
  rewrite dict_get_None in *. intros x Hx. apply Hn.
  eapply firstn_incl. exact Hx.
Qed.

Lemma dict_wf_insert_by (leb : K * V -> K * V -> bool) (x : K * V) (d : dict K V) :
  dict_wf keq d -> dict_get keq d (fst x) = None ->
  dict_wf keq (insert_by leb x d).
Proof.
  destruct x as [kx vx]. simpl.
  induction d as [|[k v] r IH]; simpl; [auto|]. intros [Hn Hw] Hx.
  destruct (keq k kx) eqn:E; [discriminate|].
  destruct (leb (kx, vx) (k, v)); simpl.
  - rewrite E. auto.
  - split; [|apply IH; assumption].
    rewrite dict_get_None in *. intros y Hy.
    apply (Permutation_in _ (insert_by_perm leb (kx, vx) r)) in Hy.
    destruct Hy as [<- | Hy]; [simpl; rewrite keq_sym; exact E | apply Hn; exact Hy].
Qed.

Lemma dict_wf_sort_by (leb : K * V -> K * V -> bool) (d : dict K V) :
  dict_wf keq d -> dict_wf keq (sort_by leb d).
Proof.
  induction d as [|[k v] r IH]; simpl; [auto|]. intros [Hn Hw].
  apply dict_wf_insert_by; [apply IH, Hw|]. simpl.
  rewrite dict_get_None in *. intros y Hy. apply Hn.
  apply sort_by_In in Hy. exact Hy.
Qed.

End DictDistinct.

Lemma dict_add_wf (d : dict Q Q) (k v : Q) :
  dict_wf Qeq_bool d -> dict_wf Qeq_bool (dict_add d k v).
Proof. apply dict_wf_set; [apply Qeq_bool_sym' | apply Qeq_bool_trans']. Qed.

Lemma dict_add_get (d : dict Q Q) (k v s : Q) :
  dict_get_default Qeq_bool (dict_add d k v) s 0
  == dict_get_default Qeq_bool d s 0 + (if Qeq_bool k s then v else 0).
Proof.
  unfold dict_add.
  rewrite (dict_get_default_set Qeq_bool Qeq_bool_sym' Qeq_bool_trans').
  destruct (Qeq_bool k s) eqn:E; [|ring].
  unfold dict_get_default.
  rewrite (dict_get_keq Qeq_bool Qeq_bool_sym' Qeq_bool_trans' d k s E).
  reflexivity.
Qed.

Lemma positive_values_get (d : dict Q Q) (k : Q) :
  positive_values d -> 0 <= dict_get_default Qeq_bool d k 0.
Proof.
  intro H. unfold dict_get_default.
  destruct (dict_get Qeq_bool d k) as [v|] eqn:E; [|lra].
  destruct (dict_get_In Qeq_bool d k v E) as [k' [Hin _]].
  specialize (H (k', v) Hin). simpl in H. lra.
Qed.

Lemma dict_add_positive (d : dict Q Q) (k v : Q) :
  positive_values d -> 0 < v -> positive_values (dict_add d k v).
Proof.
  intros Hd Hv x Hx. unfold dict_add in Hx.
  apply dict_set_In in Hx. destruct Hx as [Hx | ->]; [apply Hd; exact Hx|].
  pose proof (positive_values_get d k Hd). lra.
Qed.

Lemma dict_add_all_spec (l : list (Q * Q)) :
  forall d, dict_wf Qeq_bool d ->
  dict_wf Qeq_bool (dict_add_all d l)
  /\ (forall s, dict_get_default Qeq_bool (dict_add_all d l) s 0
                == dict_get_default Qeq_bool d s 0 + sum_at l s)
  /\ (forall k, In k (dict_keys (dict_add_all d l)) ->
                In k (dict_keys d) \/ exists kv, In kv l /\ fst kv = k)
  /\ (forall k, dict_mem Qeq_bool d k = true ->
                dict_mem Qeq_bool (dict_add_all d l) k = true)
  /\ (forall kv, In kv l -> dict_mem Qeq_bool (dict_add_all d l) (fst kv) = true)
  /\ (positive_values d -> (forall kv, In kv l -> 0 < snd kv) ->
      positive_values (dict_add_all d l)).
Proof.
  unfold dict_add_all, sum_at.
  induction l as [|[k v] r IH]; intros d Hw; simpl.
  - split; [exact Hw|]. split; [intro s; ring|]. split; [auto|].
    split; [auto|]. split; [intros kv []|]. auto.
  - destruct (IH (dict_add d k v) (dict_add_wf d k v Hw))
      as [Hw' [Hsum [Hkeys [Hmono [Hmem Hpos]]]]].
    split; [exact Hw'|]. split; [|split; [|split; [|split]]].
    + intro s. rewrite Hsum, dict_add_get. ring.
    + intros k' Hk'. destruct (Hkeys k' Hk') as [H | [kv [Hin <-]]].
      * unfold dict_add in H. apply dict_keys_set_origin in H.
        destruct H as [H | ->]; [left; exact H|].
        right. exists (k, v). simpl. auto.
      * right. exists kv. auto.
    + intros k' Hk'. apply Hmono. unfold dict_add.
      rewrite (dict_mem_set Qeq_bool Qeq_bool_sym' Qeq_bool_trans'), Hk'.
      apply orb_true_r.
    + intros kv [<- | Hin]; [|apply Hmem; exact Hin].
      apply Hmono. unfold dict_add. simpl.
      rewrite (dict_mem_set Qeq_bool Qeq_bool_sym' Qeq_bool_trans'), Qeq_bool_refl.
      reflexivity.
    + intros Hd Hl. apply Hpos.
      * apply dict_add_positive; [exact Hd|]. apply (Hl (k, v)). left. reflexivity.
      * intros kv Hin. apply Hl. right. exact Hin.
Qed.

Lemma aggregate_oi_step (c p : dict Q Q) (i : Instrument) :
  aggregate_oi (c, p) i
  = (if counted_on true i then dict_add c (strike i) (open_interest i) else c,
     if counted_on false i then dict_add p (strike i) (open_interest i) else p).
Proof.
  unfold aggregate_oi, counted_on, Qlt_bool, dict_add.
  destruct (Qle_bool (open_interest i) 0); [reflexivity|].
  destruct (is_call i); reflexivity.
Qed.

(** The aggregation loop is the two per-strike sums, one per side. *)
Lemma aggregate_oi_fold (l : list Instrument) (c p : dict Q Q) :
  fold_left aggregate_oi l (c, p)
  = (dict_add_all c (side_items true l), dict_add_all p (side_items false l)).
Proof.
  revert c p. induction l as [|i r IH]; intros c p; [reflexivity|].
  cbn [fold_left]. rewrite aggregate_oi_step, IH.
  unfold side_items. cbn [filter].
  destruct (counted_on true i), (counted_on false i); reflexivity.
Qed.

Lemma side_items_In (side : bool) (l : list Instrument) (kv : Q * Q) :
  In kv (side_items side l) <->
  exists i, In i l /\ kv = (strike i, open_interest i)
            /\ is_call i = side /\ 0 < open_interest i.
Proof.
  unfold side_items, counted_on. rewrite in_map_iff. split.
  - intros [i [<- Hi]]. apply filter_In in Hi. destruct Hi as [Hin Hc].
    apply andb_true_iff in Hc. destruct Hc as [Hoi Hs].
    exists i. split; [exact Hin|]. split; [reflexivity|].
    split; [apply eqb_prop; exact Hs | apply Qlt_bool_iff; exact Hoi].
  - intros [i [Hin [-> [Hs Hoi]]]]. exists i. split; [reflexivity|].
    apply filter_In. split; [exact Hin|]. apply andb_true_iff.
    split; [apply Qlt_bool_iff; exact Hoi | rewrite Hs; apply eqb_reflx].
Qed.

Lemma aggregate_side_spec (side : bool) (l : list Instrument) :
  let d := dict_add_all [] (side_items side l) in
  dict_wf Qeq_bool d
  /\ (forall s, dict_get_default Qeq_bool d s 0 == oi_at side l s)
  /\ (forall k, In k (dict_keys d) ->
        exists i, In i l /\ strike i = k /\ is_call i = side
                  /\ 0 < open_interest i)
  /\ positive_values d
  /\ (forall i, In i l -> is_call i = side -> 0 < open_interest i ->
        dict_mem Qeq_bool d (strike i) = true).
Proof.
  cbv zeta.
  destruct (dict_add_all_spec (side_items side l) [] I)
    as [Hw [Hsum [Hkeys [_ [Hmem Hpos]]]]].
  split; [exact Hw|]. split; [|split; [|split]].
  - intro s. rewrite Hsum. unfold oi_at, dict_get_default. simpl. ring.
  - intros k Hk. destruct (Hkeys k Hk) as [[] | [kv [Hin <-]]].
    apply side_items_In in Hin. destruct Hin as [i [Hi [-> [Hs Hoi]]]].
    exists i. simpl. auto.
  - apply Hpos; [intros x []|]. intros kv Hin.
    apply side_items_In in Hin. destruct Hin as [i [_ [-> [_ Hoi]]]]. exact Hoi.
  - intros i Hi Hs Hoi.
    apply (Hmem (strike i, open_interest i)). apply side_items_In.
    exists i. auto.
Qed.

(** ** The open interest per strike *)

(** X7. After the aggregation loop each side holds one entry per strike,
    whose value is the sum of the positive open interests of the instruments
    of that side at that strike; every entry is positive and belongs to an
    instrument of its side, and every instrument with a positive open
    interest has its strike on its side.  An instrument with an open
    interest of 0 or less changes nothing. *)
Theorem X7_open_interest_per_strike (l : list Instrument) :
  let agg := fold_left aggregate_oi l ([], []) in
  (dict_wf Qeq_bool (fst agg) /\ dict_wf Qeq_bool (snd agg))
  /\ (forall s, dict_get_default Qeq_bool (fst agg) s 0 == oi_at true l s
                /\ dict_get_default Qeq_bool (snd agg) s 0 == oi_at false l s)
  /\ (forall k, In k (dict_keys (fst agg)) ->
        exists i, In i l /\ strike i = k /\ is_call i = true
                  /\ 0 < open_interest i)
  /\ (forall k, In k (dict_keys (snd agg)) ->
        exists i, In i l /\ strike i = k /\ is_call i = false
                  /\ 0 < open_interest i)
  /\ (positive_values (fst agg) /\ positive_values (snd agg))
  /\ (forall i, In i l -> 0 < open_interest i ->
        dict_mem Qeq_bool (if is_call i then fst agg else snd agg) (strike i)
        = true)
  /\ (forall i acc, open_interest i <= 0 -> aggregate_oi acc i = acc).
Proof.
  cbv zeta. rewrite aggregate_oi_fold. cbn [fst snd].
  destruct (aggregate_side_spec true l) as [Hw1 [Hs1 [Hk1 [Hp1 Hm1]]]].
  destruct (aggregate_side_spec false l) as [Hw2 [Hs2 [Hk2 [Hp2 Hm2]]]].
  split; [split; assumption|]. split; [intro s; split; [apply Hs1 | apply Hs2]|].
  split; [exact Hk1|]. split; [exact Hk2|]. split; [split; assumption|].
  split.
  - intros i Hi Hoi. destruct (is_call i) eqn:E.
    + apply Hm1; assumption.
    + apply Hm2; assumption.
  - intros i [c p] Hoi. unfold aggregate_oi.
    apply Qle_bool_iff in Hoi. rewrite Hoi. reflexivity.
Qed.

Lemma X7_open_interest_witness :
  let agg := fold_left aggregate_oi sample_0dte ([], []) in
  In 95 (dict_keys (snd agg))
  /\ exists i, In i sample_0dte /\ strike i = 95 /\ is_call i = false
               /\ 0 < open_interest i.
Proof.
  cbv zeta.
  assert (H : In 95 (dict_keys (snd (fold_left aggregate_oi sample_0dte ([], [])))))
    by (vm_compute; left; reflexivity).
  split; [exact H|].
  destruct (X7_open_interest_per_strike sample_0dte) as [_ [_ [_ [Hk _]]]].
  apply Hk. exact H.
Defined.

(** ** The cap of the band filter *)

Lemma firstn_or_later {A} (R : A -> A -> Prop) (n : nat) (l : list A) (x : A) :
  StronglySorted R l -> In x l ->
  In x (firstn n l)
  \/ (List.length (firstn n l) = n /\ forall y, In y (firstn n l) -> R y x).
Proof.
  revert l. induction n as [|n IH]; intros l Hs Hin.
  - right. split; [reflexivity | intros y []].
  - destruct l as [|a r]; [destruct Hin|]. simpl.
    inversion Hs as [|? ? Hs' Hf]; subst.
    destruct Hin as [-> | Hin]; [left; left; reflexivity|].
    destruct (IH r Hs' Hin) as [H | [Hlen Hall]]; [left; right; exact H|].
    right. split; [rewrite Hlen; reflexivity|].
    intros y [<- | Hy]; [|apply Hall; exact Hy].
    rewrite Forall_forall in Hf. apply Hf. exact Hin.
Qed.

Lemma filter_call_strikes_distinct (spot_price : Q) (d : dict Q Q) (band : Q) :
  dict_wf Qeq_bool d ->
  filter_call_strikes spot_price d band
  = firstn 10
      (sort_key fst
         (filter (fun item =>
                    Qlt_bool spot_price (fst item)
                    && Qle_bool (fst item) (spot_price * (1 + band / 100))) d)).
Proof.
  intro Hw. unfold filter_call_strikes. apply dict_of_items_distinct.
  - apply Qeq_bool_sym'.
  - apply dict_wf_firstn. unfold sort_key.
    apply dict_wf_sort_by; [apply Qeq_bool_sym'|].
    apply dict_wf_filter. exact Hw.
Qed.

Lemma filter_put_strikes_distinct (spot_price : Q) (d : dict Q Q) (band : Q) :
  dict_wf Qeq_bool d ->
  filter_put_strikes spot_price d band
  = firstn 10
      (sort_key_rev fst
         (filter (fun item =>
                    Qlt_bool (fst item) spot_price
                    && Qle_bool (spot_price * (1 - band / 100)) (fst item)) d)).
Proof.
  intro Hw. unfold filter_put_strikes. apply dict_of_items_distinct.
  - apply Qeq_bool_sym'.
  - apply dict_wf_firstn. unfold sort_key_rev.
    apply dict_wf_sort_by; [apply Qeq_bool_sym'|].
    apply dict_wf_filter. exact Hw.
Qed.

Lemma dict_wf_same_entry (d : dict Q Q) (a b : Q * Q) :
  dict_wf Qeq_bool d -> In a d -> In b d -> fst a == fst b -> a = b.
Proof.
  intros Hw Ha Hb Hk. apply Qeq_bool_iff in Hk.
  induction d as [|[k0 v0] r IH]; [destruct Ha|].
  destruct Hw as [Hn Hw].
  assert (Hno : forall x, In x r -> Qeq_bool k0 (fst x) = false).
  { intros [k v] Hx. cbn [fst].
    destruct (Qeq_bool k0 k) eqn:E; [|reflexivity]. exfalso.
    rewrite (dict_get_keq Qeq_bool Qeq_bool_sym' Qeq_bool_trans' r k0 k E) in Hn.
    rewrite (dict_wf_In_get Qeq_bool Qeq_bool_refl Qeq_bool_sym' Qeq_bool_trans'
               r k v Hw Hx) in Hn. discriminate. }
  destruct Ha as [<- | Ha], Hb as [<- | Hb].
  - reflexivity.
  - cbn [fst] in Hk. rewrite (Hno b Hb) in Hk. discriminate.
  - cbn [fst] in Hk. rewrite Qeq_bool_sym', (Hno a Ha) in Hk. discriminate.
  - apply IH; assumption.
Qed.

(** X8. On a dictionary of distinct strikes the filters return entries of
    the dictionary unchanged, and the cap of 10 keeps the strikes nearest to
    the spot price: an entry above the spot price that is no higher than a
    returned call strike is returned as well, and so is an entry below the
    spot price that is no lower than a returned put strike. *)
Theorem X8_band_filter_keeps_nearest
  (d : dict Q Q) (spot_price band : Q) :
  dict_wf Qeq_bool d ->
  let calls := filter_call_strikes spot_price d band in
  let puts := filter_put_strikes spot_price d band in
  (forall x, In x calls -> In x d)
  /\ (forall x, In x puts -> In x d)
  /\ (forall k v x, In (k, v) d -> In x calls ->
        spot_price < k -> k <= fst x -> In (k, v) calls)
  /\ (forall k v x, In (k, v) d -> In x puts ->
        k < spot_price -> fst x <= k -> In (k, v) puts).
Proof.
  intro Hw. cbv zeta.
  rewrite (filter_call_strikes_distinct spot_price d band Hw).
  rewrite (filter_put_strikes_distinct spot_price d band Hw).
  split; [|split; [|split]].
  - intros x Hx. apply firstn_incl, sort_by_In, filter_In in Hx. apply Hx.
  - intros x Hx. apply firstn_incl, sort_by_In, filter_In in Hx. apply Hx.
  - intros k v x Hin Hx H1 H2.
    pose proof Hx as Hx'. apply firstn_incl, sort_by_In, filter_In in Hx'.
    destruct Hx' as [Hxd Hxb]. apply andb_true_iff in Hxb.
    destruct Hxb as [_ Hxb]. apply Qle_bool_iff in Hxb.
    destruct (firstn_or_later (fun a b => fst a <= fst b) 10
                (sort_key fst
                   (filter (fun item =>
                              Qlt_bool spot_price (fst item)
                              && Qle_bool (fst item)
                                          (spot_price * (1 + band / 100))) d))
                (k, v)) as [H | [_ Hall]].
    + apply sort_key_sorted.
    + apply sort_by_In, filter_In. split; [exact Hin|]. cbn [fst].
      apply andb_true_iff. split; [apply Qlt_bool_iff; exact H1|].
      apply Qle_bool_iff. apply (Qle_trans _ (fst x)); assumption.
    + exact H.
    + specialize (Hall x Hx). cbn [fst] in Hall.
      assert (Heq : x = (k, v)).
      { apply (dict_wf_same_entry d); [exact Hw | exact Hxd | exact Hin|].
        cbn [fst]. apply Qle_antisym; assumption. }
      rewrite <- Heq. exact Hx.
  - intros k v x Hin Hx H1 H2.
    pose proof Hx as Hx'. apply firstn_incl, sort_by_In, filter_In in Hx'.
    destruct Hx' as [Hxd Hxb]. apply andb_true_iff in Hxb.
    destruct Hxb as [_ Hxb]. apply Qle_bool_iff in Hxb.
    destruct (firstn_or_later (fun a b => fst b <= fst a) 10
                (sort_key_rev fst
                   (filter (fun item =>
                              Qlt_bool (fst item) spot_price
                              && Qle_bool (spot_price * (1 - band / 100))
                                          (fst item)) d))
                (k, v)) as [H | [_ Hall]].
    + apply sort_key_rev_sorted.
    + apply sort_by_In, filter_In. split; [exact Hin|]. cbn [fst].
      apply andb_true_iff. split; [apply Qlt_bool_iff; exact H1|].
      apply Qle_bool_iff. apply (Qle_trans _ (fst x)); assumption.
    + exact H.
    + specialize (Hall x Hx). cbn [fst] in Hall.
      assert (Heq : x = (k, v)).
      { apply (dict_wf_same_entry d); [exact Hw | exact Hxd | exact Hin|].
        cbn [fst]. apply Qle_antisym; assumption. }
      rewrite <- Heq. exact Hx.
Qed.

Lemma X8_band_filter_witness :
  let d := [(130, 5); (90, 1); (105, 2); (101, 7); (120, 3)] in
  dict_wf Qeq_bool d
  /\ In (105, 2) d /\ In (120, 3) (filter_call_strikes 100 d 25)
  /\ 100 < 105 /\ 105 <= 120
  /\ In (105, 2) (filter_call_strikes 100 d 25).
Proof.
  cbv zeta.
  assert (Hw : dict_wf Qeq_bool [(130, 5); (90, 1); (105, 2); (101, 7); (120, 3)])
    by (vm_compute; tauto).
  assert (Hin : In (105, 2) [(130, 5); (90, 1); (105, 2); (101, 7); (120, 3)])
    by (simpl; tauto).
  assert (Hx : In (120, 3)
                 (filter_call_strikes 100
                    [(130, 5); (90, 1); (105, 2); (101, 7); (120, 3)] 25))
    by (vm_compute; tauto).
  split; [exact Hw|]. split; [exact Hin|]. split; [exact Hx|].
  split; [reflexivity|]. split; [discriminate|].
  destruct (X8_band_filter_keeps_nearest _ 100 25 Hw) as [_ [_ [H _]]].
  apply (H 105 2 (120, 3) Hin Hx); [reflexivity | discriminate].
Defined.

(** ** Resistance and support of a timeframe *)

Lemma py_sum_nonneg (l : list Q) : (forall x, In x l -> 0 <= x) -> 0 <= py_sum l.
Proof.
  induction l as [|x r IH]; intro H.
  - unfold py_sum. simpl. lra.
  - rewrite py_sum_cons.
    pose proof (H x (or_introl eq_refl)).
    assert (0 <= py_sum r) by (apply IH; intros y Hy; apply H; right; exact Hy).
    lra.
Qed.

Lemma level_names_differ (tf : string) :
  String.eqb (level_name "Call Resistance" tf) (level_name "Put Support" tf) = false.
Proof. reflexivity. Qed.

Lemma band_filter_bounds (spot_price : Q) (C P : dict Q Q) (band : Q) :
  (forall s, In s (dict_keys (filter_call_strikes spot_price C band)) ->
     spot_price < s /\ s <= spot_price * (1 + band / 100))
  /\ (List.length (filter_call_strikes spot_price C band) <= 10)%nat
  /\ (forall s, In s (dict_keys (filter_put_strikes spot_price P band)) ->
        spot_price * (1 - band / 100) <= s /\ s < spot_price)
  /\ (List.length (filter_put_strikes spot_price P band) <= 10)%nat.
Proof.
  unfold filter_call_strikes, filter_put_strikes.
  split; [|split; [|split]].
  - intros s H. apply dict_of_items_In, in_map_iff in H.
    destruct H as [item [<- H]].
    apply firstn_incl, sort_by_In, filter_In in H. destruct H as [_ H].
    apply andb_true_iff in H. rewrite Qlt_bool_iff, Qle_bool_iff in H. exact H.
  - eapply Nat.le_trans; [apply dict_of_items_length | apply firstn_le_length].
  - intros s H. apply dict_of_items_In, in_map_iff in H.
    destruct H as [item [<- H]].
    apply firstn_incl, sort_by_In, filter_In in H. destruct H as [_ H].
    apply andb_true_iff in H. rewrite Qlt_bool_iff, Qle_bool_iff in H. tauto.
  - eapply Nat.le_trans; [apply dict_of_items_length | apply firstn_le_length].
Qed.

Lemma band_filter_sub (spot_price : Q) (C P : dict Q Q) (band : Q) :
  dict_wf Qeq_bool C -> dict_wf Qeq_bool P ->
  (forall x, In x (filter_call_strikes spot_price C band) -> In x C)
  /\ (forall x, In x (filter_put_strikes spot_price P band) -> In x P).
Proof.
  intros HC HP.
  rewrite (filter_call_strikes_distinct spot_price C band HC).
  rewrite (filter_put_strikes_distinct spot_price P band HP).
  split; intros x Hx; apply firstn_incl, sort_by_In, filter_In in Hx; apply Hx.
Qed.

(** What the filtered entries of one side are: entries of the aggregated
    side, whose value is the open interest of the side at their strike. *)
Lemma filtered_side_entries (side : bool) (l : list Instrument)
  (filtered : dict Q Q) :
  (forall x, In x filtered -> In x (dict_add_all [] (side_items side l))) ->
  forall x, In x filtered ->
    snd x == oi_at side l (fst x)
    /\ 0 < snd x
    /\ exists i, In i l /\ strike i = fst x /\ is_call i = side
                 /\ 0 < open_interest i.
Proof.
  intros Hsub [k v] Hx. specialize (Hsub (k, v) Hx).
  destruct (aggregate_side_spec side l) as [Hw [Hs [Hk [Hp _]]]]. simpl.
  split; [|split].
  - rewrite <- Hs. unfold dict_get_default.
    rewrite (dict_wf_In_get Qeq_bool Qeq_bool_refl Qeq_bool_sym' Qeq_bool_trans'
               _ k v Hw Hsub). reflexivity.
  - apply (Hp (k, v) Hsub).
  - apply Hk. apply in_map_iff. exists (k, v). auto.
Qed.

(** X9. For one timeframe: at most 10 strikes are kept on each side and the
    two totals are not negative; the call resistance, when there is one, is
    a strike above the spot price within the band, the strike of a call with
    positive open interest, and no kept call strike has more open interest;
    the put support is the same below the spot price; a level is missing
    exactly when no strike is kept on its side, and no other level is
    made. *)
Theorem X9_resistance_and_support
  (spot_price : Q) (l : list Instrument) (tf : string) (band : Q)
  (levels : dict string Q) (n_calls n_puts : nat) (call_oi put_oi : Q) :
  process_timeframe spot_price l tf band
  = (levels, n_calls, n_puts, call_oi, put_oi) ->
  let agg := fold_left aggregate_oi l ([], []) in
  let calls := filter_call_strikes spot_price (fst agg) band in
  let puts := filter_put_strikes spot_price (snd agg) band in
  ((n_calls <= 10)%nat /\ (n_puts <= 10)%nat /\ 0 <= call_oi /\ 0 <= put_oi)
  /\ (forall s,
        dict_get String.eqb levels (level_name "Call Resistance" tf) = Some s ->
        (spot_price < s /\ s <= spot_price * (1 + band / 100))
        /\ (exists i, In i l /\ strike i = s /\ is_call i = true
                      /\ 0 < open_interest i)
        /\ forall x, In x calls -> oi_at true l (fst x) <= oi_at true l s)
  /\ (forall s,
        dict_get String.eqb levels (level_name "Put Support" tf) = Some s ->
        (spot_price * (1 - band / 100) <= s /\ s < spot_price)
        /\ (exists i, In i l /\ strike i = s /\ is_call i = false
                      /\ 0 < open_interest i)
        /\ forall x, In x puts -> oi_at false l (fst x) <= oi_at false l s)
  /\ (dict_get String.eqb levels (level_name "Call Resistance" tf) = None
      <-> n_calls = 0%nat)
  /\ (dict_get String.eqb levels (level_name "Put Support" tf) = None
      <-> n_puts = 0%nat)
  /\ (forall n, In n (dict_keys levels) ->
        n = level_name "Call Resistance" tf \/ n = level_name "Put Support" tf).
Proof.
  intro Hp. cbv zeta. unfold process_timeframe in Hp.
  rewrite aggregate_oi_fold in *. cbn [fst snd] in *.
  set (C := dict_add_all [] (side_items true l)) in *.
  set (P := dict_add_all [] (side_items false l)) in *.
  destruct (aggregate_side_spec true l) as [HwC _]. fold C in HwC.
  destruct (aggregate_side_spec false l) as [HwP _]. fold P in HwP.
  set (calls := filter_call_strikes spot_price C band) in *.
  set (puts := filter_put_strikes spot_price P band) in *.
  destruct (band_filter_bounds spot_price C P band) as [Hcb [Hcl [Hpb Hpl]]].
  fold calls in Hcb, Hcl. fold puts in Hpb, Hpl.
  destruct (band_filter_sub spot_price C P band HwC HwP) as [Hcsub Hpsub].
  fold calls in Hcsub. fold puts in Hpsub.
  pose proof (filtered_side_entries true l calls Hcsub) as Hce.
  pose proof (filtered_side_entries false l puts Hpsub) as Hpe.
  pose proof (level_names_differ tf) as Hne.
  assert (Hne' : String.eqb (level_name "Put Support" tf)
                            (level_name "Call Resistance" tf) = false)
    by (rewrite String.eqb_sym; exact Hne).
  assert (Hbest : forall (side : bool) (filtered : dict Q Q) best,
             (forall x, In x filtered ->
                snd x == oi_at side l (fst x)) ->
             max_key snd filtered = Some best ->
             In best filtered
             /\ forall x, In x filtered ->
                  oi_at side l (fst x) <= oi_at side l (fst best)).
  { intros side filtered best He Hm. apply max_key_spec in Hm.
    destruct Hm as [Hin Hmax]. split; [exact Hin|].
    intros x Hx. rewrite <- (He x Hx), <- (He best Hin). apply Hmax. exact Hx. }
  assert (Hsums : 0 <= py_sum (dict_values calls) /\ 0 <= py_sum (dict_values puts)).
  { split; apply py_sum_nonneg; intros v Hv; apply in_map_iff in Hv;
      destruct Hv as [x [<- Hx]];
      [destruct (Hce x Hx) as [_ [H _]] | destruct (Hpe x Hx) as [_ [H _]]]; lra. }
  destruct Hsums as [Hsc Hsp].
  destruct (max_key snd calls) as [bc|] eqn:Ec;
    destruct (max_key snd puts) as [bp|] eqn:Ep;
    injection Hp as <- <- <- <- <-;
    try (destruct (Hbest true calls bc (fun x Hx => proj1 (Hce x Hx)) Ec)
           as [Hbc Hmc]);
    try (destruct (Hbest false puts bp (fun x Hx => proj1 (Hpe x Hx)) Ep)
           as [Hbp Hmp]);
    (split; [repeat split; assumption|]);
    cbn [dict_set dict_get dict_keys map fst];
    rewrite ?Hne, ?Hne', ?String.eqb_refl;
    cbn [dict_get dict_keys map fst];
    rewrite ?Hne, ?Hne', ?String.eqb_refl.
  - split; [|split; [|split; [|split]]].
    + intros s [= <-]. split; [apply Hcb, in_map, Hbc|].
      split; [apply (Hce bc Hbc) | exact Hmc].
    + intros s [= <-]. split; [apply Hpb, in_map, Hbp|].
      split; [apply (Hpe bp Hbp) | exact Hmp].
    + split; [discriminate|]. intro H0. destruct calls; [discriminate Ec | discriminate H0].
    + split; [discriminate|]. intro H0. destruct puts; [discriminate Ep | discriminate H0].
    + intros n [<- | [<- | []]]; auto.
  - split; [|split; [|split; [|split]]].
    + intros s [= <-]. split; [apply Hcb, in_map, Hbc|].
      split; [apply (Hce bc Hbc) | exact Hmc].
    + discriminate.
    + split; [discriminate|]. intro H0. destruct calls; [discriminate Ec | discriminate H0].
    + split; [|reflexivity]. intros _. destruct puts; [reflexivity | discriminate Ep].
    + intros n [<- | []]; auto.
  - split; [|split; [|split; [|split]]].
    + discriminate.
    + intros s [= <-]. split; [apply Hpb, in_map, Hbp|].
      split; [apply (Hpe bp Hbp) | exact Hmp].
    + split; [|reflexivity]. intros _. destruct calls; [reflexivity | discriminate Ec].
    + split; [discriminate|]. intro H0. destruct puts; [discriminate Ep | discriminate H0].
    + intros n [<- | []]; auto.
  - split; [|split; [|split; [|split]]].
    + discriminate.
    + discriminate.
    + split; [|reflexivity]. intros _. destruct calls; [reflexivity | discriminate Ec].
    + split; [|reflexivity]. intros _. destruct puts; [reflexivity | discriminate Ep].
    + intros n [].
Qed.

Lemma X9_resistance_and_support_witness :
  exists levels n_calls n_puts call_oi put_oi,
    process_timeframe 100 sample_week "1W" 25
    = (levels, n_calls, n_puts, call_oi, put_oi)
    /\ dict_get String.eqb levels (level_name "Call Resistance" "1W") = Some 110
    /\ (100 < 110 /\ 110 <= 100 * (1 + 25 / 100))
    /\ exists i, In i sample_week /\ strike i = 110 /\ is_call i = true
                 /\ 0 < open_interest i.
Proof.
  destruct (process_timeframe 100 sample_week "1W" 25)
    as [[[[levels nc] np] co] po] eqn:E.
  exists levels, nc, np, co, po. split; [reflexivity|].
  assert (Hl : dict_get String.eqb levels (level_name "Call Resistance" "1W")
               = Some 110).
  { vm_compute in E. injection E as <- _ _ _ _. reflexivity. }
  split; [exact Hl|].
  destruct (X9_resistance_and_support 100 sample_week "1W" 25
              levels nc np co po E) as [_ [H _]].
  destruct (H 110 Hl) as [Hb [Hi _]]. split; [exact Hb | exact Hi].
Defined.

Example process_timeframe_example :
  process_timeframe 100 sample_week "1W" 25
  = ([("Call Resistance 1W", 110); ("Put Support 1W", 90)],
     2%nat, 1%nat, 0 + (0 + 5) + (0 + 20 + 3), 0 + (0 + 25)).
Proof. vm_compute. reflexivity. Qed.

(** ** The gamma wall at its edges *)

Lemma gamma_step_skip (spot_price : Q) (d : dict Q Q) (i : Instrument) :
  open_interest i <= 0 -> gamma_step spot_price d i = ok d.
Proof.
  intro H. unfold gamma_step. apply Qle_bool_iff in H. rewrite H. reflexivity.
Qed.

Lemma gamma_fold_no_interest (spot_price : Q) (l : list Instrument) (d : dict Q Q) :
  (forall i, In i l -> open_interest i <= 0) ->
  fold_result (gamma_step spot_price) l d = ok d.
Proof.
  revert d. induction l as [|i r IH]; intros d H; [reflexivity|].
  cbn [fold_result]. rewrite gamma_step_skip by (apply H; left; reflexivity).
  rewrite bind_ok. apply IH. intros j Hj. apply H. right. exact Hj.
Qed.

Lemma gamma_fold_zero_spot (spot_price : Q) (l : list Instrument) (d : dict Q Q) :
  spot_price == 0 -> (exists i, In i l /\ 0 < open_interest i) ->
  fold_result (gamma_step spot_price) l d = raise ZeroDivisionError.
Proof.
  intros Hs. revert d. induction l as [|i r IH]; intros d [j [Hj Hoi]];
    [destruct Hj|].
  cbn [fold_result].
  destruct (Qlt_le_dec 0 (open_interest i)) as [Hpos | Hle].
  - unfold gamma_step. apply Qlt_not_le, Qle_bool_false' in Hpos. rewrite Hpos.
    unfold py_div. apply Qeq_bool_iff in Hs. rewrite Hs. reflexivity.
  - rewrite gamma_step_skip by exact Hle. rewrite bind_ok. apply IH.
    destruct Hj as [<- | Hj]; [lra|]. exists j. auto.
Qed.

Lemma gamma_fold_nonempty (spot_price : Q) (l : list Instrument) (d : dict Q Q) :
  ~ spot_price == 0 ->
  exists d', fold_result (gamma_step spot_price) l d = ok d'
             /\ (d <> [] -> d' <> [])
             /\ ((exists i, In i l /\ 0 < open_interest i) -> d' <> []).
Proof.
  intro Hs. revert d. induction l as [|i r IH]; intro d.
  - exists d. split; [reflexivity|]. split; [auto|]. intros [i [[] _]].
  - cbn [fold_result].
    destruct (Qlt_le_dec 0 (open_interest i)) as [Hpos | Hle].
    + unfold gamma_step at 1.
      rewrite (Qle_bool_false' _ _ (Qlt_not_le _ _ Hpos)).
      rewrite (py_div_ok _ _ Hs), !bind_ok.
      match goal with
      | |- context [fold_result _ r ?d1] => destruct (IH d1) as [d' [Hf [Hne _]]]
      end.
      exists d'. split; [exact Hf|].
      assert (d' <> []) by (apply Hne, dict_set_nonempty). auto.
    + rewrite gamma_step_skip by exact Hle. rewrite bind_ok.
      destruct (IH d) as [d' [Hf [Hne Hex]]].
      exists d'. split; [exact Hf|]. split; [exact Hne|].
      intros [j [[<- | Hj] Hoi]]; [lra|]. apply Hex. exists j. auto.
Qed.

(** X10. The gamma wall is the empty dictionary when no instrument has a
    positive open interest, whatever the spot price; with a spot price of 0
    and an instrument with a positive open interest it raises
    ZeroDivisionError; with any other spot price it returns exactly one
    level, named "Gamma Wall (Short Gamma)" or "Gamma Wall (Long Gamma)",
    as soon as one instrument has a positive open interest. *)
Theorem X10_gamma_wall_edges (instruments : list Instrument) (spot_price : Q) :
  ((forall i, In i instruments -> open_interest i <= 0) ->
   calculate_gamma_wall instruments spot_price = ok [])
  /\ (spot_price == 0 ->
      (exists i, In i instruments /\ 0 < open_interest i) ->
      calculate_gamma_wall instruments spot_price = raise ZeroDivisionError)
  /\ (~ spot_price == 0 ->
      (exists i, In i instruments /\ 0 < open_interest i) ->
      exists wall,
        calculate_gamma_wall instruments spot_price
        = ok [("Gamma Wall (Short Gamma)", wall)]
        \/ calculate_gamma_wall instruments spot_price
           = ok [("Gamma Wall (Long Gamma)", wall)]).
Proof.
  split; [|split].
  - intro H. unfold calculate_gamma_wall. destruct instruments as [|i r]; [reflexivity|].
    rewrite gamma_fold_no_interest by exact H. reflexivity.
  - intros Hs Hex. unfold calculate_gamma_wall.
    destruct instruments as [|i r]; [destruct Hex as [j [[] _]]|].
    rewrite (gamma_fold_zero_spot spot_price (i :: r) [] Hs Hex). reflexivity.
  - intros Hs Hex. unfold calculate_gamma_wall.
    destruct instruments as [|i r]; [destruct Hex as [j [[] _]]|].
    destruct (gamma_fold_nonempty spot_price (i :: r) [] Hs) as [d [-> [_ Hne]]].
    specialize (Hne Hex). rewrite bind_ok.
    destruct (max_key_some (fun x => Qabs (snd x)) d Hne) as [wall ->].
    exists (fst wall).
    destruct (Qlt_bool (dict_get_default Qeq_bool d (fst wall) 0) 0);
      [left | right]; reflexivity.
Qed.

Lemma X10_gamma_wall_witness :
  ~ 100 == 0
  /\ (exists i, In i sample_0dte /\ 0 < open_interest i)
  /\ exists wall,
       calculate_gamma_wall sample_0dte 100
       = ok [("Gamma Wall (Short Gamma)", wall)]
       \/ calculate_gamma_wall sample_0dte 100
          = ok [("Gamma Wall (Long Gamma)", wall)].
Proof.
  assert (Hex : exists i, In i sample_0dte /\ 0 < open_interest i).
  { eexists. split; [left; reflexivity | reflexivity]. }
  split; [discriminate|]. split; [exact Hex|].
  destruct (X10_gamma_wall_edges sample_0dte 100) as [_ [_ H]].
  apply H; [discriminate | exact Hex].
Defined.

(** ** What the flow loop swallows *)

Lemma flow_step_skipped (py_exp : Q -> Q) (spot_price : Q)
  (st : dict Q StrikeFlow * Q) (t : Trade) (clock : nat -> datetime) (tick : nat) :
  counted_strike t = None ->
  flow_step py_exp spot_price st t clock tick = (st, tick).
Proof.
  destruct st as [sf tv]. unfold counted_strike, trade_strike, flow_step.
  destruct (String.eqb (trade_instrument_name t) ""); [reflexivity|].
  destruct (List.length _ <? 4)%nat; [reflexivity|].
  destruct (py_float _) as [k|]; [|reflexivity].
  destruct (Qle_bool (amount t) 0 || Qle_bool (price t) 0);
    [reflexivity | discriminate].
Qed.

Lemma flow_step_swallowed (py_exp : Q -> Q) (spot_price : Q)
  (sf : dict Q StrikeFlow) (tv : Q) (t : Trade) (clock : nat -> datetime)
  (tick : nat) (k : Q) :
  counted_strike t = Some k ->
  EXP_MAX < exp_argument (clock tick) t \/ k == 0 ->
  flow_step py_exp spot_price (sf, tv) t clock tick
  = ((sf, tv + notional spot_price t), S tick).
Proof.
  unfold counted_strike, trade_strike, flow_step.
  destruct (String.eqb (trade_instrument_name t) ""); [discriminate|].
  destruct (List.length _ <? 4)%nat; [discriminate|].
  destruct (py_float _) as [k'|]; [|discriminate].
  destruct (Qle_bool (amount t) 0 || Qle_bool (price t) 0); [discriminate|].
  intros [= ->] H. unfold bind, now, ret, notional, math_exp.
  fold (exp_argument (clock tick) t).
  destruct (Qlt_bool EXP_MAX (exp_argument (clock tick) t)) eqn:Eo; [reflexivity|].
  apply Qlt_bool_false in Eo. destruct H as [H | H]; [lra|].
  cbv beta iota delta [bind_result ok].
  unfold calculate_delta_simple.
  change (Qle_bool (1 / 365) 0) with false. cbv iota.
  unfold py_div. apply Qeq_bool_iff in H. rewrite H. reflexivity.
Qed.

(** X11. A trade that the flow loop does not count (no name, fewer than
    four parts, a strike that is no number, an amount or a price that is not
    positive) changes nothing, and the clock is not read for it.  A counted
    trade whose time weight overflows, or whose strike is 0, adds its
    notional to the total and nothing at its strike: the error is caught
    after the total was increased.  Alone, such a trade gives no level at
    all. *)
Theorem X11_flow_swallows_errors
  (py_exp : Q -> Q) (spot_price : Q) (sf : dict Q StrikeFlow) (tv : Q)
  (t : Trade) (clock : nat -> datetime) (tick : nat) :
  (finite_strike t = true -> counted_strike t = None ->
   flow_step py_exp spot_price (sf, tv) t clock tick = ((sf, tv), tick))
  /\ (forall k, counted_strike t = Some k ->
        EXP_MAX < exp_argument (clock tick) t \/ k == 0 ->
        flow_step py_exp spot_price (sf, tv) t clock tick
        = ((sf, tv + notional spot_price t), S tick)
        /\ analyze_complete_options_flow py_exp [t] spot_price clock tick
           = ([], S tick)).
Proof.
  split.
  - intros _ H. apply flow_step_skipped. exact H.
  - intros k Hk H. split; [apply (flow_step_swallowed _ _ _ _ _ _ _ k Hk H)|].
    unfold analyze_complete_options_flow, bind, ret. cbn [foldM].
    unfold bind, ret.
    rewrite (flow_step_swallowed _ _ _ _ _ _ _ k Hk H). reflexivity.
Qed.

Lemma X11_flow_swallows_witness :
  let t := mkTrade (Some "a") "BTC-05NOV26-100-C" 1 1 "buy" 10000000000000 in
  counted_strike t = Some 100
  /\ (EXP_MAX < exp_argument sample_now t \/ 100 == 0)
  /\ flow_step (fun _ => 1) 100 ([], 0) t (fun _ => sample_now) 0%nat
     = (([], 0 + notional 100 t), 1%nat)
  /\ analyze_complete_options_flow (fun _ => 1) [t] 100 (fun _ => sample_now) 0%nat
     = ([], 1%nat).
Proof.
  intro t.
  assert (Hk : counted_strike t = Some 100) by reflexivity.
  assert (Ho : EXP_MAX < exp_argument sample_now t \/ 100 == 0)
    by (left; reflexivity).
  split; [exact Hk|]. split; [exact Ho|].
  apply (proj2 (X11_flow_swallows_errors (fun _ => 1) 100 [] 0 t
                  (fun _ => sample_now) 0%nat) 100 Hk Ho).
Defined.

(** ** A timestamp beyond the calendar *)

Lemma py_round_lower (x : Q) (n : Z) : inject_Z n <= x -> (n <= py_round x)%Z.
Proof.
  intro H. unfold py_round.
  assert (Hf : (n <= Qfloor x)%Z).
  { rewrite <- (Qfloor_Z n). apply Qfloor_resp_le. exact H. }
  destruct (Qlt_bool _ _); [lia|]. destruct (Qlt_bool _ _); [lia|].
  destruct (Z.even _); lia.
Qed.

Section CalendarLate.
Import Calendar.
Local Open Scope Z_scope.

(** The ordinals after 31 December 9999 are dates of later years. *)
Lemma ord2ymd_year_late (n : Z) :
  3652060 <= n -> let '(y, m, d) := ord2ymd n in 10000 <= y.
Proof.
  intro H. unfold ord2ymd, DI400Y, DI100Y, DI4Y.
  set (a := n - 1).
  pose proof (Z.div_mod a 146097 ltac:(lia)) as E1.
  pose proof (Z.mod_pos_bound a 146097 ltac:(lia)) as B1.
  set (n400 := a / 146097) in *. set (r1 := a mod 146097) in *.
  pose proof (Z.div_mod r1 36524 ltac:(lia)) as E2.
  pose proof (Z.mod_pos_bound r1 36524 ltac:(lia)) as B2.
  set (n100 := r1 / 36524) in *. set (r2 := r1 mod 36524) in *.
  pose proof (Z.div_mod r2 1461 ltac:(lia)) as E3.
  pose proof (Z.mod_pos_bound r2 1461 ltac:(lia)) as B3.
  set (n4 := r2 / 1461) in *. set (r3 := r2 mod 1461) in *.
  pose proof (Z.div_mod r3 365 ltac:(lia)) as E4.
  pose proof (Z.mod_pos_bound r3 365 ltac:(lia)) as B4.
  set (n1 := r3 / 365) in *. set (r4 := r3 mod 365) in *.
  assert (Ha : 3652059 <= a) by (unfold a; lia).
  clearbody a n400 r1 n100 r2 n4 r3 n1 r4.
  destruct ((n1 =? 4) || (n100 =? 4)) eqn:Ec.
  - apply orb_true_iff in Ec. rewrite !Z.eqb_eq in Ec. lia.
  - apply orb_false_iff in Ec. rewrite !Z.eqb_neq in Ec.
    match goal with
    | |- context [if ?c then _ else _] => destruct c
    end; lia.
Qed.

Lemma fromtimestamp_late (ms : Q) :
  (253402300800000 <= ms)%Q -> exists e, fromtimestamp (ms / 1000) = raise e.
Proof.
  intro H. unfold fromtimestamp.
  assert (Hx : (ms / 1000 * 1000000 == ms * 1000)%Q) by field.
  assert (Hlo : 253402300800000000 <= py_round (ms / 1000 * 1000000)).
  { apply py_round_lower. rewrite Hx.
    change (inject_Z 253402300800000000) with (253402300800000 * 1000)%Q. lra. }
  set (us := py_round (ms / 1000 * 1000000)) in *. clearbody us.
  destruct ((us / 1000000 <? - 2 ^ 63) || (2 ^ 63 <? us / 1000000));
    [eexists; reflexivity|].
  assert (Hd : 253402300800000000 / US_PER_DAY <= us / US_PER_DAY).
  { unfold US_PER_DAY. apply Z.div_le_mono; lia. }
  change (253402300800000000 / US_PER_DAY) with 2932897 in Hd.
  change (toordinal epoch) with 719163.
  pose proof (ord2ymd_year_late (719163 + us / US_PER_DAY) ltac:(lia)) as Hy.
  destruct (ord2ymd (719163 + us / US_PER_DAY)) as [[y m] d].
  destruct ((y - 1900 <? - 2 ^ 31) || (2 ^ 31 <=? y - 1900)) eqn:E2;
    [eexists; reflexivity|].
  apply orb_false_iff in E2. rewrite Z.ltb_ge, Z.leb_gt in E2.
  change (2 ^ 31) with 2147483648 in *. change (2 ^ 32) with 4294967296.
  destruct (2147483648 <=? y) eqn:E3.
  - assert (E4 : (y - 4294967296 <? 1) = true) by (apply Z.ltb_lt; lia).
    rewrite E4. eexists. reflexivity.
  - assert (E4 : (9999 <? y) = true) by (apply Z.ltb_lt; lia).
    rewrite E4, orb_true_r. eexists. reflexivity.
Qed.

End CalendarLate.

Lemma sorted_last_greatest (l : list Q) (x : Q) :
  StronglySorted Qle l -> In x l -> x <= last l 0.
Proof.
  intro Hs. revert x. induction Hs as [|a r Hs IH Hf]; intros x Hin;
    [destruct Hin|].
  destruct r as [|b r'].
  - destruct Hin as [<- | []]. simpl. lra.
  - change (last (a :: b :: r') 0) with (last (b :: r') 0).
    destruct Hin as [<- | Hin]; [|apply IH; exact Hin].
    rewrite Forall_forall in Hf.
    apply (Qle_trans _ b); [apply Hf; left; reflexivity|].
    apply IH. left. reflexivity.
Qed.

Lemma coverage_hours_late (all_trades : list Trade) (t : Trade) :
  In t all_trades -> 253402300800000 <= timestamp t ->
  exists e, coverage_hours all_trades = raise e.
Proof.
  intros Hin Hlate. unfold coverage_hours.
  destruct all_trades as [|t0 r0]; [destruct Hin|].
  set (l := t0 :: r0) in *. clearbody l.
  set (ts := map timestamp (filter (fun trade => Qlt_bool 0 (timestamp trade)) l)).
  assert (Hts : In (timestamp t) (sort_by Qle_bool ts)).
  { apply sort_by_In. unfold ts. apply in_map, filter_In.
    split; [exact Hin|]. apply Qlt_bool_iff. lra. }
  assert (Hsorted : StronglySorted Qle (sort_by Qle_bool ts)).
  { apply (sort_key_sorted (fun x : Q => x)). }
  destruct (sort_by Qle_bool ts) as [|first rest] eqn:Es; [destruct Hts|].
  destruct (Calendar.fromtimestamp (first / 1000)) as [e|d1];
    [eexists; reflexivity|].
  cbv beta iota delta [bind_result ok].
  pose proof (sorted_last_greatest _ _ Hsorted Hts) as Hlast.
  destruct (fromtimestamp_late (last (first :: rest) 0)) as [e2 He]; [lra|].
  rewrite He. eexists. reflexivity.
Qed.

(** X12. The coverage report of the trade retrievals ends the analysis: when
    a trade that the deduplication keeps, in the futures or in the options,
    is stamped in the year 10000 or later, [datetime.fromtimestamp] raises
    and the whole analysis raises with it, whatever the spot price, before
    any stage reads the clock.  When every fetched trade is stamped earlier
    the two retrievals return the deduplicated trades. *)
Theorem X12_late_timestamp_ends_analysis
  (py_exp : Q -> Q) (currency_ : string) (f : Fetched)
  (clock : nat -> datetime) (tick : nat) :
  (0 < fetch_index_price f ->
   (exists t,
      (In t (dict_values (unique_trades_of (futures_chunks f)))
       \/ In t (dict_values (unique_trades_of (options_chunks f))))
      /\ 253402300800000 <= timestamp t) ->
   exists e, generate_key_levels py_exp currency_ f clock tick = (raise e, tick))
  /\ (forall chunks, timestamps_in_range chunks ->
        fetch_complete_futures_trades chunks
        = ok (dict_values (unique_trades_of chunks))
        /\ fetch_complete_options_trades chunks
           = ok (dict_values (unique_trades_of chunks))).
Proof.
  split; [|apply fetch_complete_trades_ok].
  intros Hs [t [Hin Hlate]]. unfold generate_key_levels.
  apply Qle_bool_false in Hs. rewrite Hs.
  unfold fetch_complete_futures_trades, fetch_complete_options_trades. cbv zeta.
  destruct Hin as [Hin | Hin].
  - destruct (coverage_hours_late _ t Hin Hlate) as [e ->].
    cbv beta iota delta [bind_result raise]. eexists. reflexivity.
  - destruct (coverage_hours_late _ t Hin Hlate) as [e ->].
    destruct (coverage_hours _) as [e'|c];
      cbv beta iota delta [bind_result raise ok]; eexists; reflexivity.
Qed.

Lemma X12_late_timestamp_witness :
  let f := mkFetched (Some 100) [] [] []
             [[mkTrade (Some "a") "BTC-05NOV26-100-C" 1 1 "buy" 253402300800000]] in
  0 < fetch_index_price f
  /\ exists e,
       generate_key_levels (fun _ => 1) "BTC" f (fun _ => sample_now) 0%nat
       = (raise e, 0%nat).
Proof.
  intro f. split; [reflexivity|].
  apply (proj1 (X12_late_timestamp_ends_analysis
                  (fun _ => 1) "BTC" f (fun _ => sample_now) 0%nat));
    [reflexivity|].
  exists (mkTrade (Some "a") "BTC-05NOV26-100-C" 1 1 "buy" 253402300800000).
  split; [right; left; reflexivity | discriminate].
Defined.

(** ** The volume profile *)

Lemma dict_set_set {K V} (keq : K -> K -> bool) (d : dict K V) (k : K) (a b : V) :
  (forall x, keq x x = true) ->
  dict_set keq (dict_set keq d k a) k b = dict_set keq d k b.
Proof.
  intro Hrefl. induction d as [|[k0 v0] r IH]; simpl.
  - rewrite Hrefl. reflexivity.
  - destruct (keq k0 k) eqn:E; simpl; rewrite E; [reflexivity|].
    rewrite IH. reflexivity.
Qed.

Lemma volume_step_add (d : dict Q Q) (t : Trade) :
  volume_step d t
  = if counted_volume t then dict_add d (price_bucket (price t)) (amount t) else d.
Proof.
  unfold volume_step, counted_volume.
  destruct (Qle_bool (price t) 0 || Qle_bool (amount t) 0); [reflexivity|].
  cbn [negb]. fold (price_bucket (price t)).
  set (k := price_bucket (price t)). unfold dict_add, dict_mem, dict_get_default.
  destruct (dict_get Qeq_bool d k) as [v|] eqn:E.
  - rewrite E. reflexivity.
  - rewrite (dict_get_set Qeq_bool Qeq_bool_sym' Qeq_bool_trans'), Qeq_bool_refl.
    apply dict_set_set. apply Qeq_bool_refl.
Qed.

Lemma volume_fold (trades : list Trade) (d : dict Q Q) :
  fold_left volume_step trades d = dict_add_all d (volume_items trades).
Proof.
  revert d. induction trades as [|t r IH]; intro d; [reflexivity|].
  cbn [fold_left]. rewrite volume_step_add, IH.
  unfold volume_items. cbn [filter].
  destruct (counted_volume t); reflexivity.
Qed.

Lemma volume_items_In (trades : list Trade) (kv : Q * Q) :
  In kv (volume_items trades) <->
  exists t, In t trades /\ kv = (price_bucket (price t), amount t)
            /\ 0 < price t /\ 0 < amount t.
Proof.
  unfold volume_items, counted_volume. rewrite in_map_iff. split.
  - intros [t [<- Ht]]. apply filter_In in Ht. destruct Ht as [Hin Hc].
    apply negb_true_iff, orb_false_iff in Hc. destruct Hc as [H1 H2].
    apply Qle_bool_false in H1, H2. exists t. auto.
  - intros [t [Hin [-> [H1 H2]]]]. exists t. split; [reflexivity|].
    apply filter_In. split; [exact Hin|].
    apply negb_true_iff, orb_false_iff.
    split; apply Qle_bool_false; assumption.
Qed.

Lemma sum_at_keq (l : list (Q * Q)) (a b : Q) :
  a == b -> sum_at l a == sum_at l b.
Proof.
  intro H. unfold sum_at. induction l as [|x r IH]; simpl; [reflexivity|].
  rewrite IH.
  assert (Hb : Qeq_bool (fst x) a = Qeq_bool (fst x) b).
  { apply keq_congr; [apply Qeq_bool_sym' | apply Qeq_bool_trans'|].
    apply Qeq_bool_iff. exact H. }
  rewrite Hb. reflexivity.
Qed.

(** X13. The volume profile returns at most one level, named HVL, and none
    exactly when no trade has a positive price and a positive amount.  The
    price of the level is the price level of such a trade; its volume is
    the sum of the amounts traded at that price level, is positive, and no
    price level has more. *)
Theorem X13_highest_volume_level (trades : list Trade) (spot_price : Q) :
  (calculate_volume_profile_levels trades spot_price = []
   <-> forall t, In t trades -> price t <= 0 \/ amount t <= 0)
  /\ forall hvl r, calculate_volume_profile_levels trades spot_price = hvl :: r ->
       r = [] /\ vl_level hvl = "HVL"
       /\ (exists t, In t trades /\ 0 < price t /\ 0 < amount t
                     /\ vl_price hvl = price_bucket (price t))
       /\ vl_volume hvl == sum_at (volume_items trades) (vl_price hvl)
       /\ 0 < vl_volume hvl
       /\ forall t, In t trades -> 0 < price t -> 0 < amount t ->
            sum_at (volume_items trades) (price_bucket (price t))
            <= vl_volume hvl.
Proof.
  destruct (dict_add_all_spec (volume_items trades) [] I)
    as [Hw [Hsum [Hkeys [_ [Hmem Hpos]]]]].
  set (d := dict_add_all [] (volume_items trades)) in *.
  assert (Hval : forall k v, In (k, v) d -> v == sum_at (volume_items trades) k).
  { intros k v Hin. specialize (Hsum k). unfold dict_get_default in Hsum at 1.
    rewrite (dict_wf_In_get Qeq_bool Qeq_bool_refl Qeq_bool_sym' Qeq_bool_trans'
               d k v Hw Hin) in Hsum.
    rewrite Hsum. unfold dict_get_default. simpl. ring. }
  assert (Hcalc : calculate_volume_profile_levels trades spot_price
                  = match trades with
                    | [] => []
                    | _ => match max_key snd d with
                           | None => []
                           | Some best =>
                               [mkVolumeLevel "HVL" (fst best)
                                  (dict_get_default Qeq_bool d (fst best) 0)]
                           end
                    end).
  { unfold calculate_volume_profile_levels. destruct trades as [|t r]; [reflexivity|].
    cbv zeta. rewrite volume_fold. reflexivity. }
  rewrite Hcalc. clear Hcalc. split.
  - split.
    + intros H t Hin.
      destruct (Qlt_le_dec 0 (price t)) as [Hp|Hp]; [|left; exact Hp].
      destruct (Qlt_le_dec 0 (amount t)) as [Ha|Ha]; [|right; exact Ha].
      exfalso.
      assert (Hm : dict_mem Qeq_bool d (price_bucket (price t)) = true).
      { apply (Hmem (price_bucket (price t), amount t)).
        apply volume_items_In. exists t. auto. }
      destruct trades as [|t0 r0]; [destruct Hin|].
      destruct (max_key snd d) eqn:E; [discriminate H|].
      destruct d; [discriminate Hm | discriminate E].
    + intros H. destruct trades as [|t0 r0]; [reflexivity|].
      destruct (max_key snd d) as [best|] eqn:E; [|reflexivity]. exfalso.
      apply max_key_spec in E. destruct E as [Hin _].
      destruct (Hkeys (fst best)) as [[] | [kv [Hkv _]]];
        [apply in_map; exact Hin|].
      apply volume_items_In in Hkv. destruct Hkv as [t [Ht [_ [Hp Ha]]]].
      destruct (H t Ht); lra.
  - intros hvl r Hres. destruct trades as [|t0 r0]; [discriminate|].
    destruct (max_key snd d) as [[k v]|] eqn:E; [|discriminate].
    injection Hres as <- <-. cbn [fst vl_level vl_price vl_volume].
    apply max_key_spec in E. destruct E as [Hin Hmax].
    assert (Hv : dict_get_default Qeq_bool d k 0 = v).
    { unfold dict_get_default.
      rewrite (dict_wf_In_get Qeq_bool Qeq_bool_refl Qeq_bool_sym' Qeq_bool_trans'
                 d k v Hw Hin). reflexivity. }
    rewrite Hv. split; [reflexivity|]. split; [reflexivity|].
    assert (Hpv : 0 < v).
    { assert (Hp : positive_values d).
      { apply Hpos; [intros x []|]. intros kv Hkv.
        apply volume_items_In in Hkv. destruct Hkv as [t [_ [-> [_ Ha]]]]. exact Ha. }
      apply (Hp (k, v) Hin). }
    split; [|split; [|split]].
    + destruct (Hkeys k) as [[] | [kv [Hkv <-]]];
        [apply in_map_iff; exists (k, v); auto|].
      apply volume_items_In in Hkv. destruct Hkv as [t [Ht [-> [Hp Ha]]]].
      exists t. cbn [fst]. auto.
    + apply Hval. exact Hin.
    + exact Hpv.
    + intros t Ht Hp Ha.
      assert (Hm : dict_mem Qeq_bool d (price_bucket (price t)) = true).
      { apply (Hmem (price_bucket (price t), amount t)).
        apply volume_items_In. exists t. auto. }
      unfold dict_mem in Hm.
      destruct (dict_get Qeq_bool d (price_bucket (price t))) as [v'|] eqn:Eg;
        [|discriminate].
      destruct (dict_get_In Qeq_bool d _ v' Eg) as [k' [Hin' Hk']].
      apply Qeq_bool_iff in Hk'.
      specialize (Hmax (k', v') Hin'). cbn [snd] in Hmax.
      rewrite <- (sum_at_keq _ _ _ Hk'), <- (Hval k' v' Hin'). exact Hmax.
Qed.

Lemma X13_highest_volume_witness :
  let trades :=
    [ sample_trade (Some "f1") "BTC-PERPETUAL" 101 2 "buy";
      sample_trade (Some "f2") "BTC-PERPETUAL" (1012 # 10) 3 "sell";
      sample_trade (Some "f3") "BTC-PERPETUAL" (10104 # 100) 2 "sell" ] in
  exists hvl,
    calculate_volume_profile_levels trades 100 = [hvl]
    /\ vl_price hvl == 101 /\ vl_volume hvl == 4.
Proof.
  intro trades.
  destruct (calculate_volume_profile_levels trades 100) as [|hvl r] eqn:E;
    [vm_compute in E; discriminate E|].
  destruct (proj2 (X13_highest_volume_level trades 100) hvl r E) as [-> _].
  exists hvl. split; [reflexivity|].
  vm_compute in E. injection E as <-. split; reflexivity.
Defined.

(** ** The levels of the options flow *)

Lemma sort_key_rev_head {A} (key : A -> Q) (l : list A) (h : A) (r : list A) :
  sort_key_rev key l = h :: r ->
  In h l /\ forall y, In y l -> key y <= key h.
Proof.
  intro E. pose proof (sort_key_rev_sorted key l) as Hs. rewrite E in Hs.
  assert (Hin : forall y, In y l <-> In y (h :: r)).
  { intro y. rewrite <- E. unfold sort_key_rev. symmetry. apply sort_by_In. }
  split; [apply Hin; left; reflexivity|].
  intros y Hy. apply Hin in Hy. inversion Hs as [|? ? _ Hf]; subst.
  destruct Hy as [<- | Hy]; [apply Qle_refl|].
  rewrite Forall_forall in Hf. apply Hf. exact Hy.
Qed.

(** X14. The levels read off the flow per strike.  There is no level
    without a strike.  HVS is a strike of greatest total volume.  Max Pain
    Flow is a strike traded on both sides.  Call Flow Resistance is a strike
    above the spot price with more call than put volume, and none such has
    a greater weighted flow; Put Flow Support is a strike below the spot
    price with more put than call volume, and none such has a weighted flow
    of greater absolute value.  VWAS is there when there is a strike and the
    total volume is positive.  No other level is made. *)
Theorem X14_flow_levels
  (spot_price : Q) (strike_flow : dict Q StrikeFlow) (total_volume_ : Q) :
  let levels := flow_levels_of spot_price strike_flow total_volume_ in
  (strike_flow = [] -> levels = [])
  /\ (strike_flow <> [] -> exists k, dict_get String.eqb levels "HVS" = Some k)
  /\ (forall k, dict_get String.eqb levels "HVS" = Some k ->
        exists data, In (k, data) strike_flow
          /\ forall x, In x strike_flow ->
               total_volume (snd x) <= total_volume data)
  /\ (forall k, dict_get String.eqb levels "Max Pain Flow" = Some k ->
        exists data, In (k, data) strike_flow
          /\ 0 < call_volume data /\ 0 < put_volume data)
  /\ (forall k, dict_get String.eqb levels "Call Flow Resistance" = Some k ->
        exists data, In (k, data) strike_flow
          /\ spot_price < k /\ put_volume data < call_volume data
          /\ forall x, In x strike_flow -> spot_price < fst x ->
               put_volume (snd x) < call_volume (snd x) ->
               weighted_flow (snd x) <= weighted_flow data)
  /\ (forall k, dict_get String.eqb levels "Put Flow Support" = Some k ->
        exists data, In (k, data) strike_flow
          /\ k < spot_price /\ call_volume data < put_volume data
          /\ forall x, In x strike_flow -> fst x < spot_price ->
               call_volume (snd x) < put_volume (snd x) ->
               Qabs (weighted_flow (snd x)) <= Qabs (weighted_flow data))
  /\ (dict_mem String.eqb levels "VWAS" = true <->
      strike_flow <> [] /\ 0 < total_volume_)
  /\ (forall name, In name (dict_keys levels) ->
        In name ["HVS"; "Max Pain Flow"; "Call Flow Resistance";
                 "Put Flow Support"; "VWAS"]).
Proof.
  cbv zeta. unfold flow_levels_of.
  destruct (max_key (fun x => total_volume (snd x)) strike_flow) as [hvs|] eqn:Eh.
  2:{ destruct strike_flow as [|x r]; [|discriminate Eh].
      repeat split; try congruence; try discriminate; try tauto.
      intros name []. }
  apply max_key_spec in Eh. destruct Eh as [Hhin Hhmax].
  assert (Hne : strike_flow <> []) by (intro E; rewrite E in Hhin; destruct Hhin).
  (* the head of each sorted list, when there is one *)
  assert (Hmp : forall f r,
             sort_by (fun x y => pair_leb (snd y) (snd x))
               (map (fun x => (fst x,
                               (py_min (call_volume (snd x)) (put_volume (snd x))
                                / py_max (call_volume (snd x)) (put_volume (snd x)),
                                total_volume (snd x))))
                    (filter (fun x => Qlt_bool 0 (call_volume (snd x))
                                      && Qlt_bool 0 (put_volume (snd x)))
                            strike_flow)) = f :: r ->
             exists data, In (fst f, data) strike_flow
               /\ 0 < call_volume data /\ 0 < put_volume data).
  { intros f r E.
    assert (Hin : In f (f :: r)) by (left; reflexivity).
    rewrite <- E in Hin. apply sort_by_In, in_map_iff in Hin.
    destruct Hin as [[k data] [<- Hin]]. apply filter_In in Hin.
    destruct Hin as [Hin Hb]. apply andb_true_iff in Hb.
    rewrite !Qlt_bool_iff in Hb. exists data. cbn [fst snd] in *. tauto. }
  assert (Hcr : forall f r,
             sort_key_rev snd
               (map (fun x => (fst x, weighted_flow (snd x)))
                    (filter (fun x => Qlt_bool spot_price (fst x)
                                      && Qlt_bool (put_volume (snd x))
                                                  (call_volume (snd x)))
                            strike_flow)) = f :: r ->
             exists data, In (fst f, data) strike_flow
               /\ spot_price < fst f /\ put_volume data < call_volume data
               /\ forall x, In x strike_flow -> spot_price < fst x ->
                    put_volume (snd x) < call_volume (snd x) ->
                    weighted_flow (snd x) <= weighted_flow data).
  { intros f r E. apply sort_key_rev_head in E. destruct E as [Hin Hmax].
    apply in_map_iff in Hin. destruct Hin as [[k data] [<- Hin]].
    apply filter_In in Hin. destruct Hin as [Hin Hb]. apply andb_true_iff in Hb.
    rewrite !Qlt_bool_iff in Hb. exists data. cbn [fst snd] in *.
    split; [exact Hin|]. split; [apply Hb|]. split; [apply Hb|].
    intros x Hx H1 H2.
    apply (Hmax (fst x, weighted_flow (snd x))).
    apply in_map_iff. exists x. split; [reflexivity|].
    apply filter_In. split; [exact Hx|].
    apply andb_true_iff. rewrite !Qlt_bool_iff. tauto. }
  assert (Hps : forall f r,
             sort_key_rev snd
               (map (fun x => (fst x, Qabs (weighted_flow (snd x))))
                    (filter (fun x => Qlt_bool (fst x) spot_price
                                      && Qlt_bool (call_volume (snd x))
                                                  (put_volume (snd x)))
                            strike_flow)) = f :: r ->
             exists data, In (fst f, data) strike_flow
               /\ fst f < spot_price /\ call_volume data < put_volume data
               /\ forall x, In x strike_flow -> fst x < spot_price ->
                    call_volume (snd x) < put_volume (snd x) ->
                    Qabs (weighted_flow (snd x)) <= Qabs (weighted_flow data)).
  { intros f r E. apply sort_key_rev_head in E. destruct E as [Hin Hmax].
    apply in_map_iff in Hin. destruct Hin as [[k data] [<- Hin]].
    apply filter_In in Hin. destruct Hin as [Hin Hb]. apply andb_true_iff in Hb.
    rewrite !Qlt_bool_iff in Hb. exists data. cbn [fst snd] in *.
    split; [exact Hin|]. split; [apply Hb|]. split; [apply Hb|].
    intros x Hx H1 H2.
    apply (Hmax (fst x, Qabs (weighted_flow (snd x)))).
    apply in_map_iff. exists x. split; [reflexivity|].
    apply filter_In. split; [exact Hx|].
    apply andb_true_iff. rewrite !Qlt_bool_iff. tauto. }
  assert (Hhvs : exists data, In (fst hvs, data) strike_flow
                   /\ forall x, In x strike_flow ->
                        total_volume (snd x) <= total_volume data).
  { destruct hvs as [k data]. exists data. split; [exact Hhin | exact Hhmax]. }
  clear Hhin Hhmax.
  destruct (sort_by (fun x y => pair_leb (snd y) (snd x)) _) as [|f1 r1] eqn:E1;
    [clear Hmp | specialize (Hmp f1 r1 eq_refl)];
    (destruct (sort_key_rev snd
                 (map (fun x => (fst x, weighted_flow (snd x))) _))
       as [|f2 r2] eqn:E2;
     [clear Hcr | specialize (Hcr f2 r2 eq_refl)]);
    (destruct (sort_key_rev snd
                 (map (fun x => (fst x, Qabs (weighted_flow (snd x)))) _))
       as [|f3 r3] eqn:E3;
     [clear Hps | specialize (Hps f3 r3 eq_refl)]);
    (destruct (Qlt_bool 0 total_volume_) eqn:Ev;
     [apply Qlt_bool_iff in Ev | apply Qlt_bool_false in Ev]);
    cbn;
    (split; [congruence|]);
    (split; [intros _; eexists; reflexivity|]);
    (split; [intros k [= <-]; exact Hhvs|]);
    (split; [first [intros k [= <-]; assumption | discriminate]|]);
    (split; [first [intros k [= <-]; assumption | discriminate]|]);
    (split; [first [intros k [= <-]; assumption | discriminate]|]);
    (split;
     [ split; [first [discriminate | intros _; split; assumption]
              | first [reflexivity | intros [_ H]; exfalso; lra]]
     | intros name H; tauto ]).
Qed.

Lemma X14_flow_levels_witness :
  let sf : dict Q StrikeFlow :=
    [(100, mkStrikeFlow 10 4 6 4 3); (110, mkStrikeFlow 5 2 5 0 2);
     (90, mkStrikeFlow 7 (-3) 1 6 (-4))] in
  dict_get String.eqb (flow_levels_of 100 sf 22) "Call Flow Resistance" = Some 110
  /\ exists data, In (110, data) sf /\ 100 < 110
                  /\ put_volume data < call_volume data.
Proof.
  intro sf. split; [reflexivity|].
  destruct (X14_flow_levels 100 sf 22) as [_ [_ [_ [_ [H _]]]]].
  destruct (H 110 eq_refl) as [data [Hin [Hk [Hv _]]]].
  exists data. auto.
Defined.

(** ** The names of the levels *)

Lemma process_timeframe_names (spot_price : Q) (l : list Instrument)
  (tf : string) (band : Q) (nm : string) :
  In nm (dict_keys (fst (fst (fst (fst (process_timeframe spot_price l tf band)))))) ->
  nm = level_name "Call Resistance" tf \/ nm = level_name "Put Support" tf.
Proof.
  unfold process_timeframe.
  destruct (fold_left aggregate_oi l ([], [])) as [C P]. cbn [fst].
  destruct (max_key snd (filter_call_strikes spot_price C band)) as [c|];
    destruct (max_key snd (filter_put_strikes spot_price P band)) as [p|];
    intro H;
    repeat (apply dict_keys_set_origin in H; destruct H as [H | H]; [|auto]);
    destruct H.
Qed.

Lemma gamma_wall_names (l : list Instrument) (spot_price : Q)
  (lv : dict string Q) (nm : string) :
  calculate_gamma_wall l spot_price = ok lv -> In nm (dict_keys lv) ->
  nm = "Gamma Wall (Short Gamma)" \/ nm = "Gamma Wall (Long Gamma)".
Proof.
  unfold calculate_gamma_wall. destruct l as [|i r]; [intros [= <-] []|].
  destruct (fold_result (gamma_step spot_price) (i :: r) []) as [e|d];
    [discriminate|].
  cbv beta iota delta [bind_result].
  destruct (max_key (fun x => Qabs (snd x)) d) as [w|]; [|intros [= <-] []].
  cbv zeta. destruct (Qlt_bool _ 0); intros [= <-] [<- | []]; auto.
Qed.

Lemma option_levels_names (g : Groups) (spot_price : Q)
  (oa : dict string (dict string Q)) (nm : string) :
  option_levels_of_groups g spot_price = ok oa ->
  In nm (dict_keys (dict_get_default String.eqb oa "levels" [])) ->
  In nm known_names.
Proof.
  unfold option_levels_of_groups.
  destruct (calculate_atm_iv spot_price (current_instruments g)) as [e|iv1];
    [discriminate|].
  destruct (calculate_atm_iv spot_price (dte0_instruments g)) as [e|iv2];
    [discriminate|].
  destruct (calculate_atm_iv spot_price (week1_instruments g)) as [e|iv3];
    [discriminate|].
  destruct (calculate_atm_iv spot_price (month1_instruments g)) as [e|iv4];
    [discriminate|].
  cbv beta iota zeta delta [bind_result].
  pose proof (process_timeframe_names spot_price (current_instruments g) ""
                (calculate_dynamic_band iv1 7)) as H1.
  pose proof (process_timeframe_names spot_price (dte0_instruments g) "0DTE"
                (calculate_dynamic_band iv2 (1#10))) as H2.
  pose proof (process_timeframe_names spot_price (week1_instruments g) "1W"
                (calculate_dynamic_band iv3 7)) as H3.
  pose proof (process_timeframe_names spot_price (month1_instruments g) "1M"
                (calculate_dynamic_band iv4 30)) as H4.
  destruct (process_timeframe spot_price (current_instruments g) _ _)
    as [[[[l1 ?] ?] ?] ?].
  destruct (process_timeframe spot_price (dte0_instruments g) _ _)
    as [[[[l2 ?] ?] ?] ?].
  destruct (process_timeframe spot_price (week1_instruments g) _ _)
    as [[[[l3 ?] ?] ?] ?].
  destruct (process_timeframe spot_price (month1_instruments g) _ _)
    as [[[[l4 ?] ?] ?] ?].
  cbn [fst] in H1, H2, H3, H4.
  pose proof (gamma_wall_names (dte0_instruments g) spot_price) as Hg.
  destruct (calculate_gamma_wall (dte0_instruments g) spot_price) as [e|gw];
    [discriminate|].
  specialize (Hg gw). intros [= <-]. cbn [dict_get_default dict_get String.eqb].
  change (dict_get_default String.eqb _ "levels" []) with
    (match gw with
     | [] => dict_update String.eqb
               (dict_update String.eqb
                  (dict_update String.eqb (dict_update String.eqb [] l1) l2) l3) l4
     | _ :: _ =>
         dict_update String.eqb
           (dict_update String.eqb
              (dict_update String.eqb
                 (dict_update String.eqb (dict_update String.eqb [] l1) l2) l3) l4)
           gw
     end).
  assert (Hbase : In nm (dict_keys
                     (dict_update String.eqb
                        (dict_update String.eqb
                           (dict_update String.eqb
                              (dict_update String.eqb [] l1) l2) l3) l4)) ->
                  In nm known_names).
  { intro H.
    apply dict_keys_update_In, in_app_iff in H. destruct H as [H | H].
    2:{ destruct (H4 nm H) as [-> | ->]; vm_compute; tauto. }
    apply dict_keys_update_In, in_app_iff in H. destruct H as [H | H].
    2:{ destruct (H3 nm H) as [-> | ->]; vm_compute; tauto. }
    apply dict_keys_update_In, in_app_iff in H. destruct H as [H | H].
    2:{ destruct (H2 nm H) as [-> | ->]; vm_compute; tauto. }
    apply dict_keys_update_In, in_app_iff in H. destruct H as [[] | H].
    destruct (H1 nm H) as [-> | ->]; vm_compute; tauto. }
  destruct gw as [|x gw']; [exact Hbase|].
  intro H. apply dict_keys_update_In, in_app_iff in H.
  destruct H as [H | H]; [apply Hbase; exact H|].
  destruct (Hg nm eq_refl H) as [-> | ->]; vm_compute; tauto.
Qed.

Lemma flow_levels_names (spot_price : Q) (sf : dict Q StrikeFlow) (tv : Q)
  (nm : string) :
  In nm (dict_keys (flow_levels_of spot_price sf tv)) -> In nm known_names.
Proof.
  unfold flow_levels_of.
  destruct (max_key _ sf); [|intros []].
  destruct (sort_by _ _); destruct (sort_key_rev _ _); destruct (sort_key_rev _ _);
    destruct (Qlt_bool 0 tv); cbn; intro H;
    repeat (destruct H as [<- | H]; [vm_compute; tauto|]); destruct H.
Qed.

(** X15. Every level that the analysis returns carries one of the names of
    the table of base confidences, so the default base confidence of 0.3 is
    never the one applied. *)
Theorem X15_level_names_known
  (py_exp : Q -> Q) (currency_ : string) (f : Fetched)
  (clock : nat -> datetime) (tick tick' : nat)
  (key_levels : list KeyLevel) (metadata : Metadata) :
  generate_key_levels py_exp currency_ f clock tick
  = (ok (key_levels, metadata), tick') ->
  forall kl, In kl key_levels ->
    exists base, dict_get String.eqb confidence_map (name kl) = Some base.
Proof.
  unfold generate_key_levels.
  destruct (Qle_bool (fetch_index_price f) 0) eqn:Es; [discriminate|].
  apply Qle_bool_false in Es.
  assert (Hs : ~ fetch_index_price f == 0) by lra.
  destruct (fetch_complete_futures_trades (futures_chunks f)) as [e|ft];
    [destruct (fetch_complete_options_trades (options_chunks f)); discriminate|].
  destruct (fetch_complete_options_trades (options_chunks f)) as [e|ot];
    [discriminate|].
  destruct (calculate_1d_levels (stats_24h f)) as [max_24h min_24h].
  unfold bind, ret.
  assert (Hopt : forall oa t1,
             calculate_option_levels (enhance_instruments (book_summary f))
               (fetch_index_price f) clock tick = (ok oa, t1) ->
             forall nm,
               In nm (dict_keys (dict_get_default String.eqb oa "levels" [])) ->
               In nm known_names).
  { intros oa t1. unfold calculate_option_levels.
    destruct (enhance_instruments (book_summary f)) as [|i r].
    - intros [= <- _] nm [].
    - unfold bind, ret. destruct (group_instruments (i :: r) clock tick) as [g t2].
      intros [= H _] nm. apply (option_levels_names g _ oa nm H). }
  destruct (calculate_option_levels _ _ clock tick) as [[e|oa] t1];
    [discriminate|].
  specialize (Hopt oa t1 eq_refl).
  assert (Hflow : forall nm,
             In nm (dict_keys
                      (fst (analyze_complete_options_flow py_exp ot
                              (fetch_index_price f) clock t1))) ->
             In nm known_names).
  { intro nm. unfold analyze_complete_options_flow.
    destruct ot as [|t0 r0]; [intros []|]. unfold bind, ret.
    destruct (foldM _ _ _ clock t1) as [[sf tv] t2]. cbn [fst snd].
    apply flow_levels_names. }
  destruct (analyze_complete_options_flow py_exp ot (fetch_index_price f) clock t1)
    as [fl t2]. cbn [fst] in Hflow.
  rewrite compose_key_levels_ok by exact Hs.
  cbv beta iota delta [bind_result ok].
  intros [= <- _ _] kl Hkl.
  apply sort_by_In, in_map_iff in Hkl. destruct Hkl as [[nm p] [<- Hin]].
  apply filter_In in Hin. destruct Hin as [Hin _].
  assert (Hnm : In nm known_names).
  { apply (in_map fst) in Hin. cbn [fst] in Hin.
    change (map fst) with (@dict_keys string Q) in Hin.
    apply dict_keys_update_In, in_app_iff in Hin.
    destruct Hin as [Hin | Hin]; [|apply Hflow; exact Hin].
    apply dict_keys_update_In, in_app_iff in Hin.
    destruct Hin as [Hin | Hin]; [|apply Hopt; exact Hin].
    assert (Hhvl : forall (hv : list VolumeLevel) (d : dict string Q),
               (forall x, In x hv -> vl_level x = "HVL") ->
               In nm (dict_keys
                        (fold_left (fun acc hvl =>
                                      dict_set String.eqb acc (vl_level hvl)
                                               (vl_price hvl)) hv d)) ->
               In nm (dict_keys d) \/ nm = "HVL").
    { induction hv as [|x r IH]; intros d Hx H; [left; exact H|].
      cbn [fold_left] in H. apply IH in H; [|intros; apply Hx; right; assumption].
      destruct H as [H | H]; [|right; exact H].
      apply dict_keys_set_origin in H. destruct H as [H | ->]; [left; exact H|].
      right. apply Hx. left. reflexivity. }
    apply Hhvl in Hin.
    - destruct Hin as [Hin | ->]; [|vm_compute; tauto].
      destruct (Qlt_bool 0 max_24h), (Qlt_bool 0 min_24h); cbn in Hin;
        repeat (destruct Hin as [<- | Hin]; [vm_compute; tauto|]); destruct Hin.
    - intros x Hx. unfold calculate_volume_profile_levels in Hx.
      destruct ft as [|t0 r0]; [destruct Hx|]. cbv zeta in Hx.
      destruct (max_key snd _); [|destruct Hx].
      destruct Hx as [<- | []]. reflexivity. }
  unfold key_level_of. cbn [name fst].
  unfold known_names in Hnm.
  vm_compute in Hnm.
  repeat (destruct Hnm as [<- | Hnm]; [eexists; reflexivity|]). destruct Hnm.
Qed.

Lemma X15_level_names_witness :
  exists key_levels metadata tick',
    generate_key_levels (fun _ => 1) "BTC" sample_fetched (fun _ => sample_now) 0%nat
    = (ok (key_levels, metadata), tick')
    /\ forall kl, In kl key_levels ->
         exists base, dict_get String.eqb confidence_map (name kl) = Some base.
Proof.
  destruct (generate_key_levels (fun _ => 1) "BTC" sample_fetched
              (fun _ => sample_now) 0%nat) as [[e|[kls md]] t'] eqn:E;
    [vm_compute in E; discriminate E|].
  exists kls, md, t'. split; [reflexivity|].
  apply (X15_level_names_known _ _ _ _ _ _ _ _ E).
Defined.
